(** * The xpra mmap transport: [xpra/net/mmap_pipe.py] and its server-side
    user [xpra/server/source/mmap_connection.py].

    The shared region is a byte array.  Bytes [0,4) hold the read cursor
    [data_start], bytes [4,8) the write cursor [data_end], both accessed
    through [ctypes.c_uint32.from_buffer]; the rest is the data area.
    Python integers are [Z]; everything a Python call can raise is kept as
    an explicit outcome, and the mutable mmap object (its bytes and its
    seek position) together with the logger output is threaded as state. *)

From Stdlib Require Import ZArith Lia QArith.
From Stdlib Require Import Strings.Byte Strings.String.
From stdpp Require Import base list strings gmap.

Local Open Scope Z_scope.

(** ** Bytes *)

Definition Z_of_byte (b : byte) : Z := Z.of_N (Byte.to_N b).

(** [c_ubyte.value = z]: ctypes does no overflow checking, the stored byte
    is [z] reduced modulo 256. *)
Definition byte_of_Z (z : Z) : byte :=
  match Byte.of_N (Z.to_N (z mod 256)) with
  | Some b => b
  | None => x00
  end.

(** ** Array surgery on the mapped bytes (positions are list indices) *)

Definition slice (l : list byte) (p n : nat) : list byte := take n (drop p l).

Definition write_at (l : list byte) (p : nat) (d : list byte) : list byte :=
  take p l ++ d ++ drop (p + length d) l.

(** ** [ctypes.c_uint32]: four bytes in the byte order of the platform *)

Inductive byteorder := LittleEndian | BigEndian.

Definition le_bytes (v : Z) : list byte :=
  [byte_of_Z v; byte_of_Z (v ≫ 8); byte_of_Z (v ≫ 16); byte_of_Z (v ≫ 24)].

Definition le_value (l : list byte) : Z :=
  foldr (fun b acc => Z_of_byte b + 256 * acc) 0 l.

Definition uint32_encode (bo : byteorder) (v : Z) : list byte :=
  match bo with
  | LittleEndian => le_bytes v
  | BigEndian => reverse (le_bytes v)
  end.

Definition uint32_decode (bo : byteorder) (l : list byte) : Z :=
  match bo with
  | LittleEndian => le_value l
  | BigEndian => le_value (reverse l)
  end.

(** ** Python slicing [data[:k]] and [data[k:]], negative [k] included *)

Definition py_bound (len k : Z) : nat :=
  Z.to_nat (if k <? 0 then Z.max 0 (len + k) else k).

Definition py_slice_to (data : list byte) (k : Z) : list byte :=
  take (py_bound (Z.of_nat (length data)) k) data.

Definition py_slice_from (data : list byte) (k : Z) : list byte :=
  drop (py_bound (Z.of_nat (length data)) k) data.

(** [range(lo, hi)] *)
Definition range (lo hi : Z) : list Z := seqZ lo (hi - lo).

(** ** The process state and the monad of the modelled Python code *)

Inductive exn := ValueError | AssertionError | UnboundLocalError | TypeError.

Inductive outcome (A : Type) :=
| Ret (a : A)
| Raise (e : exn).
Arguments Ret {A} a.
Arguments Raise {A} e.

(** The two [log.warn] messages of [mmap_write]. *)
Inductive warning := AreaTooSmall | AreaFull.

(** An [mmap.mmap] object: the mapped bytes and the seek position. *)
Record mmap_object := MMap {
  buf : list byte;
  pos : Z
}.

(** What the functions of [mmap_pipe] act on: the [mmap_area] they are
    handed and the output of the module's logger. *)
Record proc := Proc {
  area : mmap_object;
  logged : list warning
}.

Definition M (A : Type) : Type := proc -> outcome A * proc.

Definition ret {A} (a : A) : M A := fun s => (Ret a, s).

Definition raise {A} (e : exn) : M A := fun s => (Raise e, s).

Definition bind {A B} (c : M A) (k : A -> M B) : M B :=
  fun s =>
    match c s with
    | (Ret a, s') => k a s'
    | (Raise e, s') => (Raise e, s')
    end.

Declare Scope py_scope.
Delimit Scope py_scope with py.
Notation "x <- c ;; k" := (bind c (fun x => k))
  (at level 20, c at level 99, k at level 200, only parsing) : py_scope.
Notation "c ;; k" := (bind c (fun _ => k))
  (at level 100, k at level 200, only parsing, right associativity) : py_scope.
Local Open Scope py_scope.

Definition py_assert (b : bool) : M unit :=
  if b then ret tt else raise AssertionError.

(** [for x in l: acc = body(acc, x)] *)
Fixpoint for_fold {A B} (body : B -> A -> M B) (l : list A) (acc : B) : M B :=
  match l with
  | [] => ret acc
  | x :: l' => acc' <- body acc x ;; for_fold body l' acc'
  end.

Definition bytes_of (s : proc) : list byte := buf (area s).

Definition size_of (s : proc) : Z := Z.of_nat (length (bytes_of s)).

Definition with_bytes (s : proc) (b : list byte) : proc :=
  Proc (MMap b (pos (area s))) (logged s).

Definition with_pos (s : proc) (p : Z) : proc :=
  Proc (MMap (bytes_of s) p) (logged s).

(** [ctype.from_buffer(mmap_area, offset)] for a ctype of [sz] bytes: the
    result is a reference into the buffer, here the offset itself. *)
Definition from_buffer (sz offset : Z) : M Z :=
  fun s =>
    if (offset <? 0) || (size_of s <? offset + sz)
    then (Raise ValueError, s)
    else (Ret offset, s).

Definition ubyte_value (ref : Z) : M Z :=
  fun s => (Ret (Z_of_byte (default x00 (bytes_of s !! Z.to_nat ref))), s).

Definition ubyte_set (ref v : Z) : M unit :=
  fun s => (Ret tt, with_bytes s (write_at (bytes_of s) (Z.to_nat ref) [byte_of_Z v])).

(** [int_from_buffer]: [c_uint32.from_buffer(mmap_area, pos)] *)
Definition int_from_buffer (p : Z) : M Z := from_buffer 4 p.

Definition uint32_value (bo : byteorder) (ref : Z) : M Z :=
  fun s => (Ret (uint32_decode bo (slice (bytes_of s) (Z.to_nat ref) 4)), s).

(** [ref.value = v]: the low 32 bits of [v] are stored. *)
Definition uint32_set (bo : byteorder) (ref v : Z) : M unit :=
  fun s => (Ret tt, with_bytes s (write_at (bytes_of s) (Z.to_nat ref) (uint32_encode bo v))).

(** [ctypes.c_char * length] *)
Definition c_char_array (length : Z) : M Z :=
  if length <? 0 then raise ValueError else ret length.

(** [mmap_area.seek(p)] *)
Definition seek (p : Z) : M unit :=
  fun s =>
    if (p <? 0) || (size_of s <? p)
    then (Raise ValueError, s)
    else (Ret tt, with_pos s p).

(** [mmap_area.write(d)] *)
Definition write (d : list byte) : M unit :=
  fun s =>
    let p := pos (area s) in
    if (size_of s <? p) || (size_of s - p <? Z.of_nat (length d))
    then (Raise ValueError, s)
    else (Ret tt, Proc (MMap (write_at (bytes_of s) (Z.to_nat p) d)
                             (p + Z.of_nat (length d))) (logged s)).

(** [mmap_area.read(n)]: at most the bytes that remain, all of them for a
    negative [n]. *)
Definition read (n : Z) : M (list byte) :=
  fun s =>
    let p := pos (area s) in
    let remaining := if p <? size_of s then size_of s - p else 0 in
    let n' := if (n <? 0) || (remaining <? n) then remaining else n in
    (Ret (slice (bytes_of s) (Z.to_nat p) (Z.to_nat n')), with_pos s (p + n')).

Definition warn (w : warning) : M unit :=
  fun s => (Ret tt, Proc (area s) (logged s ++ [w])).

(** ** The capability token *)

Definition DEFAULT_TOKEN_BYTES : Z := 128.

Definition write_mmap_token (token index count : Z) : M unit :=
  py_assert (0 <? count) ;;
  v <- for_fold (fun v i =>
         poke <- from_buffer 1 (index + i) ;;
         ubyte_set poke (v mod 256) ;;
         ret (v ≫ 8))
       (range 0 count) token ;;
  py_assert (v =? 0).

Definition read_mmap_token (index count : Z) : M Z :=
  py_assert (0 <? count) ;;
  for_fold (fun v i =>
    let v := v ≪ 8 in
    peek <- from_buffer 1 (index + count - 1 - i) ;;
    b <- ubyte_value peek ;;
    ret (v + b))
  (range 0 count) 0.

(** ** The ring: [mmap_read] and [mmap_write] *)

(** A chunk descriptor: the [(offset, length)] pairs of one payload. *)
Definition descr := list (Z * Z).

(** What [mmap_read] hands back: a ctypes array sharing the mapped bytes
    (one pair), or a [bytes] object of its own (otherwise). *)
Inductive read_result :=
| View (offset length : Z)
| Copy (data : list byte).

(** The bytes a result denotes in a given state of the region. *)
Definition contents (b : list byte) (r : read_result) : list byte :=
  match r with
  | View o l => slice b (Z.to_nat o) (Z.to_nat l)
  | Copy d => d
  end.

Definition mmap_read (bo : byteorder) (descr_data : descr) : M read_result :=
  data_start <- int_from_buffer 0 ;;
  match descr_data with
  | [(offset, length)] =>
      arraytype <- c_char_array length ;;
      uint32_set bo data_start (offset + length) ;;
      view <- from_buffer arraytype offset ;;
      ret (View view length)
  | _ =>
      data <- for_fold (fun data '(offset, length) =>
                seek offset ;;
                piece <- read length ;;
                uint32_set bo data_start (offset + length) ;;
                ret (data ++ [piece]))
              descr_data [] ;;
      ret (Copy (concat data))
  end.

(** Modelled from the spec: [xpra.os_util.memoryview_to_bytes] is not among
    the sources; payloads are opaque bytes that are copied as they are. *)
Definition memoryview_to_bytes (data : list byte) : list byte := data.

(** The free-space accounting at the head of [mmap_write], from the clamped
    cursors: [(available, chunk)]. *)
Definition free_space (mmap_size start end_ : Z) : Z * Z :=
  if end_ <? start then
    let available := start - end_ in
    let chunk := available in
    (available, chunk)
  else
    let chunk := mmap_size - end_ in
    let available := chunk + (start - 8) in
    (available, chunk).

(** [available >= mmap_size/2]: [/] is Python's true division, so the
    comparison is one of rationals (a float holds [mmap_size/2] exactly for
    every size below 2^53). *)
Definition ge_half (available mmap_size : Z) : bool :=
  Qle_bool (Qmake mmap_size 2) (inject_Z available).

Definition mmap_write (bo : byteorder) (mmap_size : Z) (data : list byte)
  : M (option descr * Z) :=
  mmap_data_start <- int_from_buffer 0 ;;
  mmap_data_end <- int_from_buffer 4 ;;
  start_value <- uint32_value bo mmap_data_start ;;
  end_value <- uint32_value bo mmap_data_end ;;
  let start := Z.max 8 start_value in
  let end_ := Z.max 8 end_value in
  let l := Z.of_nat (length data) in
  let '(available, chunk) := free_space mmap_size start end_ in
  let mmap_free_size := available - l in
  if mmap_size - 8 <? l then
    warn AreaTooSmall ;;
    ret (None, mmap_free_size)
  else if mmap_free_size <=? 0 then
    warn AreaFull ;;
    ret (None, mmap_free_size)
  else if l <? chunk then
    seek end_ ;;
    write (memoryview_to_bytes data) ;;
    uint32_set bo mmap_data_end (end_ + l) ;;
    ret (Some [(end_, l)], mmap_free_size)
  else if ge_half available mmap_size && (l * 3 <=? available) && (l <? start - 8) then
    seek 8 ;;
    write (memoryview_to_bytes data) ;;
    uint32_set bo mmap_data_end (8 + l) ;;
    ret (Some [(8, l)], mmap_free_size)
  else
    seek end_ ;;
    write (memoryview_to_bytes (py_slice_to data chunk)) ;;
    seek 8 ;;
    write (memoryview_to_bytes (py_slice_from data chunk)) ;;
    let l2 := l - chunk in
    uint32_set bo mmap_data_end (8 + l2) ;;
    ret (Some [(end_, chunk); (8, l2)], mmap_free_size).

(** The cursors as the two sides see them. *)
Definition data_start (bo : byteorder) (b : list byte) : Z :=
  uint32_decode bo (slice b 0 4).

Definition data_end (bo : byteorder) (b : list byte) : Z :=
  uint32_decode bo (slice b 4 4).

(** ** One producer and one consumer over the shared bytes

    Each process has its own mmap object, hence its own seek position; the
    mapped bytes are common.  The producer hands every descriptor it gets
    from [mmap_write] to the consumer, which passes them to [mmap_read] in
    that order, each once. *)

Inductive op :=
| DoWrite (payload : list byte)
| DoRead.

Record channel := Channel {
  shared : list byte;
  producer_pos : Z;
  consumer_pos : Z;
  live : list descr
}.

Definition step (bo : byteorder) (mmap_size : Z) (o : op) (c : channel)
  : option channel :=
  match o with
  | DoWrite payload =>
      match mmap_write bo mmap_size payload (Proc (MMap (shared c) (producer_pos c)) []) with
      | (Ret (Some d, _), s) =>
          Some (Channel (bytes_of s) (pos (area s)) (consumer_pos c) (live c ++ [d]))
      | (Ret (None, _), s) =>
          Some (Channel (bytes_of s) (pos (area s)) (consumer_pos c) (live c))
      | (Raise _, _) => None
      end
  | DoRead =>
      match live c with
      | [] => Some c
      | d :: rest =>
          match mmap_read bo d (Proc (MMap (shared c) (consumer_pos c)) []) with
          | (Ret _, s) => Some (Channel (bytes_of s) (producer_pos c) (pos (area s)) rest)
          | (Raise _, _) => None
          end
      end
  end.

Fixpoint run (bo : byteorder) (mmap_size : Z) (ops : list op) (c : channel)
  : option channel :=
  match ops with
  | [] => Some c
  | o :: ops' =>
      match step bo mmap_size o c with
      | Some c' => run bo mmap_size ops' c'
      | None => None
      end
  end.

(** The pairs of all live descriptors, oldest first. *)
Definition live_pairs (c : channel) : list (Z * Z) := concat (live c).

Definition in_data_area (mmap_size : Z) (p : Z * Z) : Prop :=
  8 <= fst p /\ 0 <= snd p /\ fst p + snd p <= mmap_size.

Definition disjoint (p q : Z * Z) : Prop :=
  fst p + snd p <= fst q \/ fst q + snd q <= fst p.

Definition no_overlap (mmap_size : Z) (ps : list (Z * Z)) : Prop :=
  Forall (in_data_area mmap_size) ps /\
  forall i j p q, (i < j)%nat -> ps !! i = Some p -> ps !! j = Some q -> disjoint p q.

(** ** The server side of the handshake: [init_server_mmap] and
    [MMAP_Connection.parse_client_caps] *)

Inductive node := Dir | File (content : list byte).

Definition filesystem := string -> option node.

Inductive server_event :=
| ErrorCannotAccess
| WarnSizeMismatch (expected actual : Z)
| ErrorNoSize
| ErrorCannotUse
| WarnTokenFailed (expected : option Z) (found : Z)
| WarnTooSmall
| Closed (m : mmap_object)
| InfoEnabled.

(** [mmap.mmap(fileno, length)] of CPython on a regular file of the given
    content: a negative length and a length beyond the end of the file are
    refused, length 0 maps the whole file and refuses an empty one. *)
Definition posix_mmap (content : list byte) (length : Z) : option mmap_object :=
  let st_size := Z.of_nat (List.length content) in
  if length <? 0 then None
  else if length =? 0 then
    if st_size =? 0 then None else Some (MMap content 0)
  else if st_size <? length then None
  else Some (MMap (take (Z.to_nat length) content) 0).

(** The truth value of an mmap object is that of its length. *)
Definition mmap_truthy (m : option mmap_object) : bool :=
  match m with
  | Some a => negb (Nat.eqb (length (buf a)) 0)
  | None => false
  end.

Section Host.

(** The platform flag of [xpra.os_util], the file system, and the named
    mappings [mmap.mmap(0, size, tagname)] of the Windows build. *)
Variable WIN32 : bool.
Variable fs : filesystem.
Variable win32_mmap : Z -> string -> option mmap_object.

Definition path_exists (p : string) : bool :=
  match fs p with Some _ => true | None => false end.

Definition isdir (p : string) : bool :=
  match fs p with Some Dir => true | _ => false end.

(** The body of the [try] of [init_server_mmap]: its outcome, the local
    [mmap_area] when it ended, and what was logged.  [f] is the file opened
    before the [try] and is bound only when [WIN32] is false. *)
Definition init_server_mmap_try (f : option (list byte)) (mmap_filename : string)
    (mmap_size : Z)
  : outcome (option mmap_object * Z) * option mmap_object * list server_event :=
  if negb WIN32 then
    match f with
    | Some content =>
        let actual_mmap_size := Z.of_nat (length content) in
        let ev :=
          if negb (mmap_size =? 0) && negb (actual_mmap_size =? mmap_size)
          then [WarnSizeMismatch mmap_size actual_mmap_size] else [] in
        match posix_mmap content mmap_size with
        | Some mmap_area => (Ret (Some mmap_area, actual_mmap_size), Some mmap_area, ev)
        | None => (Raise ValueError, None, ev)
        end
    | None => (Raise UnboundLocalError, None, [])
    end
  else
    let ev := if mmap_size =? 0 then [ErrorNoSize] else [] in
    match win32_mmap mmap_size mmap_filename with
    | Some mmap_area =>
        match f with
        | Some _ => (Ret (Some mmap_area, mmap_size), Some mmap_area, ev)
        | None => (Raise UnboundLocalError, Some mmap_area, ev)
        end
    | None => (Raise ValueError, None, ev)
    end.

Definition init_server_mmap (mmap_filename : string) (mmap_size : Z)
  : (option mmap_object * Z) * list server_event :=
  let opened :=
    if negb WIN32 then
      match fs mmap_filename with
      | Some (File content) => Ret (Some content)
      | _ => Raise ValueError
      end
    else Ret None in
  match opened with
  | Raise _ => ((None, 0), [ErrorCannotAccess])
  | Ret f =>
      match init_server_mmap_try f mmap_filename mmap_size with
      | (Ret r, _, ev) => (r, ev)
      | (Raise _, mmap_area, ev) =>
          ((None, 0),
           ev ++ [ErrorCannotUse] ++
           (if mmap_truthy mmap_area
            then match mmap_area with Some a => [Closed a] | None => [] end
            else []))
      end
  end.

End Host.

(** Modelled from the spec: [xpra.util.typedict] is not among the sources; a
    getter returns the stored value when it has the requested type and the
    default (or [None]) otherwise. *)
Inductive capval := CInt (z : Z) | CStr (s : string) | CBool (b : bool).

Definition typedict := gmap string capval.

Definition strget (c : typedict) (k : string) : option string :=
  match c !! k with Some (CStr s) => Some s | _ => None end.

Definition intget_opt (c : typedict) (k : string) : option Z :=
  match c !! k with Some (CInt z) => Some z | _ => None end.

Definition intget (c : typedict) (k : string) (d : Z) : Z :=
  default d (intget_opt c k).

Definition boolget (c : typedict) (k : string) (d : bool) : bool :=
  match c !! k with Some (CBool b) => b | _ => d end.

Module MMAP_Connection.

Record source := Source {
  supports_mmap : bool;
  mmap_filename : option string;
  min_mmap_size : Z;
  mmap : option mmap_object;
  mmap_size : Z;
  mmap_client_token : option Z;
  mmap_client_token_index : Z;
  mmap_client_token_bytes : Z;
  mmap_client_namespace : bool
}.

Section Host.

Variable WIN32 : bool.
Variable fs : filesystem.
Variable win32_mmap : Z -> string -> option mmap_object.
(** [os.path.join], [os.path.basename], and the values drawn by
    [get_int_uuid()] and [randint(a, b)]. *)
Variable path_join : string -> string -> string.
Variable basename : string -> string.
Variable get_int_uuid : Z.
Variable randint : Z -> Z -> Z.

Definition truthy_str (o : option string) : bool :=
  match o with Some s => negb (String.eqb s EmptyString) | None => false end.

(** The local [mmapattr(k)] of [parse_client_caps], with the separator it
    captures. *)
Definition mmapattr (namespace : bool) (k : string) : string :=
  "mmap" +:+ (if namespace then "." else "_") +:+ k.

(** Where the server looks for the file the client names: its own
    directory or file when one is configured. *)
Definition server_path (self : source) (client_file : string) : string :=
  if truthy_str (mmap_filename self) then
    let server_file := default EmptyString (mmap_filename self) in
    if isdir fs server_file
    then path_join server_file (basename client_file)
    else server_file
  else client_file.

(** The last statement of [parse_client_caps]. *)
Definition report (self : source) (ev : list server_event) : list server_event :=
  if 0 <? mmap_size self then ev ++ [InfoEnabled] else ev.

Definition parse_client_caps (self : source) (c : typedict)
  : outcome unit * source * list server_event :=
  let namespace := boolget c "mmap.namespace" false in
  let self := Source (supports_mmap self) (mmap_filename self) (min_mmap_size self)
                (mmap self) (mmap_size self) (mmap_client_token self)
                (mmap_client_token_index self) (mmap_client_token_bytes self) namespace in
  let mmapattr := mmapattr namespace in
  let client_file := strget c (mmapattr "file") in
  if negb (truthy_str client_file) then (Ret tt, self, [])
  else
    let client_size := intget c (mmapattr "size") 0 in
    let mmap_token := intget_opt c (mmapattr "token") in
    let filename := server_path self (default EmptyString client_file) in
    if negb (supports_mmap self) then (Ret tt, self, report self [])
    else if WIN32 && String.prefix "/" filename then (Ret tt, self, report self [])
    else if negb (path_exists fs filename) then (Ret tt, self, report self [])
    else
      let '((mapped, size), ev) := init_server_mmap WIN32 fs win32_mmap filename client_size in
      let self := Source (supports_mmap self) (mmap_filename self) (min_mmap_size self)
                    mapped size (mmap_client_token self)
                    (mmap_client_token_index self) (mmap_client_token_bytes self)
                    (mmap_client_namespace self) in
      if 0 <? size then
        let index := intget c (mmapattr "token_index") 0 in
        let count := intget c (mmapattr "token_bytes") DEFAULT_TOKEN_BYTES in
        match mapped with
        | None => (Raise TypeError, self, ev)
        | Some a =>
            match read_mmap_token index count (Proc a []) with
            | (Raise e, _) => (Raise e, self, ev)
            | (Ret v, _) =>
                if negb (bool_decide (mmap_token = Some v)) then
                  let self := Source (supports_mmap self) (mmap_filename self)
                                (min_mmap_size self) None 0 (mmap_client_token self)
                                (mmap_client_token_index self)
                                (mmap_client_token_bytes self)
                                (mmap_client_namespace self) in
                  (Ret tt, self,
                   report self (ev ++ [WarnTokenFailed mmap_token v; Closed a]))
                else if size <? min_mmap_size self then
                  let self := Source (supports_mmap self) (mmap_filename self)
                                (min_mmap_size self) None 0 (mmap_client_token self)
                                (mmap_client_token_index self)
                                (mmap_client_token_bytes self)
                                (mmap_client_namespace self) in
                  (Ret tt, self, report self (ev ++ [WarnTooSmall; Closed a]))
                else
                  let token_index := randint 0 (size - DEFAULT_TOKEN_BYTES) in
                  let self := Source (supports_mmap self) (mmap_filename self)
                                (min_mmap_size self) (Some a) size (Some get_int_uuid)
                                token_index DEFAULT_TOKEN_BYTES
                                (mmap_client_namespace self) in
                  match write_mmap_token get_int_uuid token_index DEFAULT_TOKEN_BYTES
                          (Proc a []) with
                  | (Raise e, s') =>
                      (Raise e,
                       Source (supports_mmap self) (mmap_filename self)
                         (min_mmap_size self) (Some (area s')) size (Some get_int_uuid)
                         token_index DEFAULT_TOKEN_BYTES (mmap_client_namespace self),
                       ev)
                  | (Ret _, s') =>
                      let self := Source (supports_mmap self) (mmap_filename self)
                                    (min_mmap_size self) (Some (area s')) size
                                    (Some get_int_uuid) token_index DEFAULT_TOKEN_BYTES
                                    (mmap_client_namespace self) in
                      (Ret tt, self, report self ev)
                  end
            end
        end
      else (Ret tt, self, report self ev).

End Host.

End MMAP_Connection.

(** ** The byte sequence of a token, as a list

    [token_bytes v n] are the [n] bytes the loop of [write_mmap_token]
    stores, in the order of their addresses. *)
Fixpoint token_bytes (v : Z) (n : nat) : list byte :=
  match n with
  | O => []
  | S n' => byte_of_Z (v mod 256) :: token_bytes (v ≫ 8) n'
  end.

(** ** The free-space accounting in the words of the specification

    Section 4.3, step 2: in the wrapped state ([end < start]) both
    quantities are [start - end]; otherwise the first chunk runs to the end
    of the region and the space below [start] is added to it. *)
Definition spec_first_chunk_capacity (N start end_ : Z) : Z :=
  if end_ <? start then start - end_ else N - end_.

Definition spec_available (N start end_ : Z) : Z :=
  if end_ <? start then start - end_
  else spec_first_chunk_capacity N start end_ + (start - 8).

(** ** The layout of the live data

    [chain c ps e]: the pairs [ps] lie one after the other from [c] to [e]. *)
Fixpoint chain (c : Z) (ps : list (Z * Z)) (e : Z) : Prop :=
  match ps with
  | [] => c = e
  | p :: ps' => fst p = c /\ 0 <= snd p /\ chain (fst p + snd p) ps' e
  end.

(** Either the live pairs run from [start] to [end], or the producer has
    wrapped: an upper run from [start] towards the end of the region and a
    lower run from 8 to [end], with [end] below [start]. *)
Definition layout (N start end_ : Z) (ps : list (Z * Z)) : Prop :=
  (start <= end_ /\ chain start ps end_) \/
  (end_ < start /\
   exists U L top, ps = U ++ L /\ chain start U top /\ top <= N /\ chain 8 L end_).

Definition ring_inv (bo : byteorder) (N : Z) (c : channel) : Prop :=
  Z.of_nat (length (shared c)) = N /\
  data_start bo (shared c) <= N /\ data_end bo (shared c) <= N /\
  Forall (fun d => exists p, last d = Some p /\ fst p + snd p < N) (live c) /\
  layout N (Z.max 8 (data_start bo (shared c))) (Z.max 8 (data_end bo (shared c)))
         (live_pairs c).

(** ** Small regions to run the model on *)

Definition zeros (n : nat) : list byte := replicate n x00.

(** A region as [init_client_mmap] leaves it: all bytes zero. *)
Definition fresh_region (n : nat) : proc := Proc (MMap (zeros n) 0) [].

(** A 16-byte region whose two cursors both stand at 14 (little endian). *)
Definition late_region : proc :=
  Proc (MMap ([x0e; x00; x00; x00; x0e; x00; x00; x00] ++ zeros 8) 0) [].

Definition sample (n : nat) : list byte := take n [x61; x62; x63; x64; x65; x66; x67; x68].

(** A file system with the single 16-byte file [m], whose first byte is 7. *)
Definition one_file : filesystem :=
  fun name => if String.eqb name "m" then Some (File (x07 :: zeros 15)) else None.

Definition no_win32_mmap : Z -> string -> option mmap_object := fun _ _ => None.

(** The capabilities of a client that announces file [m] and token 5,
    one byte wide, at the default index 0. *)
Definition sample_caps : typedict :=
  <["mmap_file" := CStr "m"]>
    (<["mmap_token" := CInt 5]> (<["mmap_token_bytes" := CInt 1]> ∅)).

Definition sample_source : MMAP_Connection.source :=
  MMAP_Connection.Source true None 0 None 0 None 512 0 false.

(** ** Payloads in flight

    [stored b d]: the bytes of the region [b] that the descriptor [d]
    names, pair after pair. *)
Definition stored (b : list byte) (d : descr) : list byte :=
  concat (map (fun p => slice b (Z.to_nat (fst p)) (Z.to_nat (snd p))) d).

(** The channel together with what went through it: the payloads
    [mmap_write] accepted, in order, and the bytes each [mmap_read] handed
    to the consumer, in order (a view is looked at when it is returned). *)
Record exchange := Exchange {
  chan : channel;
  sent : list (list byte);
  received : list (list byte)
}.

Definition exchange_step (bo : byteorder) (mmap_size : Z) (o : op) (x : exchange)
  : option exchange :=
  let c := chan x in
  match o with
  | DoWrite payload =>
      match mmap_write bo mmap_size payload (Proc (MMap (shared c) (producer_pos c)) []) with
      | (Ret (Some d, _), s) =>
          Some (Exchange
                  (Channel (bytes_of s) (pos (area s)) (consumer_pos c) (live c ++ [d]))
                  (sent x ++ [payload]) (received x))
      | (Ret (None, _), s) =>
          Some (Exchange
                  (Channel (bytes_of s) (pos (area s)) (consumer_pos c) (live c))
                  (sent x) (received x))
      | (Raise _, _) => None
      end
  | DoRead =>
      match live c with
      | [] => Some x
      | d :: rest =>
          match mmap_read bo d (Proc (MMap (shared c) (consumer_pos c)) []) with
          | (Ret r, s) =>
              Some (Exchange
                      (Channel (bytes_of s) (producer_pos c) (pos (area s)) rest)
                      (sent x) (received x ++ [contents (bytes_of s) r]))
          | (Raise _, _) => None
          end
      end
  end.

Fixpoint exchange_run (bo : byteorder) (mmap_size : Z) (ops : list op) (x : exchange)
  : option exchange :=
  match ops with
  | [] => Some x
  | o :: ops' =>
      match exchange_step bo mmap_size o x with
      | Some x' => exchange_run bo mmap_size ops' x'
      | None => None
      end
  end.

(** The cursors as [mmap_write] uses them, and the free space it computes
    from a region. *)
Definition clamped_start (bo : byteorder) (b : list byte) : Z :=
  Z.max 8 (data_start bo b).

Definition clamped_end (bo : byteorder) (b : list byte) : Z :=
  Z.max 8 (data_end bo b).

Definition available_in (bo : byteorder) (mmap_size : Z) (b : list byte) : Z :=
  fst (free_space mmap_size (clamped_start bo b) (clamped_end bo b)).

(** ** The other methods of [MMAP_Connection] *)

Module MMAP_Connection_state.
Import MMAP_Connection.

(** [cleanup]: the new state and whether a mapping was closed. *)
Definition cleanup (self : source) : source * list server_event :=
  if mmap_truthy (mmap self) then
    (Source (supports_mmap self) (mmap_filename self) (min_mmap_size self)
       None 0 (mmap_client_token self) (mmap_client_token_index self)
       (mmap_client_token_bytes self) (mmap_client_namespace self),
     match mmap self with Some a => [Closed a] | None => [] end)
  else (self, []).

(** [if self.mmap_client_token:] is the truth value of an optional
    integer. *)
Definition truthy_int (o : option Z) : bool :=
  match o with Some t => negb (t =? 0) | None => false end.

Definition get_caps (self : source) : gmap string capval :=
  let caps : gmap string capval := {["mmap_enabled" := CBool (0 <? mmap_size self)]} in
  if truthy_int (mmap_client_token self) then
    let attr := mmapattr (mmap_client_namespace self) in
    <[attr "token_bytes" := CInt (mmap_client_token_bytes self)]>
      (<[attr "token_index" := CInt (mmap_client_token_index self)]>
         (<[attr "token" := CInt (default 0 (mmap_client_token self))]> caps))
  else caps.

Definition get_info (self : source) : gmap string (gmap string capval) :=
  {["mmap" :=
      <["supported" := CBool (supports_mmap self)]>
        (<["enabled" := CBool (match mmap self with Some _ => true | None => false end)]>
           (<["size" := CInt (mmap_size self)]>
              {["filename" := CStr (default EmptyString (mmap_filename self))]}))]}.

End MMAP_Connection_state.

(** ** Frames

    Two regions of the same length that hold the same bytes from index [k]
    on, or below index [k]. *)
Definition agree_from (k : nat) (b b' : list byte) : Prop :=
  length b' = length b /\ forall i, (k <= i)%nat -> b' !! i = b !! i.

Definition agree_below (k : nat) (b b' : list byte) : Prop :=
  length b' = length b /\ forall i, (i < k)%nat -> b' !! i = b !! i.

(** Index [i] lies in none of the pairs of [d]. *)
Definition outside (d : descr) (i : nat) : Prop :=
  Forall (fun p => ~ (fst p <= Z.of_nat i < fst p + snd p)) d.

(** What [mmap_area.read(length)] hands back at [offset]: the bytes to the
    end of the region for a negative length, at most [length] bytes
    otherwise. *)
Definition piece (b : list byte) (p : Z * Z) : list byte :=
  if snd p <? 0 then drop (Z.to_nat (fst p)) b
  else slice b (Z.to_nat (fst p)) (Z.to_nat (snd p)).

(** ** What an exchange keeps true

    The layout invariant of the channel; the write cursor stands at the end
    of the newest live pair, or on the read cursor when nothing is live;
    and the payloads sent and not yet received are what the live
    descriptors name in the region, oldest first. *)
Definition exchange_inv (bo : byteorder) (N : Z) (x : exchange) : Prop :=
  ring_inv bo N (chan x) /\
  match last (live_pairs (chan x)) with
  | Some p => clamped_end bo (shared (chan x)) = fst p + snd p
  | None => clamped_start bo (shared (chan x)) = clamped_end bo (shared (chan x))
  end /\
  exists unread,
    sent x = received x ++ unread /\
    Forall2 (fun d p => stored (shared (chan x)) d = p) (live (chan x)) unread.

(** ** A server state that agrees with itself

    [self.mmap] is set exactly when [self.mmap_size] is positive. *)
Definition mmap_consistent (self : MMAP_Connection.source) : Prop :=
  match MMAP_Connection.mmap self with
  | None => MMAP_Connection.mmap_size self = 0
  | Some _ => 0 < MMAP_Connection.mmap_size self
  end.

(** A file system with the single 200-byte file [big], whose first byte
    is 7. *)
Definition big_file : filesystem :=
  fun name => if String.eqb name "big" then Some (File (x07 :: zeros 199)) else None.

(** The capabilities of a client that announces file [big] and token 7,
    one byte wide, at the default index 0. *)
Definition big_caps : typedict :=
  <["mmap_file" := CStr "big"]>
    (<["mmap_token" := CInt 7]> (<["mmap_token_bytes" := CInt 1]> ∅)).

(** The capabilities of a client that announces file [m] with its true
    token 7, and a server state that wants at least 100 bytes. *)
Definition good_caps : typedict :=
  <["mmap_file" := CStr "m"]>
    (<["mmap_token" := CInt 7]> (<["mmap_token_bytes" := CInt 1]> ∅)).

Definition demanding_source : MMAP_Connection.source :=
  MMAP_Connection.Source true None 100 None 0 None 512 0 false.

(** A state with an 8-byte mapping and the recorded token 5. *)
Definition mapped_source : MMAP_Connection.source :=
  MMAP_Connection.Source true None 0 (Some (MMap (zeros 8) 0)) 8 (Some 5) 3 128 false.

(** The exchange after one write and one read on a fresh 16-byte region. *)
Definition drained_exchange : option exchange :=
  exchange_run LittleEndian 16 [DoWrite (sample 5); DoRead]
    (Exchange (Channel (zeros 16) 0 0 []) [] []).

(** * Properties *)

(** ** Bytes and machine words *)

Lemma Z_of_byte_range (b : byte) : 0 <= Z_of_byte b < 256.
Proof.
  unfold Z_of_byte. pose proof (Byte.to_N_bounded b). lia.
Qed.

Lemma Z_of_byte_of_Z (z : Z) : Z_of_byte (byte_of_Z z) = z mod 256.
Proof.
  unfold Z_of_byte, byte_of_Z.
  pose proof (Z.mod_pos_bound z 256 ltac:(lia)) as Hb.
  destruct (Byte.of_N (Z.to_N (z mod 256))) as [b|] eqn:E.
  - apply Byte.to_of_N in E. rewrite E. lia.
  - apply Byte.of_N_None_iff in E. lia.
Qed.

Lemma byte_of_Z_of_byte (b : byte) : byte_of_Z (Z_of_byte b) = b.
Proof.
  unfold byte_of_Z. pose proof (Z_of_byte_range b) as Hb.
  rewrite Z.mod_small by lia. unfold Z_of_byte.
  rewrite N2Z.id, Byte.of_to_N. reflexivity.
Qed.

Lemma le_value_le_bytes (v : Z) : le_value (le_bytes v) = v mod 2 ^ 32.
Proof.
  unfold le_value, le_bytes. simpl.
  rewrite !Z_of_byte_of_Z, !Z.shiftr_div_pow2 by lia.
  change (2 ^ 8) with 256. change (2 ^ 16) with (256 * 256).
  change (2 ^ 24) with (256 * (256 * 256)).
  change (2 ^ 32) with (256 * (256 * (256 * 256))).
  rewrite <- !Z.div_div by lia.
  rewrite !Z.rem_mul_r by lia. lia.
Qed.

Lemma uint32_decode_encode (bo : byteorder) (v : Z) :
  uint32_decode bo (uint32_encode bo v) = v mod 2 ^ 32.
Proof.
  destruct bo; unfold uint32_decode, uint32_encode.
  - apply le_value_le_bytes.
  - rewrite reverse_involutive. apply le_value_le_bytes.
Qed.

Lemma uint32_encode_length (bo : byteorder) (v : Z) :
  length (uint32_encode bo v) = 4%nat.
Proof. destruct bo; reflexivity. Qed.

Lemma le_value_range (l : list byte) :
  0 <= le_value l < 256 ^ Z.of_nat (length l).
Proof.
  induction l as [|b l IH]; simpl; [lia|].
  pose proof (Z_of_byte_range b).
  rewrite Nat2Z.inj_succ, Z.pow_succ_r by lia. lia.
Qed.

Lemma uint32_decode_range (bo : byteorder) (l : list byte) :
  length l = 4%nat -> 0 <= uint32_decode bo l < 2 ^ 32.
Proof.
  intros Hl. destruct bo; unfold uint32_decode.
  - pose proof (le_value_range l) as H. rewrite Hl in H. exact H.
  - pose proof (le_value_range (reverse l)) as H.
    rewrite length_reverse, Hl in H. exact H.
Qed.

(** ** Reading and writing ranges of the mapped bytes *)

Lemma write_at_length (l : list byte) (p : nat) (d : list byte) :
  (p + length d <= length l)%nat -> length (write_at l p d) = length l.
Proof.
  intros H. unfold write_at.
  rewrite !length_app, length_take, length_drop. lia.
Qed.

Lemma write_at_lookup_lt (l : list byte) (p : nat) (d : list byte) (i : nat) :
  (p <= length l)%nat -> (i < p)%nat -> write_at l p d !! i = l !! i.
Proof.
  intros Hp Hi. unfold write_at.
  rewrite lookup_app_l by (rewrite length_take; lia).
  apply lookup_take_lt; lia.
Qed.

Lemma write_at_lookup_in (l : list byte) (p : nat) (d : list byte) (i : nat) :
  (p <= length l)%nat -> (i < length d)%nat -> write_at l p d !! (p + i)%nat = d !! i.
Proof.
  intros Hp Hi. unfold write_at.
  rewrite lookup_app_r by (rewrite length_take; lia).
  rewrite length_take, Nat.min_l by lia.
  replace (p + i - p)%nat with i by lia.
  apply lookup_app_l; lia.
Qed.

Lemma write_at_lookup_ge (l : list byte) (p : nat) (d : list byte) (i : nat) :
  (p <= length l)%nat -> (p + length d <= i)%nat -> write_at l p d !! i = l !! i.
Proof.
  intros Hp Hi. unfold write_at.
  rewrite lookup_app_r by (rewrite length_take; lia).
  rewrite length_take, Nat.min_l by lia.
  rewrite lookup_app_r by lia.
  rewrite lookup_drop. f_equal. lia.
Qed.

Lemma slice_lookup (l : list byte) (p n i : nat) :
  slice l p n !! i = if decide (i < n)%nat then l !! (p + i)%nat else None.
Proof.
  unfold slice. destruct (decide (i < n)%nat).
  - rewrite lookup_take_lt by lia. apply lookup_drop.
  - apply lookup_take_ge; lia.
Qed.

Lemma slice_length (l : list byte) (p n : nat) :
  (p + n <= length l)%nat -> length (slice l p n) = n.
Proof.
  intros H. unfold slice. rewrite length_take, length_drop. lia.
Qed.

Lemma slice_write_at_before (l : list byte) (p : nat) (d : list byte) (q n : nat) :
  (p <= length l)%nat -> (q + n <= p)%nat ->
  slice (write_at l p d) q n = slice l q n.
Proof.
  intros Hp Hq. apply list_eq. intros i. rewrite !slice_lookup.
  destruct (decide (i < n)%nat); [|reflexivity].
  apply write_at_lookup_lt; lia.
Qed.

Lemma slice_write_at_after (l : list byte) (p : nat) (d : list byte) (q n : nat) :
  (p <= length l)%nat -> (p + length d <= q)%nat ->
  slice (write_at l p d) q n = slice l q n.
Proof.
  intros Hp Hq. apply list_eq. intros i. rewrite !slice_lookup.
  destruct (decide (i < n)%nat); [|reflexivity].
  apply write_at_lookup_ge; lia.
Qed.

Lemma slice_write_at_same (l : list byte) (p : nat) (d : list byte) :
  (p <= length l)%nat -> slice (write_at l p d) p (length d) = d.
Proof.
  intros Hp. apply list_eq. intros i. rewrite slice_lookup.
  destruct (decide (i < length d)%nat).
  - apply write_at_lookup_in; lia.
  - symmetry. apply lookup_ge_None. lia.
Qed.

(** ** The capability token *)

Lemma with_bytes_same (s : proc) : with_bytes s (bytes_of s) = s.
Proof. destruct s as [[b p] w]. reflexivity. Qed.

Lemma with_bytes_twice (s : proc) (b1 b2 : list byte) :
  with_bytes (with_bytes s b1) b2 = with_bytes s b2.
Proof. reflexivity. Qed.

Lemma write_at_nil (l : list byte) (p : nat) : write_at l p [] = l.
Proof.
  unfold write_at. simpl. rewrite Nat.add_0_r. apply take_drop.
Qed.

Lemma write_at_cons (l : list byte) (p : nat) (x : byte) (d : list byte) :
  (p + S (length d) <= length l)%nat ->
  write_at (write_at l p [x]) (S p) d = write_at l p (x :: d).
Proof.
  intros H. apply list_eq. intros i.
  assert (Hl1 : length (write_at l p [x]) = length l)
    by (apply write_at_length; simpl; lia).
  destruct (decide (i < p)%nat).
  { rewrite !write_at_lookup_lt by lia. reflexivity. }
  destruct (decide (i = p)) as [->|].
  { rewrite write_at_lookup_lt by lia.
    pose proof (write_at_lookup_in l p [x] 0) as H1.
    pose proof (write_at_lookup_in l p (x :: d) 0) as H2.
    rewrite Nat.add_0_r in H1, H2.
    rewrite H1, H2 by (simpl; lia). reflexivity. }
  destruct (decide (i < S p + length d)%nat).
  { destruct (Nat.le_exists_sub (S p) i) as [j [-> _]]; [lia|].
    rewrite (Nat.add_comm j).
    rewrite write_at_lookup_in by lia.
    replace (S p + j)%nat with (p + S j)%nat by lia.
    rewrite write_at_lookup_in by (simpl; lia). reflexivity. }
  rewrite !write_at_lookup_ge by (simpl; lia). reflexivity.
Qed.

Lemma token_bytes_length (v : Z) (n : nat) : length (token_bytes v n) = n.
Proof. revert v. induction n; intros v; simpl; [reflexivity | by rewrite IHn]. Qed.

Lemma write_loop (index : Z) (n : nat) : forall (k v : Z) (s : proc),
  0 <= index + k -> index + k + Z.of_nat n <= size_of s ->
  for_fold (fun v i =>
      poke <- from_buffer 1 (index + i) ;;
      ubyte_set poke (v mod 256) ;;
      ret (v ≫ 8)) (seqZ k (Z.of_nat n)) v s
  = (Ret (v ≫ (8 * Z.of_nat n)),
     with_bytes s (write_at (bytes_of s) (Z.to_nat (index + k)) (token_bytes v n))).
Proof.
  induction n as [|n IH]; intros k v s Hk Hn.
  - simpl. rewrite write_at_nil, with_bytes_same, Z.shiftr_0_r. reflexivity.
  - rewrite seqZ_cons by lia.
    replace (Z.pred (Z.of_nat (S n))) with (Z.of_nat n) by lia.
    cbn [for_fold]. unfold bind at 1. unfold bind at 1.
    unfold from_buffer at 1.
    replace ((index + k <? 0) || (size_of s <? index + k + 1)) with false
      by (symmetry; apply orb_false_intro; [apply Z.ltb_ge | apply Z.ltb_ge]; lia).
    unfold bind at 1. unfold ubyte_set at 1. unfold ret at 1.
    set (s1 := with_bytes s _).
    assert (Hsz : size_of s1 = size_of s).
    { unfold size_of, s1, with_bytes, bytes_of in *. cbn [buf area] in *.
      rewrite write_at_length; [reflexivity|simpl; lia]. }
    rewrite (IH (Z.succ k) (v ≫ 8) s1) by lia.
    f_equal.
    + f_equal. rewrite Z.shiftr_shiftr by lia. f_equal. lia.
    + unfold s1. rewrite with_bytes_twice. f_equal.
      unfold bytes_of at 1. simpl buf.
      replace (Z.to_nat (index + Z.succ k)) with (S (Z.to_nat (index + k))) by lia.
      cbn [token_bytes].
      apply write_at_cons. rewrite token_bytes_length. unfold size_of in Hn. lia.
Qed.

Lemma le_value_snoc (l : list byte) (x : byte) :
  le_value (l ++ [x]) = le_value l + Z_of_byte x * 256 ^ Z.of_nat (length l).
Proof.
  induction l as [|b l IH]; simpl le_value; simpl length.
  - simpl. lia.
  - unfold le_value in *. simpl foldr. rewrite IH.
    rewrite Nat2Z.inj_succ, Z.pow_succ_r by lia. lia.
Qed.

Lemma read_loop (index count : Z) (n : nat) : forall (k acc : Z) (s : proc),
  0 <= index + count - k - Z.of_nat n ->
  index + count - k <= size_of s ->
  for_fold (fun v i =>
      let v := v ≪ 8 in
      peek <- from_buffer 1 (index + count - 1 - i) ;;
      b <- ubyte_value peek ;;
      ret (v + b)) (seqZ k (Z.of_nat n)) acc s
  = (Ret (acc * 256 ^ Z.of_nat n
          + le_value (slice (bytes_of s) (Z.to_nat (index + count - k - Z.of_nat n)) n)),
     s).
Proof.
  induction n as [|n IH]; intros k acc s Hlo Hhi.
  - rewrite seqZ_nil by lia. cbn [for_fold]. unfold ret, slice.
    rewrite take_0. simpl. f_equal. f_equal. lia.
  - rewrite seqZ_cons by lia.
    replace (Z.pred (Z.of_nat (S n))) with (Z.of_nat n) by lia.
    cbn [for_fold]. unfold bind at 1. cbv zeta. unfold bind at 1.
    unfold from_buffer at 1.
    replace ((index + count - 1 - k <? 0) || (size_of s <? index + count - 1 - k + 1))
      with false
      by (symmetry; apply orb_false_intro; apply Z.ltb_ge; lia).
    unfold bind at 1. unfold ubyte_value at 1. unfold ret at 1.
    rewrite (IH (Z.succ k)) by lia.
    f_equal. f_equal.
    replace (index + count - Z.succ k - Z.of_nat n)
      with (index + count - k - Z.of_nat (S n)) by lia.
    set (p := Z.to_nat (index + count - k - Z.of_nat (S n))).
    replace (Z.to_nat (index + count - 1 - k)) with (p + n)%nat by lia.
    assert (Hlt : (p + n < length (bytes_of s))%nat) by (unfold size_of in Hhi; lia).
    destruct (lookup_lt_is_Some_2 (bytes_of s) (p + n)%nat Hlt) as [x Hx].
    rewrite Hx. simpl default.
    unfold slice. rewrite (take_S_r _ n x) by (rewrite lookup_drop; exact Hx).
    rewrite le_value_snoc, length_take, length_drop, Nat.min_l by lia.
    rewrite Z.shiftl_mul_pow2 by lia.
    rewrite Nat2Z.inj_succ, Z.pow_succ_r by lia.
    change (2 ^ 8) with 256. lia.
Qed.

Lemma le_value_token_bytes (n : nat) : forall v : Z,
  le_value (token_bytes v n) = v mod 256 ^ Z.of_nat n.
Proof.
  induction n as [|n IH]; intros v.
  - simpl. rewrite Z.mod_1_r. reflexivity.
  - cbn [token_bytes]. unfold le_value in *. cbn [foldr]. rewrite IH.
    rewrite Z_of_byte_of_Z, Z.mod_mod by lia.
    rewrite Nat2Z.inj_succ, Z.pow_succ_r by lia.
    rewrite Z.shiftr_div_pow2 by lia. change (2 ^ 8) with 256.
    rewrite Z.rem_mul_r by lia. reflexivity.
Qed.

Lemma token_bytes_lookup (n : nat) : forall (v : Z) (i : nat),
  (i < n)%nat ->
  token_bytes v n !! i = Some (byte_of_Z (v / 256 ^ Z.of_nat i)).
Proof.
  induction n as [|n IH]; intros v i Hi; [lia|].
  cbn [token_bytes]. destruct i as [|i].
  - simpl. rewrite Z.div_1_r. f_equal. unfold byte_of_Z.
    rewrite Z.mod_mod by lia. reflexivity.
  - simpl lookup. rewrite IH by lia. f_equal. f_equal.
    rewrite Z.shiftr_div_pow2 by lia. change (2 ^ 8) with 256.
    rewrite Nat2Z.inj_succ, Z.pow_succ_r by lia.
    rewrite Z.div_div by lia. reflexivity.
Qed.

(** C7: a token [v] that fits in [count] bytes, written at an [index] that
    lies in the region, is stored one byte per address with the least
    significant byte first (byte [i] is digit [i] of [v] in base 256), and
    [read_mmap_token] at the same place returns [v].  Neither function
    takes the byte order of the platform. *)
Theorem C7_token_round_trip (s : proc) (v index count : Z) :
  0 < count -> 0 <= v < 256 ^ count ->
  0 <= index -> index + count <= size_of s ->
  exists s',
    write_mmap_token v index count s = (Ret tt, s') /\
    (forall i, 0 <= i < count ->
       exists b, bytes_of s' !! Z.to_nat (index + i) = Some b /\
                 Z_of_byte b = (v / 256 ^ i) mod 256) /\
    read_mmap_token index count s' = (Ret v, s').
Proof.
  intros Hc Hv Hi Hs.
  set (n := Z.to_nat count).
  assert (Hn : Z.of_nat n = count) by lia.
  set (s' := with_bytes s (write_at (bytes_of s) (Z.to_nat index) (token_bytes v n))).
  assert (Hlen : length (bytes_of s') = length (bytes_of s)).
  { unfold s', with_bytes, bytes_of. cbn [buf area].
    apply write_at_length. rewrite token_bytes_length.
    unfold size_of, bytes_of in Hs. lia. }
  exists s'. split; [|split].
  - unfold write_mmap_token, range, py_assert.
    replace (0 <? count) with true by (symmetry; apply Z.ltb_lt; lia).
    unfold bind at 1. unfold ret at 1. unfold bind at 1.
    rewrite Z.sub_0_r, <- Hn.
    rewrite (write_loop index n 0 v s) by lia.
    rewrite Z.add_0_r. fold s'.
    rewrite Z.shiftr_div_pow2 by lia.
    rewrite Z.pow_mul_r by lia. change (2 ^ 8) with 256.
    rewrite Hn, Z.div_small by lia. reflexivity.
  - intros i Hib.
    exists (byte_of_Z (v / 256 ^ i)). split.
    + unfold s', with_bytes, bytes_of. cbn [buf area].
      replace (Z.to_nat (index + i)) with (Z.to_nat index + Z.to_nat i)%nat by lia.
      rewrite write_at_lookup_in
        by (rewrite ?token_bytes_length; unfold size_of, bytes_of in Hs; lia).
      rewrite token_bytes_lookup by lia. rewrite Z2Nat.id by lia. reflexivity.
    + apply Z_of_byte_of_Z.
  - unfold read_mmap_token, range, py_assert.
    replace (0 <? count) with true by (symmetry; apply Z.ltb_lt; lia).
    unfold bind at 1. unfold ret at 1.
    rewrite Z.sub_0_r, <- Hn.
    pose proof (read_loop index (Z.of_nat n) n 0 0 s') as Hr. cbv zeta in Hr.
    rewrite Hr by (unfold size_of in *; lia).
    f_equal. f_equal.
    replace (index + Z.of_nat n - 0 - Z.of_nat n) with index by lia.
    unfold s', with_bytes, bytes_of. cbn [buf area].
    pose proof (slice_write_at_same (buf (area s)) (Z.to_nat index) (token_bytes v n)) as Hsl.
    rewrite token_bytes_length in Hsl. rewrite Hsl
      by (unfold size_of, bytes_of in Hs; lia).
    rewrite le_value_token_bytes, Hn, Z.mod_small by lia. lia.
Qed.

(** ** Stepping through the modelled calls *)

Lemma from_buffer_ok (sz offset : Z) (s : proc) :
  0 <= offset -> offset + sz <= size_of s ->
  from_buffer sz offset s = (Ret offset, s).
Proof.
  intros H1 H2. unfold from_buffer.
  replace (offset <? 0) with false by (symmetry; apply Z.ltb_ge; lia).
  replace (size_of s <? offset + sz) with false by (symmetry; apply Z.ltb_ge; lia).
  reflexivity.
Qed.

Lemma from_buffer_inv (sz offset : Z) (s : proc) (r : Z) (s' : proc) :
  from_buffer sz offset s = (Ret r, s') ->
  0 <= offset /\ offset + sz <= size_of s /\ r = offset /\ s' = s.
Proof.
  unfold from_buffer.
  destruct (offset <? 0) eqn:E1; [discriminate|].
  destruct (size_of s <? offset + sz) eqn:E2; [discriminate|].
  simpl. intros [= <- <-].
  apply Z.ltb_ge in E1, E2. auto.
Qed.

Lemma seek_ok (p : Z) (s : proc) :
  0 <= p <= size_of s -> seek p s = (Ret tt, with_pos s p).
Proof.
  intros H. unfold seek.
  replace (p <? 0) with false by (symmetry; apply Z.ltb_ge; lia).
  replace (size_of s <? p) with false by (symmetry; apply Z.ltb_ge; lia).
  reflexivity.
Qed.

Lemma seek_inv (p : Z) (s : proc) (u : unit) (s' : proc) :
  seek p s = (Ret u, s') -> 0 <= p <= size_of s /\ s' = with_pos s p.
Proof.
  unfold seek.
  destruct (p <? 0) eqn:E1; [discriminate|].
  destruct (size_of s <? p) eqn:E2; [discriminate|].
  simpl. intros [= <-]. apply Z.ltb_ge in E1, E2. auto with lia.
Qed.

Lemma write_ok (d : list byte) (s : proc) :
  0 <= pos (area s) -> pos (area s) + Z.of_nat (length d) <= size_of s ->
  write d s =
  (Ret tt, Proc (MMap (write_at (bytes_of s) (Z.to_nat (pos (area s))) d)
                      (pos (area s) + Z.of_nat (length d))) (logged s)).
Proof.
  intros H1 H2. unfold write. cbv zeta.
  replace (size_of s <? pos (area s)) with false by (symmetry; apply Z.ltb_ge; lia).
  replace (size_of s - pos (area s) <? Z.of_nat (length d)) with false
    by (symmetry; apply Z.ltb_ge; lia).
  reflexivity.
Qed.

Lemma write_inv (d : list byte) (s : proc) (u : unit) (s' : proc) :
  write d s = (Ret u, s') ->
  pos (area s) + Z.of_nat (length d) <= size_of s /\
  s' = Proc (MMap (write_at (bytes_of s) (Z.to_nat (pos (area s))) d)
                  (pos (area s) + Z.of_nat (length d))) (logged s).
Proof.
  unfold write. cbv zeta.
  destruct (size_of s <? pos (area s)) eqn:E1; [discriminate|].
  destruct (size_of s - pos (area s) <? Z.of_nat (length d)) eqn:E2; [discriminate|].
  simpl. intros [= <-]. apply Z.ltb_ge in E1, E2. auto with lia.
Qed.

Lemma bind_ret {A B} (c : M A) (k : A -> M B) (s s' : proc) (a : A) :
  c s = (Ret a, s') -> bind c k s = k a s'.
Proof. intros H. unfold bind. rewrite H. reflexivity. Qed.

Lemma bind_inv {A B} (c : M A) (k : A -> M B) (s s'' : proc) (b : B) :
  bind c k s = (Ret b, s'') ->
  exists a s', c s = (Ret a, s') /\ k a s' = (Ret b, s'').
Proof.
  unfold bind. destruct (c s) as [[a|e] s']; [eauto | discriminate].
Qed.

Lemma ge_half_spec (available mmap_size : Z) :
  ge_half available mmap_size = (mmap_size <=? 2 * available).
Proof.
  unfold ge_half, Qle_bool, inject_Z. simpl.
  rewrite Z.mul_1_r, (Z.mul_comm 2). reflexivity.
Qed.

(** The cursor words are untouched by writes into the data area, and the
    word at 4 reads back what was stored in it. *)
Lemma data_start_write_at (bo : byteorder) (b : list byte) (p : nat) (d : list byte) :
  (4 <= p <= length b)%nat -> data_start bo (write_at b p d) = data_start bo b.
Proof.
  intros H. unfold data_start. rewrite slice_write_at_before by lia. reflexivity.
Qed.

Lemma data_end_write_at (bo : byteorder) (b : list byte) (p : nat) (d : list byte) :
  (8 <= p <= length b)%nat -> data_end bo (write_at b p d) = data_end bo b.
Proof.
  intros H. unfold data_end. rewrite slice_write_at_before by lia. reflexivity.
Qed.

Lemma data_end_set (bo : byteorder) (b : list byte) (v : Z) :
  (8 <= length b)%nat ->
  data_end bo (write_at b 4 (uint32_encode bo v)) = v mod 2 ^ 32.
Proof.
  intros H. unfold data_end.
  pose proof (slice_write_at_same b 4 (uint32_encode bo v)) as Hs.
  rewrite uint32_encode_length in Hs. rewrite Hs by lia.
  apply uint32_decode_encode.
Qed.

Lemma data_start_set (bo : byteorder) (b : list byte) (v : Z) :
  (4 <= length b)%nat ->
  data_start bo (write_at b 0 (uint32_encode bo v)) = v mod 2 ^ 32.
Proof.
  intros H. unfold data_start.
  pose proof (slice_write_at_same b 0 (uint32_encode bo v)) as Hs.
  rewrite uint32_encode_length in Hs. rewrite Hs by lia.
  apply uint32_decode_encode.
Qed.

Lemma data_end_set_start (bo : byteorder) (b : list byte) (v : Z) :
  (4 <= length b)%nat ->
  data_end bo (write_at b 0 (uint32_encode bo v)) = data_end bo b.
Proof.
  intros H. unfold data_end. rewrite slice_write_at_after; [reflexivity|lia|].
  rewrite uint32_encode_length. lia.
Qed.

Lemma data_start_range (bo : byteorder) (b : list byte) :
  (8 <= length b)%nat -> 0 <= data_start bo b < 2 ^ 32.
Proof.
  intros H. apply uint32_decode_range. apply slice_length. lia.
Qed.

Lemma data_end_range (bo : byteorder) (b : list byte) :
  (8 <= length b)%nat -> 0 <= data_end bo b < 2 ^ 32.
Proof.
  intros H. apply uint32_decode_range. apply slice_length. lia.
Qed.

(** The head of [mmap_write]: both cursor words are read. *)
Ltac write_head bo s :=
  unfold mmap_write, int_from_buffer;
  rewrite (bind_ret _ _ _ _ _ (from_buffer_ok 4 0 s ltac:(lia) ltac:(lia)));
  rewrite (bind_ret _ _ _ _ _ (from_buffer_ok 4 4 s ltac:(lia) ltac:(lia)));
  unfold bind at 1; unfold uint32_value at 1; cbv beta iota;
  unfold bind at 1; unfold uint32_value at 1; cbv beta iota;
  change (Z.to_nat 0) with 0%nat; change (Z.to_nat 4) with 4%nat;
  fold (data_start bo (bytes_of s)); fold (data_end bo (bytes_of s));
  cbv zeta.

(** The two refusals of [mmap_write]: nothing but the log changes. *)
Lemma mmap_write_too_large (bo : byteorder) (mmap_size : Z) (data : list byte) (s : proc) :
  8 <= size_of s ->
  mmap_size - 8 < Z.of_nat (length data) ->
  mmap_write bo mmap_size data s =
  (Ret (None,
        fst (free_space mmap_size (Z.max 8 (data_start bo (bytes_of s)))
                        (Z.max 8 (data_end bo (bytes_of s))))
        - Z.of_nat (length data)),
   Proc (area s) (logged s ++ [AreaTooSmall])).
Proof.
  intros Hs Hl. write_head bo s.
  destruct (free_space _ _ _) as [available chunk].
  replace (mmap_size - 8 <? Z.of_nat (length data)) with true
    by (symmetry; apply Z.ltb_lt; lia).
  reflexivity.
Qed.

Lemma mmap_write_full (bo : byteorder) (mmap_size : Z) (data : list byte) (s : proc) :
  8 <= size_of s ->
  Z.of_nat (length data) <= mmap_size - 8 ->
  fst (free_space mmap_size (Z.max 8 (data_start bo (bytes_of s)))
                  (Z.max 8 (data_end bo (bytes_of s))))
  - Z.of_nat (length data) <= 0 ->
  mmap_write bo mmap_size data s =
  (Ret (None,
        fst (free_space mmap_size (Z.max 8 (data_start bo (bytes_of s)))
                        (Z.max 8 (data_end bo (bytes_of s))))
        - Z.of_nat (length data)),
   Proc (area s) (logged s ++ [AreaFull])).
Proof.
  intros Hs Hl Hf. write_head bo s.
  destruct (free_space _ _ _) as [available chunk]. simpl in Hf.
  replace (mmap_size - 8 <? Z.of_nat (length data)) with false
    by (symmetry; apply Z.ltb_ge; lia).
  replace (available - Z.of_nat (length data) <=? 0) with true
    by (symmetry; apply Z.leb_le; lia).
  reflexivity.
Qed.

Lemma mmap_write_ret_size (bo : byteorder) (mmap_size : Z) (data : list byte)
    (s s' : proc) (r : option descr * Z) :
  mmap_write bo mmap_size data s = (Ret r, s') -> 8 <= size_of s.
Proof.
  unfold mmap_write, int_from_buffer. intros H.
  apply bind_inv in H as (a & s1 & H1 & H).
  apply from_buffer_inv in H1 as (_ & _ & -> & ->).
  apply bind_inv in H as (a & s1 & H1 & H).
  apply from_buffer_inv in H1 as (_ & ? & -> & ->). lia.
Qed.

Ltac step_inv H :=
  let a := fresh "a" in let s1 := fresh "s" in let H1 := fresh "Hstep" in
  apply bind_inv in H as (a & s1 & H1 & H).

(** What a call of [mmap_write] that hands back a descriptor has done. *)
Lemma mmap_write_inv (bo : byteorder) (mmap_size : Z) (data : list byte)
    (s s' : proc) (d : descr) (f : Z) :
  mmap_write bo mmap_size data s = (Ret (Some d, f), s') ->
  let b := bytes_of s in
  let start := Z.max 8 (data_start bo b) in
  let end_ := Z.max 8 (data_end bo b) in
  let l := Z.of_nat (length data) in
  let available := fst (free_space mmap_size start end_) in
  let chunk := snd (free_space mmap_size start end_) in
  8 <= size_of s /\ l <= mmap_size - 8 /\ 0 < available - l /\ f = available - l /\
  logged s' = logged s /\
  ((l < chunk /\ end_ + l <= size_of s /\ d = [(end_, l)] /\
    bytes_of s' = write_at (write_at b (Z.to_nat end_) data) 4 (uint32_encode bo (end_ + l)))
   \/
   (chunk <= l /\
    (mmap_size <= 2 * available /\ l * 3 <= available /\ l < start - 8) /\
    8 + l <= size_of s /\ d = [(8, l)] /\
    bytes_of s' = write_at (write_at b 8 data) 4 (uint32_encode bo (8 + l)))
   \/
   (chunk <= l /\
    ~ (mmap_size <= 2 * available /\ l * 3 <= available /\ l < start - 8) /\
    end_ + Z.of_nat (length (py_slice_to data chunk)) <= size_of s /\
    8 + Z.of_nat (length (py_slice_from data chunk)) <= size_of s /\
    d = [(end_, chunk); (8, l - chunk)] /\
    bytes_of s' =
      write_at (write_at (write_at b (Z.to_nat end_) (py_slice_to data chunk))
                         8 (py_slice_from data chunk))
               4 (uint32_encode bo (8 + (l - chunk))))).
Proof.
  intros H. pose proof (mmap_write_ret_size _ _ _ _ _ _ H) as Hsz.
  revert H. write_head bo s. intros H. cbv zeta.
  destruct (free_space _ _ _) as [available chunk]. cbn [fst snd].
  unfold memoryview_to_bytes in H.
  destruct (mmap_size - 8 <? _) eqn:E1.
  { step_inv H. unfold ret in H. discriminate. }
  destruct (available - _ <=? 0) eqn:E2.
  { step_inv H. unfold ret in H. discriminate. }
  apply Z.ltb_ge in E1. apply Z.leb_gt in E2.
  destruct (Z.of_nat (length data) <? chunk) eqn:E3.
  { apply Z.ltb_lt in E3.
    step_inv H. apply seek_inv in Hstep as (Hp & ->).
    step_inv H. apply write_inv in Hstep as (Hw & ->).
    step_inv H. unfold uint32_set in Hstep. injection Hstep as _ <-.
    unfold ret in H. injection H as <- <- <-.
    unfold size_of, with_pos, with_bytes, bytes_of in *; cbn [area buf pos logged] in *.
    repeat split; try lia. left. repeat split; try lia. }
  apply Z.ltb_ge in E3.
  rewrite ge_half_spec in H.
  destruct ((mmap_size <=? 2 * available) && (_ <=? available) && (_ <? _ - 8)) eqn:E4.
  { apply andb_prop in E4 as [E4 E6]. apply andb_prop in E4 as [E4 E5].
    apply Z.leb_le in E4, E5. apply Z.ltb_lt in E6.
    step_inv H. apply seek_inv in Hstep as (Hp & ->).
    step_inv H. apply write_inv in Hstep as (Hw & ->).
    step_inv H. unfold uint32_set in Hstep. injection Hstep as _ <-.
    unfold ret in H. injection H as <- <- <-.
    unfold size_of, with_pos, with_bytes, bytes_of in *; cbn [area buf pos logged] in *.
    change (Z.to_nat 8) with 8%nat in *.
    repeat split; try lia. right. left. repeat split; try lia. }
  assert (E4' : ~ (mmap_size <= 2 * available /\
                   Z.of_nat (length data) * 3 <= available /\
                   Z.of_nat (length data) < Z.max 8 (data_start bo (bytes_of s)) - 8)).
  { intros (A1 & A2 & A3).
    apply Z.leb_le in A1, A2. apply Z.ltb_lt in A3.
    rewrite A1, A2, A3 in E4. discriminate. }
  step_inv H. apply seek_inv in Hstep as (Hp & ->).
  step_inv H. apply write_inv in Hstep as (Hw & ->).
  step_inv H. apply seek_inv in Hstep as (Hp2 & ->).
  step_inv H. apply write_inv in Hstep as (Hw2 & ->).
  step_inv H. unfold uint32_set in Hstep. injection Hstep as _ <-.
  unfold ret in H. injection H as <- <- <-.
  unfold size_of, with_pos, with_bytes, bytes_of in *; cbn [area buf pos logged] in *.
  change (Z.to_nat 8) with 8%nat in *.
  assert (Hlen1 : length (write_at (buf (area s)) (Z.to_nat (Z.max 8 (data_end bo (buf (area s)))))
                     (py_slice_to data chunk)) = length (buf (area s)))
    by (apply write_at_length; lia).
  rewrite Hlen1 in *.
  repeat split; try lia. right. right. repeat split; try lia.
Qed.

Lemma py_slice_to_length (data : list byte) (k : Z) :
  0 <= k <= Z.of_nat (length data) ->
  Z.of_nat (length (py_slice_to data k)) = k.
Proof.
  intros H. unfold py_slice_to, py_bound.
  replace (k <? 0) with false by (symmetry; apply Z.ltb_ge; lia).
  rewrite length_take. lia.
Qed.

Lemma py_slice_from_length (data : list byte) (k : Z) :
  0 <= k <= Z.of_nat (length data) ->
  Z.of_nat (length (py_slice_from data k)) = Z.of_nat (length data) - k.
Proof.
  intros H. unfold py_slice_from, py_bound.
  replace (k <? 0) with false by (symmetry; apply Z.ltb_ge; lia).
  rewrite length_drop. lia.
Qed.

Lemma py_slice_to_from (data : list byte) (k : Z) :
  py_slice_to data k ++ py_slice_from data k = data.
Proof. apply take_drop. Qed.

Ltac step_ok lem :=
  erewrite bind_ret;
  [| apply lem; unfold size_of, with_pos, bytes_of in *; cbn [area buf pos] in *;
     rewrite ?write_at_length by lia; try lia ].

(** With cursors inside the region, a payload that passes both checks is
    written: none of the calls raises. *)
Lemma mmap_write_succeeds (bo : byteorder) (mmap_size : Z) (data : list byte) (s : proc) :
  let b := bytes_of s in
  let start := Z.max 8 (data_start bo b) in
  let end_ := Z.max 8 (data_end bo b) in
  let l := Z.of_nat (length data) in
  let available := fst (free_space mmap_size start end_) in
  size_of s = mmap_size -> 8 <= mmap_size ->
  data_start bo b <= mmap_size -> data_end bo b <= mmap_size ->
  l <= mmap_size - 8 -> 0 < available - l ->
  exists d s', mmap_write bo mmap_size data s = (Ret (Some d, available - l), s').
Proof.
  cbv zeta. intros Hsz HN Hs He Hl Hf. write_head bo s.
  unfold memoryview_to_bytes.
  revert Hf. unfold free_space.
  set (start := Z.max 8 (data_start bo (bytes_of s))).
  set (end_ := Z.max 8 (data_end bo (bytes_of s))).
  destruct (end_ <? start) eqn:Ewrap; cbv zeta; cbn [fst]; intros Hf.
  - apply Z.ltb_lt in Ewrap.
    replace (mmap_size - 8 <? Z.of_nat (length data)) with false
      by (symmetry; apply Z.ltb_ge; lia).
    replace (start - end_ - Z.of_nat (length data) <=? 0) with false
      by (symmetry; apply Z.leb_gt; lia).
    replace (Z.of_nat (length data) <? start - end_) with true
      by (symmetry; apply Z.ltb_lt; lia).
    step_ok seek_ok. step_ok write_ok.
    unfold bind, uint32_set, ret. eauto.
  - apply Z.ltb_ge in Ewrap.
    replace (mmap_size - 8 <? Z.of_nat (length data)) with false
      by (symmetry; apply Z.ltb_ge; lia).
    replace (mmap_size - end_ + (start - 8) - Z.of_nat (length data) <=? 0) with false
      by (symmetry; apply Z.leb_gt; lia).
    destruct (Z.of_nat (length data) <? mmap_size - end_) eqn:E3.
    { apply Z.ltb_lt in E3.
      step_ok seek_ok. step_ok write_ok.
      unfold bind, uint32_set, ret. eauto. }
    apply Z.ltb_ge in E3.
    destruct (ge_half _ _ && _ && (_ <? start - 8)) eqn:E4.
    { apply andb_prop in E4 as [_ E6]. apply Z.ltb_lt in E6.
      step_ok seek_ok. step_ok write_ok.
      unfold bind, uint32_set, ret. eauto. }
    pose proof (py_slice_to_length data (mmap_size - end_) ltac:(lia)) as L1.
    pose proof (py_slice_from_length data (mmap_size - end_) ltac:(lia)) as L2.
    step_ok seek_ok. step_ok write_ok.
    step_ok seek_ok. step_ok write_ok.
    unfold bind, uint32_set, ret. eauto.
Qed.

(** ** [mmap_write]: accounting, refusals and placement *)

Lemma free_space_spec (N start end_ : Z) :
  free_space N start end_ =
  (spec_available N start end_, spec_first_chunk_capacity N start end_).
Proof.
  unfold free_space, spec_available, spec_first_chunk_capacity.
  destruct (end_ <? start); reflexivity.
Qed.

(** Every call that returns reports [available - len(data)]. *)
Lemma mmap_write_free (bo : byteorder) (mmap_size : Z) (data : list byte)
    (s s' : proc) (r : option descr * Z) :
  mmap_write bo mmap_size data s = (Ret r, s') ->
  snd r = fst (free_space mmap_size (Z.max 8 (data_start bo (bytes_of s)))
                          (Z.max 8 (data_end bo (bytes_of s))))
          - Z.of_nat (length data).
Proof.
  intros H. destruct r as [[d|] f].
  - apply mmap_write_inv in H. cbv zeta in H. simpl. tauto.
  - pose proof (mmap_write_ret_size _ _ _ _ _ _ H) as Hsz.
    destruct (Z_lt_le_dec (mmap_size - 8) (Z.of_nat (length data))) as [Hl|Hl].
    { rewrite mmap_write_too_large in H by assumption. injection H as <- _. reflexivity. }
    set (free := fst (free_space mmap_size (Z.max 8 (data_start bo (bytes_of s)))
                         (Z.max 8 (data_end bo (bytes_of s)))) - Z.of_nat (length data)).
    destruct (Z_le_gt_dec free 0) as [Hf|Hf].
    { rewrite mmap_write_full in H by assumption. injection H as <- _. reflexivity. }
    exfalso. revert H. write_head bo s.
    subst free. destruct (free_space _ _ _) as [available chunk]. cbn [fst] in Hf.
    replace (mmap_size - 8 <? Z.of_nat (length data)) with false
      by (symmetry; apply Z.ltb_ge; lia).
    replace (available - Z.of_nat (length data) <=? 0) with false
      by (symmetry; apply Z.leb_gt; lia).
    destruct (_ <? chunk); [|destruct (_ && _ && _)]; intros H;
      repeat step_inv H; unfold ret in H; discriminate.
Qed.

(** C4: with [start] and [end] the cursors clamped to 8, the accounting of
    [mmap_write] is the one the specification words: in the wrapped state
    [first_chunk_capacity = available = start - end], otherwise
    [first_chunk_capacity = N - end] and
    [available = first_chunk_capacity + (start - 8)]; the free size every
    returning call reports is this [available] less the payload length. *)
Theorem C4_free_space_accounting (bo : byteorder) (N : Z) (data : list byte)
    (s s' : proc) (r : option descr * Z) :
  mmap_write bo N data s = (Ret r, s') ->
  let start := Z.max 8 (data_start bo (bytes_of s)) in
  let end_ := Z.max 8 (data_end bo (bytes_of s)) in
  free_space N start end_ =
    (spec_available N start end_, spec_first_chunk_capacity N start end_) /\
  (end_ < start ->
     spec_first_chunk_capacity N start end_ = start - end_ /\
     spec_available N start end_ = start - end_) /\
  (start <= end_ ->
     spec_first_chunk_capacity N start end_ = N - end_ /\
     spec_available N start end_ = (N - end_) + (start - 8)) /\
  snd r = spec_available N start end_ - Z.of_nat (length data).
Proof.
  intros H. cbv zeta. split; [apply free_space_spec|]. split; [|split].
  - intros Hw. unfold spec_available, spec_first_chunk_capacity.
    replace (_ <? _) with true by (symmetry; apply Z.ltb_lt; lia). auto.
  - intros Hw. unfold spec_available, spec_first_chunk_capacity.
    replace (_ <? _) with false by (symmetry; apply Z.ltb_ge; lia). auto.
  - rewrite (mmap_write_free _ _ _ _ _ _ H), free_space_spec. reflexivity.
Qed.

(** C1 (amended): with [mmap_size] the size of the region and both cursors
    inside it, [mmap_write] hands back a descriptor iff [L <= N - 8] and
    [L < available], strictly; a payload longer than [N - 8] is refused with
    the "too small" warning, one that would leave no free byte
    ([available - L <= 0]) with the "full" warning, and a refusal changes
    nothing in the mapped area: no byte, no cursor, not the seek position. *)
Theorem C1_capacity_bound (bo : byteorder) (N : Z) (data : list byte) (s : proc) :
  let start := Z.max 8 (data_start bo (bytes_of s)) in
  let end_ := Z.max 8 (data_end bo (bytes_of s)) in
  let L := Z.of_nat (length data) in
  let available := spec_available N start end_ in
  size_of s = N -> 8 <= N ->
  data_start bo (bytes_of s) <= N -> data_end bo (bytes_of s) <= N ->
  ((exists d f s', mmap_write bo N data s = (Ret (Some d, f), s')) <->
   (L <= N - 8 /\ L < available)) /\
  (N - 8 < L ->
   mmap_write bo N data s =
   (Ret (None, available - L), Proc (area s) (logged s ++ [AreaTooSmall]))) /\
  (L <= N - 8 -> available - L <= 0 ->
   mmap_write bo N data s =
   (Ret (None, available - L), Proc (area s) (logged s ++ [AreaFull]))).
Proof.
  cbv zeta. intros Hsz HN Hs He.
  pose proof (free_space_spec N (Z.max 8 (data_start bo (bytes_of s)))
                (Z.max 8 (data_end bo (bytes_of s)))) as Hfs.
  split; [split|split].
  - intros (d & f & s' & H). apply mmap_write_inv in H. cbv zeta in H.
    rewrite Hfs in H. cbn [fst] in H. lia.
  - intros [Hl Hf].
    destruct (mmap_write_succeeds bo N data s) as (d & s' & H); try assumption.
    + rewrite Hfs. cbn [fst]. lia.
    + eauto.
  - intros Hl. rewrite mmap_write_too_large by lia. rewrite Hfs. reflexivity.
  - intros Hl Hf. rewrite mmap_write_full; rewrite ?Hfs; cbn [fst]; try lia.
    reflexivity.
Qed.

(** C3: a call of [mmap_write] that hands back a descriptor has placed the
    payload by exactly this decision: below [first_chunk_capacity], at
    [end]; else, with ample slack, at 8; else split at the end of the
    region.  The new [data_end] is the end of the last pair. *)
Theorem C3_placement (bo : byteorder) (N : Z) (data : list byte)
    (s s' : proc) (d : descr) (f : Z) :
  N <= 2 ^ 32 ->
  mmap_write bo N data s = (Ret (Some d, f), s') ->
  let start := Z.max 8 (data_start bo (bytes_of s)) in
  let end_ := Z.max 8 (data_end bo (bytes_of s)) in
  let L := Z.of_nat (length data) in
  let first_chunk_capacity := spec_first_chunk_capacity N start end_ in
  let available := spec_available N start end_ in
  if L <? first_chunk_capacity then
    d = [(end_, L)] /\ data_end bo (bytes_of s') = end_ + L
  else if (N <=? 2 * available) && (3 * L <=? available) && (L <? start - 8) then
    d = [(8, L)] /\ data_end bo (bytes_of s') = 8 + L
  else
    d = [(end_, first_chunk_capacity); (8, L - first_chunk_capacity)] /\
    data_end bo (bytes_of s') = 8 + (L - first_chunk_capacity).
Proof.
  intros HN H. apply mmap_write_inv in H. cbv zeta in H |- *.
  rewrite free_space_spec in H. cbn [fst snd] in H.
  destruct H as (Hsz & Hl & Hf & _ & _ & H).
  pose proof (data_start_range bo (bytes_of s) ltac:(unfold size_of in Hsz; lia)) as Rs.
  pose proof (data_end_range bo (bytes_of s) ltac:(unfold size_of in Hsz; lia)) as Re.
  set (start := Z.max 8 (data_start bo (bytes_of s))) in *.
  set (end_ := Z.max 8 (data_end bo (bytes_of s))) in *.
  assert (Hacc : spec_available N start end_ =
                 if end_ <? start then start - end_
                 else spec_first_chunk_capacity N start end_ + (start - 8))
    by reflexivity.
  assert (Hcap : spec_first_chunk_capacity N start end_ =
                 if end_ <? start then start - end_ else N - end_)
    by reflexivity.
  unfold size_of in *.
  destruct H as [(C & Hw & -> & Hb) | [(C & (A1 & A2 & A3) & Hw & -> & Hb)
                                      | (C & A & Hw1 & Hw2 & -> & Hb)]].
  - replace (_ <? spec_first_chunk_capacity _ _ _) with true
      by (symmetry; apply Z.ltb_lt; lia).
    split; [reflexivity|].
    rewrite Hb, data_end_set by (rewrite write_at_length; lia).
    apply Z.mod_small.
    destruct (end_ <? start) eqn:E; [apply Z.ltb_lt in E | apply Z.ltb_ge in E]; lia.
  - replace (_ <? spec_first_chunk_capacity _ _ _) with false
      by (symmetry; apply Z.ltb_ge; lia).
    replace (N <=? _) with true by (symmetry; apply Z.leb_le; lia).
    replace (3 * _ <=? _) with true by (symmetry; apply Z.leb_le; lia).
    replace (_ <? start - 8) with true by (symmetry; apply Z.ltb_lt; lia).
    split; [reflexivity|].
    rewrite Hb, data_end_set by (rewrite write_at_length; lia).
    apply Z.mod_small. lia.
  - replace (_ <? spec_first_chunk_capacity _ _ _) with false
      by (symmetry; apply Z.ltb_ge; lia).
    replace ((N <=? _) && (3 * _ <=? _) && (_ <? start - 8)) with false.
    2:{ symmetry. apply not_true_is_false. intros E.
        apply andb_prop in E as [E E3]. apply andb_prop in E as [E1 E2].
        apply Z.leb_le in E1, E2. apply Z.ltb_lt in E3. apply A. lia. }
    split; [reflexivity|].
    rewrite Hb, data_end_set
      by (rewrite !write_at_length; rewrite ?write_at_length; lia).
    apply Z.mod_small.
    destruct (end_ <? start) eqn:E; [apply Z.ltb_lt in E | apply Z.ltb_ge in E]; lia.
Qed.

(** ** [mmap_read] *)

Lemma read_ok (n : Z) (s : proc) :
  0 <= pos (area s) -> 0 <= n -> pos (area s) + n <= size_of s ->
  read n s =
  (Ret (slice (bytes_of s) (Z.to_nat (pos (area s))) (Z.to_nat n)),
   with_pos s (pos (area s) + n)).
Proof.
  intros Hp Hn Hs. unfold read. cbv zeta.
  assert (E : (if (n <? 0) ||
                   ((if pos (area s) <? size_of s then size_of s - pos (area s) else 0) <? n)
               then if pos (area s) <? size_of s then size_of s - pos (area s) else 0
               else n) = n).
  { destruct (n <? 0) eqn:E1; [apply Z.ltb_lt in E1; lia|].
    destruct (pos (area s) <? size_of s) eqn:E2;
      [apply Z.ltb_lt in E2 | apply Z.ltb_ge in E2]; simpl.
    - replace (size_of s - pos (area s) <? n) with false
        by (symmetry; apply Z.ltb_ge; lia). reflexivity.
    - replace (0 <? n) with false by (symmetry; apply Z.ltb_ge; lia). reflexivity. }
  rewrite E. reflexivity.
Qed.

Lemma write_at_overwrite (l : list byte) (p : nat) (d1 d2 : list byte) :
  length d1 = length d2 -> (p + length d1 <= length l)%nat ->
  write_at (write_at l p d1) p d2 = write_at l p d2.
Proof.
  intros Hd Hl. apply list_eq. intros i.
  assert (Hl1 : length (write_at l p d1) = length l) by (apply write_at_length; lia).
  destruct (decide (i < p)%nat).
  { rewrite !write_at_lookup_lt by lia. reflexivity. }
  destruct (decide (i < p + length d2)%nat).
  { destruct (Nat.le_exists_sub p i) as [j [-> _]]; [lia|].
    rewrite (Nat.add_comm j). rewrite !write_at_lookup_in by lia. reflexivity. }
  rewrite !write_at_lookup_ge by lia. reflexivity.
Qed.

(** The stores to [data_start] that reading the pairs of a descriptor
    performs, one after the other. *)
Lemma store_each_length (bo : byteorder) (ds : descr) : forall b : list byte,
  (4 <= length b)%nat ->
  length (foldl (fun b p => write_at b 0 (uint32_encode bo (fst p + snd p))) b ds)
  = length b.
Proof.
  induction ds as [|p ds IH]; intros b Hb; [reflexivity|].
  cbn [foldl]. rewrite IH; rewrite write_at_length;
    rewrite ?uint32_encode_length; lia.
Qed.

Lemma store_each_last (bo : byteorder) (ds : descr) : forall (b : list byte) (p : Z * Z),
  (4 <= length b)%nat -> last ds = Some p ->
  foldl (fun b p => write_at b 0 (uint32_encode bo (fst p + snd p))) b ds
  = write_at b 0 (uint32_encode bo (fst p + snd p)).
Proof.
  induction ds as [|q ds IH]; intros b p Hb Hlast; [discriminate|].
  cbn [foldl]. destruct ds as [|q' ds'].
  - injection Hlast as ->. reflexivity.
  - rewrite (IH _ p).
    + apply write_at_overwrite; rewrite !uint32_encode_length; lia.
    + rewrite write_at_length; rewrite ?uint32_encode_length; lia.
    + exact Hlast.
Qed.

Lemma proc_eta (s : proc) : Proc (MMap (bytes_of s) (pos (area s))) (logged s) = s.
Proof. destruct s as [[b p] w]. reflexivity. Qed.

Lemma read_pairs (bo : byteorder) (ds : descr) : forall (acc : list (list byte)) (c : proc),
  4 <= size_of c ->
  Forall (fun p => 4 <= fst p /\ 0 <= snd p /\ fst p + snd p <= size_of c) ds ->
  for_fold (fun data '(offset, length) =>
      seek offset ;;
      piece <- read length ;;
      uint32_set bo 0 (offset + length) ;;
      ret (data ++ [piece])) ds acc c
  = (Ret (acc ++ map (fun p => slice (bytes_of c) (Z.to_nat (fst p)) (Z.to_nat (snd p))) ds),
     Proc (MMap (foldl (fun b p => write_at b 0 (uint32_encode bo (fst p + snd p)))
                       (bytes_of c) ds)
                (foldl (fun _ p => fst p + snd p) (pos (area c)) ds))
          (logged c)).
Proof.
  induction ds as [|[o l] ds IH]; intros acc c Hc Hds.
  - cbn [for_fold map foldl]. rewrite app_nil_r, proc_eta. reflexivity.
  - apply Forall_cons_1 in Hds as [(Ho & Hl & Hol) Hds]. cbn [fst snd] in *.
    cbn [for_fold]. cbv beta iota. unfold bind at 1.
    rewrite (bind_ret _ _ _ _ _ (seek_ok o c ltac:(lia))).
    rewrite (bind_ret _ _ _ _ _ (read_ok l (with_pos c o) ltac:(simpl; lia) Hl
                                   ltac:(unfold size_of, with_pos, bytes_of in *; simpl in *; lia))).
    unfold bind at 1. unfold uint32_set at 1. cbv beta iota. unfold ret at 1.
    change (Z.to_nat 0) with 0%nat.
    set (c1 := with_bytes _ _).
    assert (Hb1 : bytes_of c1 = write_at (bytes_of c) 0 (uint32_encode bo (o + l)))
      by reflexivity.
    assert (Hsz : size_of c1 = size_of c).
    { unfold size_of. rewrite Hb1, write_at_length; [reflexivity|].
      rewrite uint32_encode_length. unfold size_of in Hc. lia. }
    rewrite IH; [| lia | rewrite Hsz; exact Hds].
    f_equal.
    rewrite <- app_assoc. cbn [map app fst snd].
    apply (f_equal Ret), (f_equal (app acc)), (f_equal2 cons); [reflexivity|].
    apply map_ext_in. intros [o' l'] Hin.
    apply (proj1 (List.Forall_forall _ _) Hds) in Hin. cbn [fst snd] in *.
    rewrite Hb1. apply slice_write_at_after; [lia|].
    rewrite uint32_encode_length. lia.
Qed.

Lemma mmap_read_one (bo : byteorder) (o l : Z) (c : proc) :
  4 <= size_of c -> 0 <= o -> 0 <= l -> o + l <= size_of c ->
  mmap_read bo [(o, l)] c =
  (Ret (View o l), with_bytes c (write_at (bytes_of c) 0 (uint32_encode bo (o + l)))).
Proof.
  intros Hc Ho Hl Hol. unfold mmap_read, int_from_buffer.
  rewrite (bind_ret _ _ _ _ _ (from_buffer_ok 4 0 c ltac:(lia) ltac:(lia))).
  unfold c_char_array.
  replace (l <? 0) with false by (symmetry; apply Z.ltb_ge; lia).
  unfold bind at 1. unfold ret at 1. cbv beta iota.
  unfold bind at 1. unfold uint32_set at 1. cbv beta iota.
  change (Z.to_nat 0) with 0%nat.
  set (c1 := with_bytes _ _).
  assert (Hsz : size_of c1 = size_of c).
  { unfold size_of, c1, with_bytes, bytes_of. cbn [area buf].
    rewrite write_at_length; [reflexivity|].
    rewrite uint32_encode_length. unfold size_of, bytes_of in Hc. lia. }
  rewrite (bind_ret _ _ _ _ _ (from_buffer_ok l o c1 ltac:(lia) ltac:(lia))).
  reflexivity.
Qed.

Lemma mmap_read_many (bo : byteorder) (ds : descr) (c : proc) :
  length ds <> 1%nat -> 4 <= size_of c ->
  Forall (fun p => 4 <= fst p /\ 0 <= snd p /\ fst p + snd p <= size_of c) ds ->
  mmap_read bo ds c =
  (Ret (Copy (concat (map (fun p => slice (bytes_of c) (Z.to_nat (fst p)) (Z.to_nat (snd p))) ds))),
   Proc (MMap (foldl (fun b p => write_at b 0 (uint32_encode bo (fst p + snd p)))
                     (bytes_of c) ds)
              (foldl (fun _ p => fst p + snd p) (pos (area c)) ds))
        (logged c)).
Proof.
  intros Hn Hc Hds. unfold mmap_read, int_from_buffer.
  rewrite (bind_ret _ _ _ _ _ (from_buffer_ok 4 0 c ltac:(lia) ltac:(lia))).
  pose proof (read_pairs bo ds [] c Hc Hds) as Hr.
  destruct ds as [|[o l] [|q ds']]; [| simpl in Hn; lia |];
    (unfold bind at 1; rewrite Hr; reflexivity).
Qed.

Lemma in_data_area_weaken (N : Z) (ds : descr) :
  Forall (in_data_area N) ds ->
  Forall (fun p => 4 <= fst p /\ 0 <= snd p /\ fst p + snd p <= N) ds.
Proof.
  intros H. eapply Forall_impl; [exact H|].
  intros p (H1 & H2 & H3). lia.
Qed.

(** C10: [mmap_read] itself moves [data_start].  For a one-pair descriptor
    the store of [offset + length] precedes the return of the view, whose
    bytes are those of the region; for a two-pair descriptor the end of the
    first pair is stored, then the end of the second, and the pieces are
    returned joined.  No other function of the module stores to the word at
    offset 0. *)
Theorem C10_read_advances_data_start (bo : byteorder) (c : proc) (o1 l1 o2 l2 : Z) :
  in_data_area (size_of c) (o1, l1) -> in_data_area (size_of c) (o2, l2) ->
  o1 + l1 < 2 ^ 32 -> o2 + l2 < 2 ^ 32 ->
  (exists c',
     mmap_read bo [(o1, l1)] c = (Ret (View o1 l1), c') /\
     bytes_of c' = write_at (bytes_of c) 0 (uint32_encode bo (o1 + l1)) /\
     data_start bo (bytes_of c') = o1 + l1 /\
     contents (bytes_of c') (View o1 l1)
       = slice (bytes_of c) (Z.to_nat o1) (Z.to_nat l1)) /\
  (exists c',
     mmap_read bo [(o1, l1); (o2, l2)] c =
       (Ret (Copy (slice (bytes_of c) (Z.to_nat o1) (Z.to_nat l1) ++
                   slice (bytes_of c) (Z.to_nat o2) (Z.to_nat l2))), c') /\
     bytes_of c' = write_at (write_at (bytes_of c) 0 (uint32_encode bo (o1 + l1)))
                            0 (uint32_encode bo (o2 + l2)) /\
     data_start bo (bytes_of c') = o2 + l2).
Proof.
  intros (A1 & A2 & A3) (B1 & B2 & B3) W1 W2. cbn [fst snd] in *.
  assert (Hlen : (8 <= length (bytes_of c))%nat) by (unfold size_of in *; lia).
  split.
  - eexists. split; [apply mmap_read_one; lia|].
    unfold with_bytes, bytes_of in *. cbn [buf area contents].
    split; [reflexivity|]. split.
    + rewrite data_start_set by lia. apply Z.mod_small. lia.
    + apply slice_write_at_after; [lia|]. rewrite uint32_encode_length. lia.
  - eexists. split.
    + rewrite mmap_read_many; [|simpl; lia|lia|].
      * cbn [map concat fst snd foldl]. rewrite app_nil_r. reflexivity.
      * repeat constructor; cbn [fst snd]; lia.
    + unfold bytes_of in *. cbn [buf area]. split; [reflexivity|].
      rewrite data_start_set.
      * apply Z.mod_small. lia.
      * rewrite write_at_length; rewrite ?uint32_encode_length; lia.
Qed.

(** C6 (amended): reading a descriptor stores the end of its last pair in
    [data_start] whatever the cursor held before, so handing in an older
    descriptor moves the cursor back to that descriptor's end; reading the
    same descriptor again straight away changes no byte of the region. *)
Theorem C6_release_sets_data_start (bo : byteorder) (c : proc) (d : descr) (o l : Z) :
  Forall (in_data_area (size_of c)) d -> last d = Some (o, l) ->
  exists r c',
    mmap_read bo d c = (Ret r, c') /\
    data_start bo (bytes_of c') = (o + l) mod 2 ^ 32 /\
    exists r' c'',
      mmap_read bo d c' = (Ret r', c'') /\ bytes_of c'' = bytes_of c'.
Proof.
  intros Hd Hlast.
  assert (Hin : in_data_area (size_of c) (o, l)).
  { apply (proj1 (List.Forall_forall _ _) Hd).
    apply list_elem_of_In, last_Some_elem_of. exact Hlast. }
  destruct Hin as (I1 & I2 & I3). cbn [fst snd] in *.
  assert (Hlen : (8 <= length (bytes_of c))%nat) by (unfold size_of in *; lia).
  pose proof (uint32_encode_length bo (o + l)) as He.
  destruct (decide (length d = 1%nat)) as [H1|H1].
  - destruct d as [|p [|q d']]; try discriminate. injection Hlast as ->.
    eexists _, _. split; [apply mmap_read_one; lia|].
    assert (Hsz : size_of (with_bytes c (write_at (bytes_of c) 0 (uint32_encode bo (o + l))))
                  = size_of c).
    { unfold size_of, with_bytes, bytes_of. cbn [buf area].
      rewrite write_at_length; unfold bytes_of in *; lia. }
    split.
    + unfold with_bytes, bytes_of in *. cbn [buf area]. apply data_start_set. lia.
    + eexists _, _. split; [apply mmap_read_one; lia|].
      unfold with_bytes, bytes_of in *. cbn [buf area].
      apply write_at_overwrite; lia.
  - pose proof (in_data_area_weaken _ _ Hd) as Hd'.
    eexists _, _. split; [apply mmap_read_many; [exact H1|lia|exact Hd']|].
    set (b' := foldl _ (bytes_of c) d).
    assert (Hb' : b' = write_at (bytes_of c) 0 (uint32_encode bo (o + l))).
    { unfold b'. rewrite (store_each_last bo d _ (o, l)); [reflexivity|lia|exact Hlast]. }
    assert (Hlen' : length b' = length (bytes_of c))
      by (rewrite Hb'; apply write_at_length; lia).
    unfold bytes_of at 1. cbn [buf area]. split.
    + rewrite Hb'. apply data_start_set. lia.
    + eexists _, _. split.
      * apply mmap_read_many; [exact H1| |]; unfold size_of, bytes_of in *;
          cbn [buf area]; rewrite ?Hlen'; [lia | exact Hd'].
      * unfold bytes_of. cbn [buf area].
        rewrite (store_each_last bo d _ (o, l)); [|lia|exact Hlast].
        rewrite Hb'. apply write_at_overwrite; lia.
Qed.

(** ** Round trip through the ring *)

(** C2: the descriptor of a successful write, read back by the consumer
    from the same mapped bytes, denotes the payload byte for byte: through
    the view when the payload was stored in one piece, through the joined
    copy when it was split at the end of the region. *)
Theorem C2_round_trip (bo : byteorder) (N : Z) (p : list byte)
    (s s' c : proc) (d : descr) (f : Z) :
  size_of s = N ->
  mmap_write bo N p s = (Ret (Some d, f), s') ->
  bytes_of c = bytes_of s' ->
  exists r c',
    mmap_read bo d c = (Ret r, c') /\
    contents (bytes_of c') r = p /\
    ((exists o l, d = [(o, l)] /\ r = View o l) \/
     (exists o1 l1 o2 l2, d = [(o1, l1); (o2, l2)] /\ r = Copy p)).
Proof.
  intros HN H Hc. apply mmap_write_inv in H. cbv zeta in H.
  destruct H as (Hsz & Hl & Hf & _ & _ & H).
  assert (Hlen : (8 <= length (bytes_of s))%nat) by (unfold size_of in *; lia).
  revert Hf H. unfold free_space.
  set (start := Z.max 8 (data_start bo (bytes_of s))).
  set (end_ := Z.max 8 (data_end bo (bytes_of s))).
  set (L := Z.of_nat (length p)).
  assert (Hend : 8 <= end_) by lia.
  intros Hf H.
  assert (Hone : forall o b1, 8 <= o -> o + L <= size_of s ->
            bytes_of s' = write_at (write_at (bytes_of s) (Z.to_nat o) p) 4 b1 ->
            length b1 = 4%nat ->
            exists r c', mmap_read bo [(o, L)] c = (Ret r, c') /\
              contents (bytes_of c') r = p /\
              ((exists o' l', [(o, L)] = [(o', l')] /\ r = View o' l') \/
               (exists o1 l1 o2 l2, [(o, L)] = [(o1, l1); (o2, l2)] /\ r = Copy p))).
  { intros o b1 Ho Hol Hb Hb1.
    assert (Hl1 : length (write_at (bytes_of s) (Z.to_nat o) p) = length (bytes_of s))
      by (apply write_at_length; unfold size_of, L in *; lia).
    assert (Hl2 : length (bytes_of c) = length (bytes_of s))
      by (rewrite Hc, Hb, write_at_length; lia).
    eexists _, _. split; [apply mmap_read_one; unfold size_of in *; lia|].
    split; [|left; eauto].
    unfold with_bytes at 1. unfold bytes_of at 1. cbn [buf area contents].
    rewrite slice_write_at_after by (rewrite ?uint32_encode_length; lia).
    rewrite Hc, Hb.
    rewrite slice_write_at_after by lia.
    unfold L. rewrite Nat2Z.id.
    apply slice_write_at_same. unfold size_of in *. lia. }
  destruct H as [(C & Hw & -> & Hb) | [(C & _ & Hw & -> & Hb) | (C & _ & Hw1 & Hw2 & -> & Hb)]].
  - apply (Hone end_ _ Hend Hw Hb), uint32_encode_length.
  - apply (Hone 8 _ ltac:(lia) Hw Hb), uint32_encode_length.
  - clear Hone.
    destruct (end_ <? start) eqn:Ewrap; cbn [fst snd] in *;
      [apply Z.ltb_lt in Ewrap; lia | apply Z.ltb_ge in Ewrap].
    set (chunk := N - end_) in *.
    assert (Hchunk : 0 <= chunk).
    { pose proof (Nat2Z.is_nonneg (length (py_slice_to p chunk))). unfold chunk. lia. }
    pose proof (py_slice_to_length p chunk ltac:(unfold L in *; lia)) as L1.
    pose proof (py_slice_from_length p chunk ltac:(unfold L in *; lia)) as L2.
    set (D1 := py_slice_to p chunk) in *. set (D2 := py_slice_from p chunk) in *.
    assert (Hl1 : length (write_at (bytes_of s) (Z.to_nat end_) D1) = length (bytes_of s))
      by (apply write_at_length; unfold size_of in *; lia).
    assert (Hl2 : length (write_at (write_at (bytes_of s) (Z.to_nat end_) D1) 8 D2)
                  = length (bytes_of s))
      by (rewrite write_at_length; unfold size_of in *; lia).
    assert (Hl3 : length (bytes_of c) = length (bytes_of s))
      by (rewrite Hc, Hb, write_at_length; rewrite ?uint32_encode_length; lia).
    eexists _, _. split.
    { apply mmap_read_many; [simpl; lia | unfold size_of; lia |].
      unfold size_of in *. repeat constructor; cbn [fst snd]; unfold L in *; lia. }
    cbn [map concat fst snd contents]. rewrite app_nil_r.
    assert (Hp : slice (bytes_of c) (Z.to_nat end_) (Z.to_nat chunk) ++
                 slice (bytes_of c) (Z.to_nat 8) (Z.to_nat (L - chunk)) = p).
    { rewrite Hc, Hb.
      rewrite !slice_write_at_after
        by (rewrite ?uint32_encode_length; unfold L in *; lia).
      replace (Z.to_nat chunk) with (length D1) by lia.
      rewrite slice_write_at_same by (unfold size_of in *; lia).
      replace (Z.to_nat (L - chunk)) with (length D2) by (unfold L; lia).
      change (Z.to_nat 8) with 8%nat.
      rewrite (slice_write_at_after _ 4) by (rewrite ?uint32_encode_length; lia).
      rewrite slice_write_at_same by lia.
      apply py_slice_to_from. }
    split; [exact Hp|]. right. rewrite Hp. eauto 10.
Qed.

(** ** The layout invariant of the channel *)

Lemma chain_app (ps qs : list (Z * Z)) : forall c e,
  chain c (ps ++ qs) e <-> exists m, chain c ps m /\ chain m qs e.
Proof.
  induction ps as [|p ps IH]; intros c e; cbn [app chain].
  - split; [eauto | intros (m & -> & H); exact H].
  - rewrite IH. split.
    + intros (H1 & H2 & m & H3 & H4). eauto 6.
    + intros (m & (H1 & H2 & H3) & H4). eauto 6.
Qed.

Lemma chain_le (ps : list (Z * Z)) : forall c e, chain c ps e -> c <= e.
Proof.
  induction ps as [|p ps IH]; intros c e; cbn [chain].
  - lia.
  - intros (H1 & H2 & H3). apply IH in H3. lia.
Qed.

Lemma chain_last (ps : list (Z * Z)) : forall c e p,
  chain c ps e -> last ps = Some p -> fst p + snd p = e.
Proof.
  induction ps as [|q ps IH]; intros c e p Hc Hl; [discriminate|].
  destruct Hc as (H1 & H2 & H3). destruct ps as [|q' ps'].
  - injection Hl as <-. exact H3.
  - eapply IH; [exact H3 | exact Hl].
Qed.

Lemma chain_bounds (ps : list (Z * Z)) : forall c e,
  chain c ps e ->
  Forall (fun p => c <= fst p /\ 0 <= snd p /\ fst p + snd p <= e) ps.
Proof.
  induction ps as [|p ps IH]; intros c e Hc; constructor.
  - destruct Hc as (H1 & H2 & H3). apply chain_le in H3. lia.
  - destruct Hc as (H1 & H2 & H3). apply IH in H3.
    eapply Forall_impl; [exact H3|]. intros q. cbv beta. lia.
Qed.

Lemma chain_sorted (ps : list (Z * Z)) : forall c e i j p q,
  chain c ps e -> (i < j)%nat -> ps !! i = Some p -> ps !! j = Some q ->
  fst p + snd p <= fst q.
Proof.
  induction ps as [|x ps IH]; intros c e i j p q Hc Hij Hi Hj; [discriminate|].
  destruct Hc as (H1 & H2 & H3).
  destruct j as [|j]; [lia|]. cbn in Hj.
  destruct i as [|i]; cbn in Hi.
  - injection Hi as <-. apply chain_bounds in H3.
    apply list_elem_of_lookup_2, list_elem_of_In in Hj.
    apply (proj1 (List.Forall_forall _ _) H3) in Hj. lia.
  - eapply IH; [exact H3 | | exact Hi | exact Hj]. lia.
Qed.

Lemma layout_no_overlap (N start end_ : Z) (ps : list (Z * Z)) :
  8 <= start <= N -> end_ <= N -> layout N start end_ ps -> no_overlap N ps.
Proof.
  intros Hs He [[Hle Hc] | (Hlt & U & L & top & -> & HU & Htop & HL)].
  - split.
    + apply chain_bounds in Hc. eapply Forall_impl; [exact Hc|].
      intros p. unfold in_data_area. lia.
    + intros i j p q Hij Hi Hj. left.
      eapply (chain_sorted ps start end_ i j); eauto.
  - pose proof (chain_bounds _ _ _ HU) as BU.
    pose proof (chain_bounds _ _ _ HL) as BL.
    split.
    + apply Forall_app. split.
      * eapply Forall_impl; [exact BU|]. intros p. unfold in_data_area. lia.
      * eapply Forall_impl; [exact BL|]. intros p. unfold in_data_area. lia.
    + intros i j p q Hij Hi Hj.
      apply lookup_app_Some in Hi as [Hi | [Hi1 Hi2]];
        apply lookup_app_Some in Hj as [Hj | [Hj1 Hj2]].
      * left. eapply (chain_sorted U start top i j); eauto.
      * right.
        apply list_elem_of_lookup_2, list_elem_of_In in Hi, Hj2.
        apply (proj1 (List.Forall_forall _ _) BU) in Hi.
        apply (proj1 (List.Forall_forall _ _) BL) in Hj2. lia.
      * apply lookup_lt_Some in Hj. lia.
      * left. eapply (chain_sorted L 8 end_ (i - length U) (j - length U)); eauto. lia.
Qed.

Lemma ring_inv_no_overlap (bo : byteorder) (N : Z) (c : channel) :
  8 <= N -> ring_inv bo N c -> no_overlap N (live_pairs c).
Proof.
  intros HN (_ & Hs & He & _ & Hlay).
  eapply layout_no_overlap; [| |exact Hlay]; lia.
Qed.

Lemma cursors_after_write (bo : byteorder) (b X : list byte) (v : Z) :
  (8 <= length b)%nat -> length X = length b ->
  data_start bo X = data_start bo b -> 0 <= v < 2 ^ 32 ->
  length (write_at X 4 (uint32_encode bo v)) = length b /\
  data_start bo (write_at X 4 (uint32_encode bo v)) = data_start bo b /\
  data_end bo (write_at X 4 (uint32_encode bo v)) = v.
Proof.
  intros Hb HX Hs Hv. split; [|split].
  - rewrite write_at_length; rewrite ?uint32_encode_length; lia.
  - rewrite data_start_write_at by lia. exact Hs.
  - rewrite data_end_set by lia. apply Z.mod_small. lia.
Qed.

Lemma payload_written (bo : byteorder) (b : list byte) (p : nat) (d : list byte) :
  (8 <= p)%nat -> (p + length d <= length b)%nat ->
  length (write_at b p d) = length b /\
  data_start bo (write_at b p d) = data_start bo b.
Proof.
  intros Hp Hl. split.
  - apply write_at_length. lia.
  - apply data_start_write_at. lia.
Qed.

Lemma live_pairs_snoc (b : list byte) (pp cp : Z) (q : list descr) (d : descr) :
  live_pairs (Channel b pp cp (q ++ [d])) = concat q ++ d.
Proof.
  unfold live_pairs. cbn [live]. rewrite concat_app. cbn [concat].
  rewrite app_nil_r. reflexivity.
Qed.

Lemma step_write_preserves (bo : byteorder) (N : Z) (payload : list byte) (c : channel) :
  8 <= N <= 2 ^ 32 -> ring_inv bo N c ->
  exists c', step bo N (DoWrite payload) c = Some c' /\ ring_inv bo N c'.
Proof.
  intros HN Hinv. pose proof Hinv as (Hlen & Hs & He & Hlast & Hlay).
  unfold step.
  set (s := Proc (MMap (shared c) (producer_pos c)) []).
  assert (Hsz : size_of s = N) by exact Hlen.
  assert (Hbs : bytes_of s = shared c) by reflexivity.
  destruct (Z_lt_le_dec (N - 8) (Z.of_nat (length payload))) as [Hl|Hl].
  { rewrite mmap_write_too_large by lia. eexists. split; [reflexivity|].
    destruct c; exact Hinv. }
  set (free := fst (free_space N (Z.max 8 (data_start bo (bytes_of s)))
                       (Z.max 8 (data_end bo (bytes_of s)))) - Z.of_nat (length payload)).
  destruct (Z_le_gt_dec free 0) as [Hf|Hf].
  { rewrite mmap_write_full by (fold free; lia). eexists. split; [reflexivity|].
    destruct c; exact Hinv. }
  destruct (mmap_write_succeeds bo N payload s) as (d & s' & H);
    try assumption; try lia.
  rewrite H. eexists. split; [reflexivity|].
  apply mmap_write_inv in H. cbv zeta in H. rewrite Hbs in H.
  destruct H as (_ & _ & Hfree & _ & _ & H).
  unfold live_pairs in Hlay.
  pose proof (data_start_range bo (shared c) ltac:(lia)) as Rs.
  pose proof (data_end_range bo (shared c) ltac:(lia)) as Re.
  revert Hfree H Hlay. unfold free_space. rewrite Hsz.
  set (b := shared c) in *.
  set (start := Z.max 8 (data_start bo b)).
  set (end_ := Z.max 8 (data_end bo b)).
  set (L := Z.of_nat (length payload)) in *.
  intros Hfree H Hlay.
  unfold ring_inv. rewrite live_pairs_snoc. cbn [shared live].
  destruct Hlay as [[Hle Hc] | (Hlt & U & Lo & top & HUL & HU & Htop & HLo)].
  - (* the live data runs from start to end *)
    replace (end_ <? start) with false in * by (symmetry; apply Z.ltb_ge; lia).
    cbn [fst snd] in *.
    destruct H as [(C & Hw & -> & Hb) | [(C & (A1 & A2 & A3) & Hw & -> & Hb)
                                        | (C & A & Hw1 & Hw2 & -> & Hb)]].
    + destruct (payload_written bo b (Z.to_nat end_) payload) as (X1 & X2); [lia|lia|].
      destruct (cursors_after_write bo b _ (end_ + L) ltac:(lia) X1 X2 ltac:(lia))
        as (Y1 & Y2 & Y3).
      rewrite Hb, Y1, Y2, Y3. fold start.
      replace (Z.max 8 (end_ + L)) with (end_ + L) by lia.
      repeat split; try lia.
      * apply Forall_app. split; [exact Hlast|].
        repeat constructor. exists (end_, L). cbn. split; [reflexivity|lia].
      * left. split; [lia|]. apply chain_app. exists end_.
        split; [exact Hc|]. cbn. lia.
    + destruct (payload_written bo b 8 payload) as (X1 & X2); [lia|lia|].
      destruct (cursors_after_write bo b _ (8 + L) ltac:(lia) X1 X2 ltac:(lia))
        as (Y1 & Y2 & Y3).
      rewrite Hb, Y1, Y2, Y3. fold start.
      replace (Z.max 8 (8 + L)) with (8 + L) by lia.
      repeat split; try lia.
      * apply Forall_app. split; [exact Hlast|].
        repeat constructor. exists (8, L). cbn. split; [reflexivity|lia].
      * right. split; [lia|]. exists (concat (live c)), [(8, L)], end_.
        repeat split; try assumption; cbn; lia.
    + set (chunk := N - end_) in *.
      pose proof (py_slice_to_length payload chunk ltac:(unfold chunk, L in *; lia)) as L1.
      pose proof (py_slice_from_length payload chunk ltac:(unfold chunk, L in *; lia)) as L2.
      destruct (payload_written bo b (Z.to_nat end_) (py_slice_to payload chunk))
        as (X1 & X2); [lia|lia|].
      destruct (payload_written bo (write_at b (Z.to_nat end_) (py_slice_to payload chunk))
                  8 (py_slice_from payload chunk)) as (X3 & X4); [lia|lia|].
      rewrite X1 in X3. rewrite X2 in X4.
      destruct (cursors_after_write bo b _ (8 + (L - chunk)) ltac:(lia) X3 X4
                  ltac:(unfold L in *; lia)) as (Y1 & Y2 & Y3).
      rewrite Hb, Y1, Y2, Y3. fold start.
      replace (Z.max 8 (8 + (L - chunk))) with (8 + (L - chunk)) by lia.
      repeat split; try (unfold L in *; lia).
      * apply Forall_app. split; [exact Hlast|].
        repeat constructor. exists (8, L - chunk). cbn.
        split; [reflexivity | unfold L in *; lia].
      * right. split; [unfold L in *; lia|].
        exists (concat (live c) ++ [(end_, chunk)]), [(8, L - chunk)], N.
        repeat split; try lia.
        -- rewrite <- app_assoc. reflexivity.
        -- apply chain_app. exists end_. split; [exact Hc|]. cbn. unfold chunk. lia.
        -- cbn. unfold L in *. lia.
  - (* the producer has wrapped: only the gap below start is free *)
    replace (end_ <? start) with true in * by (symmetry; apply Z.ltb_lt; lia).
    cbn [fst snd] in *.
    destruct H as [(C & Hw & -> & Hb) | [(C & _) | (C & _)]]; try lia.
    destruct (payload_written bo b (Z.to_nat end_) payload) as (X1 & X2); [lia|lia|].
    destruct (cursors_after_write bo b _ (end_ + L) ltac:(lia) X1 X2 ltac:(lia))
      as (Y1 & Y2 & Y3).
    rewrite Hb, Y1, Y2, Y3. fold start.
    replace (Z.max 8 (end_ + L)) with (end_ + L) by lia.
    repeat split; try lia.
    + apply Forall_app. split; [exact Hlast|].
      repeat constructor. exists (end_, L). cbn. split; [reflexivity|lia].
    + right. split; [lia|]. exists U, (Lo ++ [(end_, L)]), top.
      repeat split; try assumption.
      * rewrite HUL, <- app_assoc. reflexivity.
      * apply chain_app. exists end_. split; [exact HLo|]. cbn. lia.
Qed.

Lemma mmap_read_release (bo : byteorder) (c : proc) (d : descr) (p : Z * Z) :
  Forall (in_data_area (size_of c)) d -> last d = Some p ->
  exists r c',
    mmap_read bo d c = (Ret r, c') /\
    bytes_of c' = write_at (bytes_of c) 0 (uint32_encode bo (fst p + snd p)).
Proof.
  intros Hd Hlast.
  assert (Hin : in_data_area (size_of c) p).
  { apply (proj1 (List.Forall_forall _ _) Hd).
    apply list_elem_of_In, last_Some_elem_of. exact Hlast. }
  destruct Hin as (I1 & I2 & I3).
  destruct (decide (length d = 1%nat)) as [H1|H1].
  - destruct d as [|[o l] [|q d']]; try discriminate. injection Hlast as <-.
    cbn [fst snd] in *.
    eexists _, _. split; [apply mmap_read_one; lia | reflexivity].
  - eexists _, _. split.
    + apply mmap_read_many; [exact H1 | lia | apply in_data_area_weaken, Hd].
    + unfold bytes_of at 1. cbn [buf area].
      apply store_each_last; [unfold size_of in *; lia | exact Hlast].
Qed.

Lemma step_read_preserves (bo : byteorder) (N : Z) (c : channel) :
  8 <= N <= 2 ^ 32 -> ring_inv bo N c ->
  exists c', step bo N DoRead c = Some c' /\ ring_inv bo N c'.
Proof.
  intros HN Hinv. pose proof (ring_inv_no_overlap bo N c ltac:(lia) Hinv) as [Hall _].
  destruct Hinv as (Hlen & Hs & He & Hlast & Hlay).
  unfold step. unfold live_pairs in *.
  destruct (live c) as [|d rest] eqn:Hq.
  { exists c. split; [reflexivity|].
    unfold ring_inv, live_pairs. rewrite Hq. auto. }
  cbn [concat] in *.
  apply Forall_cons_1 in Hlast as [(p & Hp & Hpn) Hlast].
  apply Forall_app in Hall as [Hd _].
  set (s := Proc (MMap (shared c) (consumer_pos c)) []).
  assert (Hsz : size_of s = N) by exact Hlen.
  destruct (mmap_read_release bo s d p) as (r & s' & Hr & Hb);
    [rewrite Hsz; exact Hd | exact Hp |].
  rewrite Hr. eexists. split; [reflexivity|].
  assert (Hpin : in_data_area N p).
  { apply (proj1 (List.Forall_forall _ _) Hd).
    apply list_elem_of_In, last_Some_elem_of. exact Hp. }
  destruct Hpin as (P1 & P2 & P3).
  change (bytes_of s) with (shared c) in Hb.
  set (b := shared c) in *.
  assert (Y1 : length (bytes_of s') = length b)
    by (rewrite Hb, write_at_length; rewrite ?uint32_encode_length; lia).
  assert (Y2 : data_start bo (bytes_of s') = fst p + snd p)
    by (rewrite Hb, data_start_set by lia; apply Z.mod_small; lia).
  assert (Y3 : data_end bo (bytes_of s') = data_end bo b)
    by (rewrite Hb; apply data_end_set_start; lia).
  unfold ring_inv, live_pairs. cbn [shared live].
  rewrite Y1, Y2, Y3.
  replace (Z.max 8 (fst p + snd p)) with (fst p + snd p) by lia.
  set (start := Z.max 8 (data_start bo b)) in *.
  set (end_ := Z.max 8 (data_end bo b)) in *.
  repeat split; try lia; try exact Hlast.
  destruct Hlay as [[Hle Hc] | (Hlt & U & Lo & top & HUL & HU & Htop & HLo)].
  - apply chain_app in Hc as (m & Hcd & Hcr).
    rewrite (chain_last _ _ _ _ Hcd Hp).
    left. split; [eapply chain_le; exact Hcr | exact Hcr].
  - symmetry in HUL. apply app_eq_inv in HUL as [(k & Hk1 & Hk2) | (k & Hk1 & Hk2)].
    + (* the descriptor lies in the upper run *)
      rewrite Hk1 in HU. apply chain_app in HU as (m & Hcd & Hck).
      rewrite (chain_last _ _ _ _ Hcd Hp).
      right. split; [apply chain_le in Hcd; lia|].
      exists k, Lo, top. repeat split; assumption.
    + (* the descriptor reaches into the lower run *)
      destruct k as [|x k].
      * rewrite app_nil_r in Hk1. subst d. cbn [app] in Hk2. subst Lo.
        rewrite (chain_last _ _ _ _ HU Hp).
        right. split; [apply chain_le in HU; lia|].
        exists [], (concat rest), top.
        repeat split; try assumption; try reflexivity; lia.
      * assert (Hpk : last (x :: k) = Some p).
        { rewrite Hk1, last_app in Hp. destruct (last (x :: k)) eqn:E; [exact Hp|].
          apply last_None in E. discriminate. }
        rewrite Hk2 in HLo. apply chain_app in HLo as (m & Hck & Hcr).
        rewrite (chain_last _ _ _ _ Hck Hpk).
        left. split; [eapply chain_le; exact Hcr | exact Hcr].
Qed.

Lemma run_preserves (bo : byteorder) (N : Z) (ops : list op) : forall c : channel,
  8 <= N <= 2 ^ 32 -> ring_inv bo N c ->
  exists c', run bo N ops c = Some c' /\ ring_inv bo N c'.
Proof.
  induction ops as [|o ops IH]; intros c HN Hinv.
  - exists c. split; [reflexivity | exact Hinv].
  - cbn [run].
    assert (Hstep : exists c1, step bo N o c = Some c1 /\ ring_inv bo N c1).
    { destruct o as [payload|].
      - apply step_write_preserves; assumption.
      - apply step_read_preserves; assumption. }
    destruct Hstep as (c1 & -> & Hinv1). apply IH; assumption.
Qed.

Lemma ring_inv_fresh (bo : byteorder) (N : Z) (b : list byte) (pp cp : Z) :
  8 <= N -> Z.of_nat (length b) = N ->
  data_start bo b = 0 -> data_end bo b = 0 ->
  ring_inv bo N (Channel b pp cp []).
Proof.
  intros HN Hlen Hs He. unfold ring_inv, live_pairs. cbn [shared live concat].
  rewrite Hs, He. repeat split; try lia.
  - constructor.
  - left. cbn. lia.
Qed.

(** C5: on a region of [N] bytes ([8 <= N <= 4 GiB]) whose cursor words
    start at zero, whatever sequence of writes and in-order reads the two
    sides perform, no call raises, and the pairs of the descriptors written
    and not yet read lie in [[8, N)] and are pairwise disjoint. *)
Theorem C5_live_ranges_disjoint (bo : byteorder) (N : Z) (ops : list op)
    (b : list byte) (pp cp : Z) :
  8 <= N <= 2 ^ 32 -> Z.of_nat (length b) = N ->
  data_start bo b = 0 -> data_end bo b = 0 ->
  exists c,
    run bo N ops (Channel b pp cp []) = Some c /\
    no_overlap N (live_pairs c).
Proof.
  intros HN Hlen Hs He.
  destruct (run_preserves bo N ops (Channel b pp cp []) HN) as (c & Hrun & Hinv).
  - apply ring_inv_fresh; auto with lia.
  - exists c. split; [exact Hrun|].
    apply (ring_inv_no_overlap bo); [lia | exact Hinv].
Qed.

(** ** Opening the client's region on the server *)

(** C8 (amended): on a POSIX host, when the client announced a non-zero
    size that differs from the size of the file, [init_server_mmap] logs
    the mismatch and goes on to map [expected] bytes.  It returns no region
    (and size 0) only when that mapping is refused, which is when the file
    is shorter than announced (or the announced size is negative); when the
    file is longer it returns the first [expected] bytes as the region,
    together with the actual size of the file. *)
Theorem C8_size_mismatch_only_warns (fs : filesystem)
    (win32_mmap : Z -> string -> option mmap_object)
    (mmap_filename : string) (content : list byte) (expected : Z) :
  let actual := Z.of_nat (length content) in
  fs mmap_filename = Some (File content) ->
  expected <> 0 -> actual <> expected ->
  (expected < actual -> 0 < expected ->
   init_server_mmap false fs win32_mmap mmap_filename expected =
   ((Some (MMap (take (Z.to_nat expected) content) 0), actual),
    [WarnSizeMismatch expected actual])) /\
  (actual < expected \/ expected < 0 ->
   init_server_mmap false fs win32_mmap mmap_filename expected =
   ((None, 0), [WarnSizeMismatch expected actual; ErrorCannotUse])).
Proof.
  cbv zeta. intros Hfs H0 Hne.
  unfold init_server_mmap, init_server_mmap_try. cbn [negb]. rewrite Hfs.
  replace (expected =? 0) with false by (symmetry; apply Z.eqb_neq; lia).
  replace (Z.of_nat (length content) =? expected) with false
    by (symmetry; apply Z.eqb_neq; lia).
  cbn [negb andb]. unfold posix_mmap.
  replace (expected =? 0) with false by (symmetry; apply Z.eqb_neq; lia).
  split.
  - intros H1 H2.
    replace (expected <? 0) with false by (symmetry; apply Z.ltb_ge; lia).
    replace (Z.of_nat (length content) <? expected) with false
      by (symmetry; apply Z.ltb_ge; lia).
    reflexivity.
  - intros H1.
    destruct (expected <? 0) eqn:E; [reflexivity|]. apply Z.ltb_ge in E.
    replace (Z.of_nat (length content) <? expected) with true
      by (symmetry; apply Z.ltb_lt; lia).
    reflexivity.
Qed.

(** C9: when the server has mapped the client's region (a positive size
    came back from [init_server_mmap]) and the token read at the announced
    place differs from the announced token, or none was announced,
    [parse_client_caps] closes the mapping, sets [self.mmap] to [None] and
    [self.mmap_size] to 0, and does not report mmap as enabled. *)
Theorem C9_token_mismatch_fails_closed (WIN32 : bool) (fs : filesystem)
    (win32_mmap : Z -> string -> option mmap_object)
    (path_join : string -> string -> string) (basename : string -> string)
    (get_int_uuid : Z) (randint : Z -> Z -> Z)
    (self : MMAP_Connection.source) (c : typedict)
    (file : string) (a : mmap_object) (size : Z) (ev : list server_event) (v : Z) :
  let ns := boolget c "mmap.namespace" false in
  let attr := MMAP_Connection.mmapattr ns in
  let filename := MMAP_Connection.server_path fs path_join basename self file in
  strget c (attr "file") = Some file -> file <> EmptyString ->
  MMAP_Connection.supports_mmap self = true ->
  WIN32 && String.prefix "/" filename = false ->
  path_exists fs filename = true ->
  init_server_mmap WIN32 fs win32_mmap filename (intget c (attr "size") 0)
    = ((Some a, size), ev) ->
  0 < size ->
  fst (read_mmap_token (intget c (attr "token_index") 0)
         (intget c (attr "token_bytes") DEFAULT_TOKEN_BYTES) (Proc a [])) = Ret v ->
  intget_opt c (attr "token") <> Some v ->
  exists self',
    MMAP_Connection.parse_client_caps WIN32 fs win32_mmap path_join basename
      get_int_uuid randint self c
    = (Ret tt, self',
       ev ++ [WarnTokenFailed (intget_opt c (attr "token")) v; Closed a]) /\
    MMAP_Connection.mmap self' = None /\
    MMAP_Connection.mmap_size self' = 0.
Proof.
  cbv zeta. intros Hfile Hne Hsup Hwin Hex Hinit Hsize Hread Htok.
  unfold MMAP_Connection.parse_client_caps. cbv zeta.
  rewrite Hfile. change (default EmptyString (Some file)) with file.
  cbn [MMAP_Connection.truthy_str].
  replace (String.eqb file EmptyString) with false
    by (symmetry; apply String.eqb_neq; exact Hne).
  cbn [negb MMAP_Connection.supports_mmap]. rewrite Hsup. cbn [negb].
  repeat match goal with
  | |- context [MMAP_Connection.server_path ?f ?j ?b ?s file] =>
      lazymatch s with
      | self => fail
      | _ => change (MMAP_Connection.server_path f j b s file)
               with (MMAP_Connection.server_path f j b self file)
      end
  end.
  rewrite Hwin, Hex. cbn [negb]. rewrite Hinit.
  replace (0 <? size) with true by (symmetry; apply Z.ltb_lt; lia).
  destruct (read_mmap_token _ _ (Proc a [])) as [[v'|e] s'] eqn:E;
    cbn [fst] in Hread; [|discriminate].
  injection Hread as ->.
  rewrite bool_decide_eq_false_2 by exact Htok. cbn [negb].
  eexists. split; [|split]; reflexivity.
Qed.

(** ** The claims on concrete regions *)

(** A fresh 16-byte region has 8 free bytes; a payload of exactly 8 bytes
    satisfies [L <= N - 8] and [available >= L], and is refused. *)
Lemma C1_counterexample :
  let s := fresh_region 16 in
  let available :=
    spec_available 16 (Z.max 8 (data_start LittleEndian (bytes_of s)))
                      (Z.max 8 (data_end LittleEndian (bytes_of s))) in
  ~ ((exists d f s', mmap_write LittleEndian 16 (sample 8) s = (Ret (Some d, f), s'))
     <-> (8 <= 16 - 8 /\ available >= 8)).
Proof.
  cbv zeta. intros [_ H].
  destruct H as (d & f & s' & H).
  - vm_compute. split; intro; discriminate.
  - vm_compute in H. discriminate.
Qed.

Lemma C1_witness :
  (size_of (fresh_region 16) = 16 /\ 8 <= 16 /\
   data_start LittleEndian (bytes_of (fresh_region 16)) <= 16 /\
   data_end LittleEndian (bytes_of (fresh_region 16)) <= 16) /\
  exists d f s',
    mmap_write LittleEndian 16 (sample 7) (fresh_region 16) = (Ret (Some d, f), s').
Proof.
  assert (H1 : size_of (fresh_region 16) = 16) by reflexivity.
  assert (H2 : 8 <= 16) by lia.
  assert (H3 : data_start LittleEndian (bytes_of (fresh_region 16)) <= 16)
    by (vm_compute; intro; discriminate).
  assert (H4 : data_end LittleEndian (bytes_of (fresh_region 16)) <= 16)
    by (vm_compute; intro; discriminate).
  split; [auto|].
  apply (C1_capacity_bound LittleEndian 16 (sample 7) (fresh_region 16) H1 H2 H3 H4).
  vm_compute. split; [intro; discriminate | reflexivity].
Defined.

Lemma C2_witness :
  (size_of late_region = 16 /\
   mmap_write LittleEndian 16 (sample 5) late_region
   = (Ret (Some [(14, 2); (8, 3)], 3),
      snd (mmap_write LittleEndian 16 (sample 5) late_region))) /\
  exists r c',
    mmap_read LittleEndian [(14, 2); (8, 3)]
      (snd (mmap_write LittleEndian 16 (sample 5) late_region)) = (Ret r, c') /\
    contents (bytes_of c') r = sample 5.
Proof.
  assert (H1 : size_of late_region = 16) by reflexivity.
  assert (H2 : mmap_write LittleEndian 16 (sample 5) late_region
               = (Ret (Some [(14, 2); (8, 3)], 3),
                  snd (mmap_write LittleEndian 16 (sample 5) late_region)))
    by (vm_compute; reflexivity).
  split; [auto|].
  destruct (C2_round_trip LittleEndian 16 (sample 5) late_region _ _ _ _ H1 H2 eq_refl)
    as (r & c' & Hr & Hc & _).
  exists r, c'. auto.
Defined.

Lemma C3_witness :
  (16 <= 2 ^ 32 /\
   mmap_write LittleEndian 16 (sample 5) late_region
   = (Ret (Some [(14, 2); (8, 3)], 3),
      snd (mmap_write LittleEndian 16 (sample 5) late_region))) /\
  data_end LittleEndian
    (bytes_of (snd (mmap_write LittleEndian 16 (sample 5) late_region))) = 11.
Proof.
  assert (H1 : 16 <= 2 ^ 32) by lia.
  assert (H2 : mmap_write LittleEndian 16 (sample 5) late_region
               = (Ret (Some [(14, 2); (8, 3)], 3),
                  snd (mmap_write LittleEndian 16 (sample 5) late_region)))
    by (vm_compute; reflexivity).
  split; [auto|].
  pose proof (C3_placement LittleEndian 16 (sample 5) late_region _ _ _ H1 H2) as H.
  cbv zeta in H.
  change (data_start LittleEndian (bytes_of late_region)) with 14 in H.
  change (data_end LittleEndian (bytes_of late_region)) with 14 in H.
  exact (proj2 H).
Defined.

Lemma C4_witness :
  mmap_write LittleEndian 16 (sample 5) late_region
  = (Ret (Some [(14, 2); (8, 3)], 3),
     snd (mmap_write LittleEndian 16 (sample 5) late_region)) /\
  free_space 16 14 14 = (spec_available 16 14 14, spec_first_chunk_capacity 16 14 14).
Proof.
  assert (H2 : mmap_write LittleEndian 16 (sample 5) late_region
               = (Ret (Some [(14, 2); (8, 3)], 3),
                  snd (mmap_write LittleEndian 16 (sample 5) late_region)))
    by (vm_compute; reflexivity).
  split; [exact H2|].
  exact (proj1 (C4_free_space_accounting LittleEndian 16 (sample 5) late_region _ _ H2)).
Defined.

Lemma C5_witness :
  (8 <= 16 <= 2 ^ 32 /\ Z.of_nat (length (zeros 16)) = 16 /\
   data_start BigEndian (zeros 16) = 0 /\ data_end BigEndian (zeros 16) = 0) /\
  exists c,
    run BigEndian 16 [DoWrite (sample 5); DoWrite (sample 2); DoRead; DoWrite (sample 6)]
        (Channel (zeros 16) 0 0 []) = Some c /\
    no_overlap 16 (live_pairs c).
Proof.
  assert (H1 : 8 <= 16 <= 2 ^ 32) by lia.
  assert (H2 : Z.of_nat (length (zeros 16)) = 16) by reflexivity.
  assert (H3 : data_start BigEndian (zeros 16) = 0) by reflexivity.
  assert (H4 : data_end BigEndian (zeros 16) = 0) by reflexivity.
  split; [auto|].
  exact (C5_live_ranges_disjoint BigEndian 16 _ (zeros 16) 0 0 H1 H2 H3 H4).
Defined.

(** After [(8, 5)] and [(13, 2)] were written and read in order,
    [data_start] is 15, the end of the later one; reading the first
    descriptor once more puts it back to 13. *)
Lemma C6_counterexample :
  let s1 := snd (mmap_write LittleEndian 16 (sample 5) (fresh_region 16)) in
  let s2 := snd (mmap_write LittleEndian 16 (sample 2) s1) in
  let c1 := snd (mmap_read LittleEndian [(8, 5)] s2) in
  let c2 := snd (mmap_read LittleEndian [(13, 2)] c1) in
  let c3 := snd (mmap_read LittleEndian [(8, 5)] c2) in
  fst (mmap_write LittleEndian 16 (sample 5) (fresh_region 16)) = Ret (Some [(8, 5)], 3) /\
  fst (mmap_write LittleEndian 16 (sample 2) s1) = Ret (Some [(13, 2)], 1) /\
  fst (mmap_read LittleEndian [(8, 5)] s2) = Ret (View 8 5) /\
  fst (mmap_read LittleEndian [(13, 2)] c1) = Ret (View 13 2) /\
  fst (mmap_read LittleEndian [(8, 5)] c2) = Ret (View 8 5) /\
  data_start LittleEndian (bytes_of c2) = 15 /\
  data_start LittleEndian (bytes_of c3) = 13 /\
  data_start LittleEndian (bytes_of c3) < data_start LittleEndian (bytes_of c2).
Proof.
  vm_compute. repeat split; reflexivity.
Qed.

Lemma C6_witness :
  (Forall (in_data_area (size_of (fresh_region 16))) [(8, 5)] /\
   last [(8, 5)] = Some (8, 5)) /\
  exists r c',
    mmap_read LittleEndian [(8, 5)] (fresh_region 16) = (Ret r, c') /\
    data_start LittleEndian (bytes_of c') = 13 mod 2 ^ 32.
Proof.
  assert (H1 : Forall (in_data_area (size_of (fresh_region 16))) [(8, 5)]).
  { repeat constructor; vm_compute; intro; discriminate. }
  assert (H2 : last [(8, 5)] = Some (8, 5)) by reflexivity.
  split; [auto|].
  destruct (C6_release_sets_data_start LittleEndian (fresh_region 16) [(8, 5)] 8 5 H1 H2)
    as (r & c' & Hr & Hs & _).
  exists r, c'. auto.
Defined.

Lemma C7_witness :
  (0 < 2 /\ 0 <= 513 < 256 ^ 2 /\ 0 <= 3 /\ 3 + 2 <= size_of (fresh_region 8)) /\
  exists s',
    write_mmap_token 513 3 2 (fresh_region 8) = (Ret tt, s') /\
    read_mmap_token 3 2 s' = (Ret 513, s').
Proof.
  assert (H1 : 0 < 2) by lia.
  assert (H2 : 0 <= 513 < 256 ^ 2) by lia.
  assert (H3 : 0 <= 3) by lia.
  assert (H4 : 3 + 2 <= size_of (fresh_region 8)) by (vm_compute; intro; discriminate).
  split; [auto|].
  destruct (C7_token_round_trip (fresh_region 8) 513 3 2 H1 H2 H3 H4)
    as (s' & Hw & _ & Hr).
  exists s'. auto.
Defined.

(** The file has 16 bytes, 8 were announced: the first 8 are handed back
    as the region. *)
Lemma C8_counterexample :
  one_file "m" = Some (File (x07 :: zeros 15)) /\
  Z.of_nat (length (x07 :: zeros 15)) <> 8 /\
  init_server_mmap false one_file no_win32_mmap "m" 8
  = ((Some (MMap (x07 :: zeros 7) 0), 16), [WarnSizeMismatch 8 16]).
Proof.
  split; [reflexivity|]. split; [|reflexivity].
  vm_compute. intro; discriminate.
Qed.

Lemma C8_witness :
  (one_file "m" = Some (File (x07 :: zeros 15)) /\ 8 <> 0 /\
   Z.of_nat (length (x07 :: zeros 15)) <> 8) /\
  init_server_mmap false one_file no_win32_mmap "m" 8
  = ((Some (MMap (take (Z.to_nat 8) (x07 :: zeros 15)) 0), Z.of_nat (length (x07 :: zeros 15))),
     [WarnSizeMismatch 8 (Z.of_nat (length (x07 :: zeros 15)))]).
Proof.
  assert (H1 : one_file "m" = Some (File (x07 :: zeros 15))) by reflexivity.
  assert (H2 : 8 <> 0) by lia.
  assert (H3 : Z.of_nat (length (x07 :: zeros 15)) <> 8) by (vm_compute; intro; discriminate).
  split; [auto|].
  apply (C8_size_mismatch_only_warns one_file no_win32_mmap "m" _ 8 H1 H2 H3).
  - vm_compute. reflexivity.
  - lia.
Defined.

Lemma C9_witness :
  exists self',
    MMAP_Connection.parse_client_caps false one_file no_win32_mmap
      String.append (fun p => p) 99 (fun a _ => a) sample_source sample_caps
    = (Ret tt, self',
       [WarnTokenFailed (Some 5) 7; Closed (MMap (x07 :: zeros 15) 0)]) /\
    MMAP_Connection.mmap self' = None /\
    MMAP_Connection.mmap_size self' = 0.
Proof.
  apply (C9_token_mismatch_fails_closed false one_file no_win32_mmap
           String.append (fun p => p) 99 (fun a _ => a) sample_source sample_caps
           "m" (MMap (x07 :: zeros 15) 0) 16 [] 7).
  - vm_compute. reflexivity.
  - intro; discriminate.
  - reflexivity.
  - reflexivity.
  - reflexivity.
  - vm_compute. reflexivity.
  - lia.
  - vm_compute. reflexivity.
  - vm_compute. intro; discriminate.
Defined.

Lemma C10_witness :
  (in_data_area (size_of (fresh_region 16)) (8, 2) /\
   in_data_area (size_of (fresh_region 16)) (10, 3) /\
   8 + 2 < 2 ^ 32 /\ 10 + 3 < 2 ^ 32) /\
  exists c',
    mmap_read BigEndian [(8, 2); (10, 3)] (fresh_region 16)
    = (Ret (Copy (slice (zeros 16) 8 2 ++ slice (zeros 16) 10 3)), c') /\
    data_start BigEndian (bytes_of c') = 10 + 3.
Proof.
  assert (H1 : in_data_area (size_of (fresh_region 16)) (8, 2))
    by (repeat split; vm_compute; intro; discriminate).
  assert (H2 : in_data_area (size_of (fresh_region 16)) (10, 3))
    by (repeat split; vm_compute; intro; discriminate).
  assert (H3 : 8 + 2 < 2 ^ 32) by lia.
  assert (H4 : 10 + 3 < 2 ^ 32) by lia.
  split; [auto|].
  destruct (C10_read_advances_data_start BigEndian (fresh_region 16) 8 2 10 3 H1 H2 H3 H4)
    as (_ & c' & Hr & _ & Hs).
  exists c'. auto.
Defined.

(** * Further properties of the code *)

(** ** [read_mmap_token] and [write_mmap_token] beyond the round trip *)

Lemma le_value_bound (l : list byte) (n : Z) :
  Z.of_nat (length l) = n -> 0 <= le_value l < 256 ^ n.
Proof. intros <-. apply le_value_range. Qed.

Lemma token_bytes_le_value (l : list byte) :
  token_bytes (le_value l) (length l) = l.
Proof.
  induction l as [|b l IH]; [reflexivity|].
  cbn [length token_bytes]. unfold le_value in *. cbn [foldr].
  pose proof (Z_of_byte_range b) as Hb.
  set (y := foldr (fun b acc => Z_of_byte b + 256 * acc) 0 l) in *.
  assert (E1 : (Z_of_byte b + 256 * y) mod 256 = Z_of_byte b).
  { rewrite (Z.mul_comm 256 y), Z.mod_add by lia. apply Z.mod_small. lia. }
  assert (E2 : (Z_of_byte b + 256 * y) ≫ 8 = y).
  { rewrite Z.shiftr_div_pow2 by lia. change (2 ^ 8) with 256.
    rewrite (Z.mul_comm 256 y), Z.div_add by lia.
    rewrite Z.div_small by lia. lia. }
  rewrite E1, E2, IH, byte_of_Z_of_byte. reflexivity.
Qed.

Lemma write_at_slice (b : list byte) (p n : nat) :
  (p + n <= length b)%nat -> write_at b p (slice b p n) = b.
Proof.
  intros H. apply list_eq. intros i.
  pose proof (slice_length b p n H) as Hl.
  destruct (decide (i < p)%nat).
  { apply write_at_lookup_lt; lia. }
  destruct (decide (i < p + n)%nat).
  { destruct (Nat.le_exists_sub p i) as [j [-> _]]; [lia|].
    rewrite (Nat.add_comm j). rewrite write_at_lookup_in by lia.
    rewrite slice_lookup. destruct (decide (j < n)%nat); [reflexivity|lia]. }
  apply write_at_lookup_ge; lia.
Qed.

(** The value a read returns is the little-endian value of the bytes at
    the place, and the region is as before. *)
Lemma read_mmap_token_value (s : proc) (index count : Z) :
  0 < count -> 0 <= index -> index + count <= size_of s ->
  read_mmap_token index count s =
  (Ret (le_value (slice (bytes_of s) (Z.to_nat index) (Z.to_nat count))), s).
Proof.
  intros Hc Hi Hs. unfold read_mmap_token, range, py_assert.
  replace (0 <? count) with true by (symmetry; apply Z.ltb_lt; lia).
  unfold bind at 1. unfold ret at 1.
  rewrite Z.sub_0_r, <- (Z2Nat.id count) by lia.
  pose proof (read_loop index (Z.of_nat (Z.to_nat count)) (Z.to_nat count) 0 0 s) as Hr.
  cbv zeta in Hr. rewrite Hr by lia.
  replace (index + Z.of_nat (Z.to_nat count) - 0 - Z.of_nat (Z.to_nat count))
    with index by lia.
  rewrite Nat2Z.id. reflexivity.
Qed.

(** What a write stores when the range lies in the region, before its final
    assertion. *)
Lemma write_mmap_token_stores (s : proc) (v index count : Z) :
  0 < count -> 0 <= index -> index + count <= size_of s ->
  write_mmap_token v index count s =
  py_assert (v ≫ (8 * count) =? 0)
    (with_bytes s (write_at (bytes_of s) (Z.to_nat index)
                            (token_bytes v (Z.to_nat count)))).
Proof.
  intros Hc Hi Hs. unfold write_mmap_token, range.
  replace (0 <? count) with true by (symmetry; apply Z.ltb_lt; lia).
  unfold py_assert at 1. unfold bind at 1. unfold ret at 1. unfold bind at 1.
  rewrite Z.sub_0_r, <- (Z2Nat.id count) at 1 by lia.
  rewrite (write_loop index (Z.to_nat count) 0 v s) by lia.
  rewrite Z.add_0_r, Z2Nat.id by lia. reflexivity.
Qed.

Lemma shiftr_zero_iff (v count : Z) :
  0 < count -> (v ≫ (8 * count) = 0 <-> 0 <= v < 256 ^ count).
Proof.
  intros Hc. rewrite Z.shiftr_div_pow2 by lia.
  rewrite Z.pow_mul_r by lia. change (2 ^ 8) with 256.
  assert (Hp : 0 < 256 ^ count) by (apply Z.pow_pos_nonneg; lia).
  rewrite Z.div_small_iff by lia. lia.
Qed.

(** X1: [read_mmap_token] on a range inside the region returns a value in
    [[0, 256^count)] and leaves the region, the seek position and the log
    as they were. *)
Theorem read_mmap_token_read_only (s : proc) (index count : Z) :
  0 < count -> 0 <= index -> index + count <= size_of s ->
  exists v,
    read_mmap_token index count s = (Ret v, s) /\ 0 <= v < 256 ^ count.
Proof.
  intros Hc Hi Hs. eexists. split; [apply read_mmap_token_value; lia|].
  apply le_value_bound. rewrite slice_length; unfold size_of in Hs; lia.
Qed.

(** X2: writing back the token that was just read changes nothing: the
    write succeeds and the region is byte for byte as before. *)
Theorem write_back_read_token (s s' : proc) (v index count : Z) :
  0 < count -> 0 <= index -> index + count <= size_of s ->
  read_mmap_token index count s = (Ret v, s') ->
  write_mmap_token v index count s = (Ret tt, s).
Proof.
  intros Hc Hi Hs Hr. rewrite read_mmap_token_value in Hr by lia.
  injection Hr as <- _.
  set (l := slice (bytes_of s) (Z.to_nat index) (Z.to_nat count)).
  assert (Hl : length l = Z.to_nat count)
    by (apply slice_length; unfold size_of in Hs; lia).
  rewrite write_mmap_token_stores by lia.
  replace (le_value l ≫ (8 * count) =? 0) with true.
  2:{ symmetry. apply Z.eqb_eq. apply shiftr_zero_iff; [lia|].
      apply le_value_bound. lia. }
  unfold py_assert, ret. rewrite <- Hl, token_bytes_le_value. unfold l.
  rewrite write_at_slice by (unfold size_of in Hs; lia).
  rewrite with_bytes_same. reflexivity.
Qed.

(** X3: a successful [write_mmap_token] changes the [count] bytes at
    [index] and nothing else: the region keeps its length and every byte
    outside [[index, index + count)]. *)
Theorem write_mmap_token_frame (s s' : proc) (v index count : Z) (i : nat) :
  0 < count -> 0 <= index -> index + count <= size_of s ->
  write_mmap_token v index count s = (Ret tt, s') ->
  length (bytes_of s') = length (bytes_of s) /\
  (Z.of_nat i < index \/ index + count <= Z.of_nat i ->
   bytes_of s' !! i = bytes_of s !! i).
Proof.
  intros Hc Hi Hs Hw. rewrite write_mmap_token_stores in Hw by lia.
  unfold py_assert in Hw. destruct (_ =? 0); [|discriminate].
  injection Hw as <-. unfold with_bytes, bytes_of. cbn [buf area].
  pose proof (token_bytes_length v (Z.to_nat count)) as Hl.
  unfold size_of, bytes_of in Hs. split.
  - apply write_at_length. lia.
  - intros [H|H].
    + apply write_at_lookup_lt; lia.
    + apply write_at_lookup_ge; lia.
Qed.

(** X4: a token that does not fit in [count] bytes (or is negative) makes
    [write_mmap_token] fail its final assertion, but only after the [count]
    low bytes were stored: a read at the same place then returns the token
    modulo [256^count]. *)
Theorem write_mmap_token_too_big (s : proc) (v index count : Z) :
  0 < count -> 0 <= index -> index + count <= size_of s ->
  ~ (0 <= v < 256 ^ count) ->
  exists s',
    write_mmap_token v index count s = (Raise AssertionError, s') /\
    read_mmap_token index count s' = (Ret (v mod 256 ^ count), s').
Proof.
  intros Hc Hi Hs Hv. rewrite write_mmap_token_stores by lia.
  replace (v ≫ (8 * count) =? 0) with false.
  2:{ symmetry. apply Z.eqb_neq. rewrite shiftr_zero_iff by lia. exact Hv. }
  eexists. split; [reflexivity|].
  set (s' := with_bytes s _).
  pose proof (token_bytes_length v (Z.to_nat count)) as Hl.
  assert (Hsz : size_of s' = size_of s).
  { unfold size_of, s', with_bytes, bytes_of in *. cbn [buf area].
    rewrite write_at_length; [reflexivity | lia]. }
  rewrite read_mmap_token_value by lia. f_equal. f_equal.
  unfold s', with_bytes, bytes_of. cbn [buf area].
  pose proof (slice_write_at_same (buf (area s)) (Z.to_nat index)
                (token_bytes v (Z.to_nat count))) as Hsl.
  rewrite Hl in Hsl. rewrite Hsl by (unfold size_of, bytes_of in Hs; lia).
  rewrite le_value_token_bytes, Z2Nat.id by lia. reflexivity.
Qed.

Lemma from_buffer_bad (sz offset : Z) (s : proc) :
  offset < 0 \/ size_of s < offset + sz ->
  from_buffer sz offset s = (Raise ValueError, s).
Proof.
  intros H. unfold from_buffer.
  destruct (offset <? 0) eqn:E1; [reflexivity|]. apply Z.ltb_ge in E1.
  replace (size_of s <? offset + sz) with true by (symmetry; apply Z.ltb_lt; lia).
  reflexivity.
Qed.

Lemma read_loop_fails (index count : Z) (n : nat) : forall (k acc : Z) (s : proc),
  (0 < n)%nat ->
  index + count - k - Z.of_nat n < 0 \/ size_of s <= index + count - 1 - k ->
  for_fold (fun v i =>
      let v := v ≪ 8 in
      peek <- from_buffer 1 (index + count - 1 - i) ;;
      b <- ubyte_value peek ;;
      ret (v + b)) (seqZ k (Z.of_nat n)) acc s
  = (Raise ValueError, s).
Proof.
  induction n as [|n IH]; intros k acc s Hn Hbad; [lia|].
  rewrite seqZ_cons by lia.
  replace (Z.pred (Z.of_nat (S n))) with (Z.of_nat n) by lia.
  cbn [for_fold]. unfold bind at 1. cbv zeta. unfold bind at 1.
  destruct (Z_lt_le_dec (index + count - 1 - k) 0) as [Hneg|Hnn].
  { rewrite from_buffer_bad by lia. reflexivity. }
  destruct (Z_le_gt_dec (size_of s) (index + count - 1 - k)) as [Hbig|Hin].
  { rewrite from_buffer_bad by lia. reflexivity. }
  rewrite from_buffer_ok by lia.
  unfold bind at 1. unfold ubyte_value at 1. unfold ret at 1.
  apply IH; lia.
Qed.

(** X5: [read_mmap_token] on a range that leaves the region raises
    [ValueError] and changes nothing, whether the range starts before the
    region or ends after it. *)
Theorem read_mmap_token_out_of_range (s : proc) (index count : Z) :
  0 < count -> index < 0 \/ size_of s < index + count ->
  read_mmap_token index count s = (Raise ValueError, s).
Proof.
  intros Hc Hbad. unfold read_mmap_token, range, py_assert.
  replace (0 <? count) with true by (symmetry; apply Z.ltb_lt; lia).
  unfold bind at 1. unfold ret at 1.
  rewrite Z.sub_0_r, <- (Z2Nat.id count) at 1 by lia.
  pose proof (read_loop_fails index count (Z.to_nat count) 0 0 s) as Hr.
  cbv zeta in Hr. apply Hr; lia.
Qed.

Lemma write_loop_overrun (index : Z) (n : nat) : forall (k v : Z) (s : proc),
  0 <= index + k <= size_of s -> size_of s < index + k + Z.of_nat n ->
  for_fold (fun v i =>
      poke <- from_buffer 1 (index + i) ;;
      ubyte_set poke (v mod 256) ;;
      ret (v ≫ 8)) (seqZ k (Z.of_nat n)) v s
  = (Raise ValueError,
     with_bytes s (write_at (bytes_of s) (Z.to_nat (index + k))
                    (token_bytes v (Z.to_nat (size_of s - (index + k)))))).
Proof.
  induction n as [|n IH]; intros k v s Hk Hn; [lia|].
  rewrite seqZ_cons by lia.
  replace (Z.pred (Z.of_nat (S n))) with (Z.of_nat n) by lia.
  cbn [for_fold]. unfold bind at 1. unfold bind at 1.
  destruct (Z.eq_dec (index + k) (size_of s)) as [Heq|Hne].
  - rewrite from_buffer_bad by lia.
    replace (size_of s - (index + k)) with 0 by lia.
    cbn [Z.to_nat token_bytes]. rewrite write_at_nil, with_bytes_same. reflexivity.
  - rewrite from_buffer_ok by lia.
    unfold bind at 1. unfold ubyte_set at 1. unfold ret at 1.
    set (s1 := with_bytes s _).
    assert (Hsz : size_of s1 = size_of s).
    { unfold size_of, s1, with_bytes, bytes_of in *. cbn [buf area] in *.
      rewrite write_at_length; [reflexivity|simpl; lia]. }
    rewrite (IH (Z.succ k) (v ≫ 8) s1) by lia. rewrite Hsz.
    f_equal. unfold s1. rewrite with_bytes_twice. f_equal.
    unfold bytes_of at 1. cbn [buf area].
    replace (Z.to_nat (index + Z.succ k)) with (S (Z.to_nat (index + k))) by lia.
    replace (Z.to_nat (size_of s - (index + k)))
      with (S (Z.to_nat (size_of s - (index + Z.succ k)))) by lia.
    cbn [token_bytes].
    apply write_at_cons. rewrite token_bytes_length. unfold size_of in *. lia.
Qed.

(** X6: a token range that starts inside the region and runs past its end
    makes [write_mmap_token] raise [ValueError], but the bytes up to the
    end of the region have been overwritten with the low bytes of the token
    by then. *)
Theorem write_mmap_token_overrun (s : proc) (v index count : Z) :
  0 <= index <= size_of s -> size_of s < index + count ->
  write_mmap_token v index count s =
  (Raise ValueError,
   with_bytes s (write_at (bytes_of s) (Z.to_nat index)
                  (token_bytes v (Z.to_nat (size_of s - index))))).
Proof.
  intros Hi Hs. unfold write_mmap_token, range, py_assert.
  replace (0 <? count) with true by (symmetry; apply Z.ltb_lt; lia).
  unfold bind at 1. unfold ret at 1. unfold bind at 1.
  rewrite Z.sub_0_r, <- (Z2Nat.id count) at 1 by lia.
  rewrite (write_loop_overrun index (Z.to_nat count) 0 v s) by lia.
  rewrite Z.add_0_r. reflexivity.
Qed.

(** ** [mmap_read] on descriptors it was not given by [mmap_write] *)

(** X7: a one-pair descriptor that does not fit in the region makes
    [mmap_read] raise [ValueError], but [data_start] has been set to
    [offset + length] by then; a negative length raises before anything is
    stored. *)
Theorem mmap_read_one_out_of_range (bo : byteorder) (c : proc) (o l : Z) :
  4 <= size_of c ->
  (l < 0 -> mmap_read bo [(o, l)] c = (Raise ValueError, c)) /\
  (0 <= l -> o < 0 \/ size_of c < o + l ->
   mmap_read bo [(o, l)] c =
   (Raise ValueError, with_bytes c (write_at (bytes_of c) 0 (uint32_encode bo (o + l))))).
Proof.
  intros Hc. unfold mmap_read, int_from_buffer.
  rewrite (bind_ret _ _ _ _ _ (from_buffer_ok 4 0 c ltac:(lia) ltac:(lia))).
  unfold c_char_array. split.
  - intros Hl. replace (l <? 0) with true by (symmetry; apply Z.ltb_lt; lia).
    reflexivity.
  - intros Hl Hbad. replace (l <? 0) with false by (symmetry; apply Z.ltb_ge; lia).
    unfold bind at 1. unfold ret at 1. cbv beta iota.
    unfold bind at 1. unfold uint32_set at 1. cbv beta iota.
    change (Z.to_nat 0) with 0%nat.
    set (c1 := with_bytes _ _).
    assert (Hsz : size_of c1 = size_of c).
    { unfold size_of, c1, with_bytes, bytes_of. cbn [area buf].
      rewrite write_at_length; [reflexivity|].
      rewrite uint32_encode_length. unfold size_of, bytes_of in Hc. lia. }
    unfold bind. rewrite from_buffer_bad by lia. reflexivity.
Qed.

Lemma read_any (n : Z) (s : proc) :
  0 <= pos (area s) <= size_of s ->
  exists p',
    read n s = (Ret (piece (bytes_of s) (pos (area s), n)), with_pos s p').
Proof.
  intros Hp. unfold read, piece. cbv zeta. cbn [fst snd].
  eexists. f_equal. f_equal. unfold slice, size_of in *.
  set (b := bytes_of s) in *. set (p := pos (area s)) in *.
  destruct (n <? 0) eqn:E1; cbn [orb].
  - apply take_ge. rewrite length_drop.
    destruct (p <? _) eqn:E2; [apply Z.ltb_lt in E2 | apply Z.ltb_ge in E2]; lia.
  - apply Z.ltb_ge in E1.
    destruct (p <? _) eqn:E2; [apply Z.ltb_lt in E2 | apply Z.ltb_ge in E2].
    + destruct (_ - p <? n) eqn:E3; [|reflexivity].
      apply Z.ltb_lt in E3.
      rewrite !take_ge by (rewrite length_drop; lia). reflexivity.
    + destruct (0 <? n) eqn:E3; [|reflexivity].
      rewrite !take_ge by (rewrite length_drop; lia). reflexivity.
Qed.

Lemma piece_after_store (bo : byteorder) (b : list byte) (v : Z) (p : Z * Z) :
  (4 <= length b)%nat -> 4 <= fst p ->
  piece (write_at b 0 (uint32_encode bo v)) p = piece b p.
Proof.
  intros Hb Hp. unfold piece. destruct (snd p <? 0).
  - apply list_eq. intros i. rewrite !lookup_drop.
    apply write_at_lookup_ge; rewrite ?uint32_encode_length; lia.
  - apply slice_write_at_after; rewrite ?uint32_encode_length; lia.
Qed.

Lemma read_pairs_any (bo : byteorder) (ds : descr) : forall (acc : list (list byte)) (c : proc),
  4 <= size_of c ->
  Forall (fun p => 4 <= fst p <= size_of c) ds ->
  exists c',
    for_fold (fun data '(offset, length) =>
        seek offset ;;
        piece <- read length ;;
        uint32_set bo 0 (offset + length) ;;
        ret (data ++ [piece])) ds acc c
    = (Ret (acc ++ map (piece (bytes_of c)) ds), c') /\
    bytes_of c' = foldl (fun b p => write_at b 0 (uint32_encode bo (fst p + snd p)))
                        (bytes_of c) ds.
Proof.
  induction ds as [|[o l] ds IH]; intros acc c Hc Hds.
  - exists c. cbn [for_fold map foldl]. rewrite app_nil_r. split; reflexivity.
  - apply Forall_cons_1 in Hds as [Ho Hds]. cbn [fst snd] in *.
    cbn [for_fold]. cbv beta iota. unfold bind at 1.
    rewrite (bind_ret _ _ _ _ _ (seek_ok o c ltac:(lia))).
    destruct (read_any l (with_pos c o)) as (p' & Hread).
    { unfold size_of, with_pos, bytes_of in *. cbn [area buf pos] in *. lia. }
    rewrite (bind_ret _ _ _ _ _ Hread).
    unfold bind at 1. unfold uint32_set at 1. cbv beta iota. unfold ret at 1.
    change (Z.to_nat 0) with 0%nat.
    set (c1 := with_bytes _ _).
    assert (Hb1 : bytes_of c1 = write_at (bytes_of c) 0 (uint32_encode bo (o + l)))
      by reflexivity.
    assert (Hsz : size_of c1 = size_of c).
    { unfold size_of. rewrite Hb1, write_at_length; [reflexivity|].
      rewrite uint32_encode_length. unfold size_of in Hc. lia. }
    destruct (IH (acc ++ [piece (bytes_of (with_pos c o)) (pos (area (with_pos c o)), l)]) c1)
      as (c' & Hrun & Hb'); [lia | rewrite Hsz; exact Hds |].
    exists c'. rewrite Hrun. split; [|rewrite Hb', Hb1; reflexivity].
    f_equal. f_equal. rewrite <- app_assoc. cbn [map app]. f_equal.
    apply (f_equal2 cons); [reflexivity|].
    apply map_ext_in. intros q Hin.
    apply (proj1 (List.Forall_forall _ _) Hds) in Hin.
    rewrite Hb1. apply piece_after_store; unfold size_of in Hc; lia.
Qed.

(** X8: on a descriptor of two pairs (or more, or none) [mmap_read] checks
    no length: if every offset lies in the region it returns, and a pair
    whose length is negative or reaches past the end of the region yields
    the bytes up to the end of the region. *)
Theorem mmap_read_lengths_unchecked (bo : byteorder) (ds : descr) (c : proc) :
  length ds <> 1%nat -> 4 <= size_of c ->
  Forall (fun p => 4 <= fst p <= size_of c) ds ->
  exists c',
    mmap_read bo ds c = (Ret (Copy (concat (map (piece (bytes_of c)) ds))), c') /\
    bytes_of c' = foldl (fun b p => write_at b 0 (uint32_encode bo (fst p + snd p)))
                        (bytes_of c) ds.
Proof.
  intros Hn Hc Hds. unfold mmap_read, int_from_buffer.
  rewrite (bind_ret _ _ _ _ _ (from_buffer_ok 4 0 c ltac:(lia) ltac:(lia))).
  destruct (read_pairs_any bo ds [] c Hc Hds) as (c' & Hr & Hb).
  exists c'. split; [|exact Hb].
  destruct ds as [|[o l] [|q ds']]; [| simpl in Hn; lia |];
    (unfold bind at 1; rewrite Hr; reflexivity).
Qed.

(** ** What the two sides never touch *)

Lemma agree_from_refl (k : nat) (b : list byte) : agree_from k b b.
Proof. split; auto. Qed.

Lemma agree_from_trans (k : nat) (b1 b2 b3 : list byte) :
  agree_from k b1 b2 -> agree_from k b2 b3 -> agree_from k b1 b3.
Proof.
  intros [L1 H1] [L2 H2]. split; [congruence|].
  intros i Hi. rewrite H2, H1 by exact Hi. reflexivity.
Qed.

Lemma agree_below_refl (k : nat) (b : list byte) : agree_below k b b.
Proof. split; auto. Qed.

Lemma agree_below_trans (k : nat) (b1 b2 b3 : list byte) :
  agree_below k b1 b2 -> agree_below k b2 b3 -> agree_below k b1 b3.
Proof.
  intros [L1 H1] [L2 H2]. split; [congruence|].
  intros i Hi. rewrite H2, H1 by exact Hi. reflexivity.
Qed.

Lemma agree_from_store (bo : byteorder) (b : list byte) (v : Z) :
  (4 <= length b)%nat -> agree_from 4 b (write_at b 0 (uint32_encode bo v)).
Proof.
  intros Hb. split.
  - apply write_at_length. rewrite uint32_encode_length. lia.
  - intros i Hi. apply write_at_lookup_ge; rewrite ?uint32_encode_length; lia.
Qed.

Lemma agree_below_write (b : list byte) (p : nat) (d : list byte) (k : nat) :
  (k <= p)%nat -> (p + length d <= length b)%nat ->
  agree_below k b (write_at b p d).
Proof.
  intros Hk Hl. split.
  - apply write_at_length. lia.
  - intros i Hi. apply write_at_lookup_lt; lia.
Qed.

Lemma seek_cases (p : Z) (s : proc) :
  seek p s = (Raise ValueError, s) \/
  (0 <= p <= size_of s /\ seek p s = (Ret tt, with_pos s p)).
Proof.
  unfold seek.
  destruct (p <? 0) eqn:E1; [left; reflexivity|].
  destruct (size_of s <? p) eqn:E2; [left; reflexivity|].
  right. apply Z.ltb_ge in E1, E2. split; [lia | reflexivity].
Qed.

Lemma write_cases (d : list byte) (s : proc) :
  write d s = (Raise ValueError, s) \/
  (pos (area s) + Z.of_nat (length d) <= size_of s /\
   write d s = (Ret tt, Proc (MMap (write_at (bytes_of s) (Z.to_nat (pos (area s))) d)
                                   (pos (area s) + Z.of_nat (length d))) (logged s))).
Proof.
  unfold write. cbv zeta.
  destruct (size_of s <? pos (area s)) eqn:E1; [left; reflexivity|].
  destruct (size_of s - pos (area s) <? Z.of_nat (length d)) eqn:E2; [left; reflexivity|].
  right. apply Z.ltb_ge in E1, E2. split; [lia | reflexivity].
Qed.

Lemma read_loop_frame (bo : byteorder) (ds : descr) :
  forall (acc : list (list byte)) (c c' : proc) (r : outcome (list (list byte))),
  4 <= size_of c ->
  for_fold (fun data '(offset, length) =>
      seek offset ;;
      piece <- read length ;;
      uint32_set bo 0 (offset + length) ;;
      ret (data ++ [piece])) ds acc c = (r, c') ->
  agree_from 4 (bytes_of c) (bytes_of c') /\ logged c' = logged c.
Proof.
  induction ds as [|[o l] ds IH]; intros acc c c' r Hc H.
  - cbn in H. injection H as _ <-. split; [apply agree_from_refl | reflexivity].
  - cbn [for_fold] in H. cbv beta iota in H. unfold bind at 1 in H.
    unfold bind at 1 in H.
    destruct (seek_cases o c) as [Hs | [Ho Hs]]; rewrite Hs in H.
    { injection H as _ <-. split; [apply agree_from_refl | reflexivity]. }
    unfold bind at 1 in H. unfold read at 1 in H. cbv zeta beta iota in H.
    unfold bind at 1 in H. unfold uint32_set at 1 in H. cbv beta iota in H.
    unfold ret at 1 in H. change (Z.to_nat 0) with 0%nat in H.
    match type of H with
    | for_fold _ _ _ ?c1 = _ => set (s1 := c1) in H
    end.
    assert (Hb1 : bytes_of s1 = write_at (bytes_of c) 0 (uint32_encode bo (o + l)))
      by reflexivity.
    assert (Hsz : size_of s1 = size_of c).
    { unfold size_of. rewrite Hb1, write_at_length; [reflexivity|].
      rewrite uint32_encode_length. unfold size_of in Hc. lia. }
    apply IH in H as [Ha Hlog]; [|lia]. split; [|exact Hlog].
    eapply agree_from_trans; [|exact Ha]. rewrite Hb1.
    apply agree_from_store. unfold size_of in Hc. lia.
Qed.

(** X9: whatever descriptor it is given and however it ends, with a result
    or with an exception, [mmap_read] leaves the region at its length and
    changes no byte from index 4 on: neither [data_end] nor the data
    area. *)
Theorem mmap_read_touches_only_data_start (bo : byteorder) (ds : descr)
    (c c' : proc) (r : outcome read_result) :
  mmap_read bo ds c = (r, c') ->
  agree_from 4 (bytes_of c) (bytes_of c') /\ logged c' = logged c.
Proof.
  unfold mmap_read, int_from_buffer. intros H.
  unfold bind at 1 in H. unfold from_buffer at 1 in H.
  destruct ((0 <? 0) || (size_of c <? 0 + 4)) eqn:E.
  { injection H as _ <-. split; [apply agree_from_refl | reflexivity]. }
  apply orb_false_elim in E as [_ E]. apply Z.ltb_ge in E.
  assert (Hmany : forall r0 c0,
            bind (for_fold (fun data '(offset, length) =>
                    seek offset ;;
                    piece <- read length ;;
                    uint32_set bo 0 (offset + length) ;;
                    ret (data ++ [piece])) ds [])
                 (fun data => ret (Copy (concat data))) c = (r0, c0) ->
            agree_from 4 (bytes_of c) (bytes_of c0) /\ logged c0 = logged c).
  { intros r0 c0 H0. unfold bind in H0.
    destruct (for_fold _ ds [] c) as [[data|e] c1] eqn:Ef.
    - unfold ret in H0. injection H0 as _ <-. eapply read_loop_frame; [|exact Ef]. lia.
    - injection H0 as _ <-. eapply read_loop_frame; [|exact Ef]. lia. }
  destruct ds as [|[o l] [|q ds']]; [apply (Hmany r c' H) | | apply (Hmany r c' H)].
  clear Hmany. unfold c_char_array in H.
  destruct (l <? 0).
  { injection H as _ <-. split; [apply agree_from_refl | reflexivity]. }
  unfold bind at 1 in H. unfold ret at 1 in H.
  unfold bind at 1 in H. unfold uint32_set at 1 in H. cbv beta iota in H.
  change (Z.to_nat 0) with 0%nat in H.
  unfold bind in H. unfold from_buffer, ret in H.
  assert (Ha : agree_from 4 (bytes_of c)
                 (write_at (bytes_of c) 0 (uint32_encode bo (o + l))))
    by (apply agree_from_store; unfold size_of in E; lia).
  destruct (_ || _); injection H as _ <-; split; (exact Ha || reflexivity).
Qed.

Lemma seek_write_any {A} (p : Z) (d : list byte) (k : unit -> M A)
    (s s' : proc) (r : outcome A) :
  4 <= p ->
  bind (seek p) (fun _ => bind (write d) k) s = (r, s') ->
  bytes_of s' = bytes_of s \/
  exists s1,
    agree_below 4 (bytes_of s) (bytes_of s1) /\ k tt s1 = (r, s').
Proof.
  intros Hp H. unfold bind at 1 in H.
  destruct (seek_cases p s) as [Hs | [Hr Hs]]; rewrite Hs in H.
  { injection H as _ <-. left. reflexivity. }
  unfold bind at 1 in H.
  destruct (write_cases d (with_pos s p)) as [Hw | [Hl Hw]]; rewrite Hw in H.
  { injection H as _ <-. left. reflexivity. }
  right. eexists. split; [|exact H].
  unfold bytes_of at 2. cbn [buf area].
  change (bytes_of (with_pos s p)) with (bytes_of s).
  change (pos (area (with_pos s p))) with p in *.
  change (size_of (with_pos s p)) with (size_of s) in Hl.
  apply agree_below_write; unfold size_of in *; lia.
Qed.

Lemma set_end_any {A} (bo : byteorder) (v : Z) (x : A) (s s' : proc) (r : outcome A) :
  8 <= size_of s ->
  bind (uint32_set bo 4 v) (fun _ => ret x) s = (r, s') ->
  agree_below 4 (bytes_of s) (bytes_of s').
Proof.
  intros Hs H. unfold bind, uint32_set, ret in H. injection H as _ <-.
  unfold with_bytes, bytes_of. cbn [buf area]. change (Z.to_nat 4) with 4%nat.
  apply agree_below_write; [lia|].
  rewrite uint32_encode_length. unfold size_of, bytes_of in Hs. lia.
Qed.

Lemma agree_below_data_start (bo : byteorder) (b b' : list byte) :
  agree_below 4 b b' -> data_start bo b' = data_start bo b.
Proof.
  intros [_ H]. unfold data_start. f_equal. apply list_eq. intros i.
  rewrite !slice_lookup. destruct (decide (i < 4)%nat); [|reflexivity].
  apply H. lia.
Qed.

(** X10: whatever the cursors hold and however it ends, with a descriptor,
    a refusal or an exception, [mmap_write] leaves the region at its length
    and never changes the consumer's cursor [data_start]. *)
Theorem mmap_write_keeps_data_start (bo : byteorder) (N : Z) (data : list byte)
    (s s' : proc) (r : outcome (option descr * Z)) :
  mmap_write bo N data s = (r, s') ->
  length (bytes_of s') = length (bytes_of s) /\
  data_start bo (bytes_of s') = data_start bo (bytes_of s).
Proof.
  intros H.
  assert (Hg : agree_below 4 (bytes_of s) (bytes_of s')).
  2:{ split; [apply Hg | apply agree_below_data_start, Hg]. }
  assert (Hsame : forall t, bytes_of t = bytes_of s -> agree_below 4 (bytes_of s) (bytes_of t))
    by (intros t ->; apply agree_below_refl).
  unfold mmap_write, int_from_buffer in H.
  unfold bind at 1 in H. unfold from_buffer at 1 in H.
  destruct ((0 <? 0) || (size_of s <? 0 + 4)) eqn:E0.
  { injection H as _ <-. apply agree_below_refl. }
  unfold bind at 1 in H. unfold from_buffer at 1 in H.
  destruct ((4 <? 0) || (size_of s <? 4 + 4)) eqn:E.
  { injection H as _ <-. apply agree_below_refl. }
  apply orb_false_elim in E as [_ E]. apply Z.ltb_ge in E.
  unfold bind at 1 in H. unfold uint32_value at 1 in H. cbv beta iota in H.
  unfold bind at 1 in H. unfold uint32_value at 1 in H. cbv beta iota zeta in H.
  destruct (free_space _ _ _) as [available chunk].
  unfold memoryview_to_bytes in H.
  destruct (N - 8 <? _).
  { unfold bind, warn, ret in H. injection H as _ <-. apply agree_below_refl. }
  destruct (available - _ <=? 0).
  { unfold bind, warn, ret in H. injection H as _ <-. apply agree_below_refl. }
  assert (Hlast : forall (s1 : proc) v (x : option descr * Z),
            agree_below 4 (bytes_of s) (bytes_of s1) ->
            bind (uint32_set bo 4 v) (fun _ => ret x) s1 = (r, s') ->
            agree_below 4 (bytes_of s) (bytes_of s')).
  { intros s1 v x Ha H1. eapply agree_below_trans; [exact Ha|].
    eapply set_end_any; [|exact H1].
    destruct Ha as [Hl _]. unfold size_of in *. lia. }
  destruct (_ <? chunk); [|destruct (_ && _ && _)].
  - apply seek_write_any in H as [Hb | (s1 & Ha & H)]; [auto | | lia].
    eapply Hlast; eauto.
  - apply seek_write_any in H as [Hb | (s1 & Ha & H)]; [auto | | lia].
    eapply Hlast; eauto.
  - apply seek_write_any in H as [Hb | (s1 & Ha & H)]; [auto | | lia].
    apply seek_write_any in H as [Hb | (s2 & Ha2 & H)]; [| | lia].
    + rewrite Hb. exact Ha.
    + eapply Hlast; [|exact H]. eapply agree_below_trans; eauto.
Qed.

(** ** What a successful write changes *)

Lemma slice_agree (b b' : list byte) (p n : nat) :
  (forall i, (p <= i < p + n)%nat -> b' !! i = b !! i) ->
  slice b' p n = slice b p n.
Proof.
  intros H. apply list_eq. intros i. rewrite !slice_lookup.
  destruct (decide (i < n)%nat); [|reflexivity]. apply H. lia.
Qed.

Lemma stored_agree (b b' : list byte) (d : descr) :
  Forall (fun q => 0 <= fst q /\
            forall i, fst q <= Z.of_nat i < fst q + snd q -> b' !! i = b !! i) d ->
  stored b' d = stored b d.
Proof.
  intros H. unfold stored. f_equal. apply map_ext_in. intros q Hq.
  apply (proj1 (List.Forall_forall _ _) H) in Hq as [Hq0 Hq].
  apply slice_agree. intros i Hi. apply Hq. lia.
Qed.

Lemma outside_cons (p : Z * Z) (d : descr) (i : nat) :
  outside (p :: d) i <-> ~ (fst p <= Z.of_nat i < fst p + snd p) /\ outside d i.
Proof. unfold outside. rewrite Forall_cons. reflexivity. Qed.

Lemma write_at_lookup_out (b : list byte) (p : nat) (d : list byte) (i : nat) :
  (p + length d <= length b)%nat -> ~ (p <= i < p + length d)%nat ->
  write_at b p d !! i = b !! i.
Proof.
  intros Hl Hi. destruct (decide (i < p)%nat).
  - apply write_at_lookup_lt; lia.
  - apply write_at_lookup_ge; lia.
Qed.

(** A write that hands back a descriptor, on a region of the size it was
    told: the region keeps its length and its read cursor, the pairs of the
    descriptor lie in the data area and hold the payload, the write cursor
    stands at the end of the last pair, and no other byte of the data area
    has changed. *)
Lemma mmap_write_effect (bo : byteorder) (N : Z) (data : list byte)
    (s s' : proc) (d : descr) (f : Z) :
  size_of s = N -> N <= 2 ^ 32 ->
  mmap_write bo N data s = (Ret (Some d, f), s') ->
  length (bytes_of s') = length (bytes_of s) /\
  data_start bo (bytes_of s') = data_start bo (bytes_of s) /\
  stored (bytes_of s') d = data /\
  Forall (in_data_area N) d /\
  (exists p, last d = Some p /\ clamped_end bo (bytes_of s') = fst p + snd p) /\
  (forall i, (8 <= i)%nat -> outside d i -> bytes_of s' !! i = bytes_of s !! i).
Proof.
  intros HN H32 H. apply mmap_write_inv in H. cbv zeta in H.
  destruct H as (Hsz & Hl & Hf & _ & _ & H).
  assert (Hlen : (8 <= length (bytes_of s))%nat) by (unfold size_of in *; lia).
  pose proof (data_start_range bo (bytes_of s) Hlen) as Rs.
  pose proof (data_end_range bo (bytes_of s) Hlen) as Re.
  revert Hf H. unfold free_space, clamped_end.
  set (b := bytes_of s) in *.
  set (start := Z.max 8 (data_start bo b)).
  set (end_ := Z.max 8 (data_end bo b)).
  set (L := Z.of_nat (length data)).
  intros Hf H.
  assert (Hone : forall o, 8 <= o -> o + L <= size_of s -> o + L < 2 ^ 32 ->
            bytes_of s' = write_at (write_at b (Z.to_nat o) data) 4
                                   (uint32_encode bo (o + L)) ->
            length (bytes_of s') = length b /\
            data_start bo (bytes_of s') = data_start bo b /\
            stored (bytes_of s') [(o, L)] = data /\
            Forall (in_data_area N) [(o, L)] /\
            (exists p, last [(o, L)] = Some p /\
               Z.max 8 (data_end bo (bytes_of s')) = fst p + snd p) /\
            (forall i, (8 <= i)%nat -> outside [(o, L)] i -> bytes_of s' !! i = b !! i)).
  { intros o Ho Hol Ho32 Hb.
    destruct (payload_written bo b (Z.to_nat o) data) as (X1 & X2);
      [lia | unfold size_of, L, b in *; lia |].
    destruct (cursors_after_write bo b _ (o + L) Hlen X1 X2 ltac:(lia))
      as (Y1 & Y2 & Y3).
    rewrite Hb. repeat split; try assumption.
    - unfold stored. cbn [map concat fst snd]. rewrite app_nil_r.
      rewrite slice_write_at_after by (rewrite ?uint32_encode_length; lia).
      unfold L. rewrite Nat2Z.id. apply slice_write_at_same.
      unfold size_of, L, b in *. lia.
    - repeat constructor; cbn [fst snd]; unfold L, size_of, b in *; lia.
    - exists (o, L). split; [reflexivity|]. rewrite Y3. cbn [fst snd]. lia.
    - intros i Hi Hout. apply outside_cons in Hout as [Hout _]. cbn [fst snd] in Hout.
      rewrite write_at_lookup_ge by (rewrite ?uint32_encode_length; lia).
      apply write_at_lookup_out; unfold size_of, L, b in *; lia. }
  destruct H as [(C & Hw & -> & Hb) | [(C & (A1 & A2 & A3) & Hw & -> & Hb)
                                      | (C & A & Hw1 & Hw2 & -> & Hb)]].
  - apply Hone; try assumption; try lia.
    destruct (end_ <? start) eqn:E; cbn [fst snd] in *;
      [apply Z.ltb_lt in E | apply Z.ltb_ge in E]; lia.
  - apply Hone; try assumption; lia.
  - clear Hone.
    destruct (end_ <? start) eqn:Ewrap; cbn [fst snd] in *;
      [apply Z.ltb_lt in Ewrap; lia | apply Z.ltb_ge in Ewrap].
    set (chunk := N - end_) in *.
    assert (Hchunk : 0 <= chunk).
    { pose proof (Nat2Z.is_nonneg (length (py_slice_to data chunk))). unfold chunk. lia. }
    pose proof (py_slice_to_length data chunk ltac:(unfold L in *; lia)) as L1.
    pose proof (py_slice_from_length data chunk ltac:(unfold L in *; lia)) as L2.
    set (D1 := py_slice_to data chunk) in *. set (D2 := py_slice_from data chunk) in *.
    destruct (payload_written bo b (Z.to_nat end_) D1) as (X1 & X2);
      [lia | unfold size_of, b in *; lia |].
    destruct (payload_written bo (write_at b (Z.to_nat end_) D1) 8 D2) as (X3 & X4);
      [lia | unfold size_of, b in *; lia |].
    rewrite X1 in X3. rewrite X2 in X4.
    destruct (cursors_after_write bo b _ (8 + (L - chunk)) Hlen X3 X4
                ltac:(unfold L in *; lia)) as (Y1 & Y2 & Y3).
    rewrite Hb. repeat split; try assumption.
    + unfold stored. cbn [map concat fst snd]. rewrite app_nil_r.
      rewrite !slice_write_at_after
        by (rewrite ?uint32_encode_length; unfold L in *; lia).
      replace (Z.to_nat chunk) with (length D1) by lia.
      rewrite slice_write_at_same by (unfold size_of, b in *; lia).
      replace (Z.to_nat (L - chunk)) with (length D2) by (unfold L; lia).
      change (Z.to_nat 8) with 8%nat.
      rewrite (slice_write_at_after _ 4) by (rewrite ?uint32_encode_length; lia).
      rewrite slice_write_at_same by lia.
      apply py_slice_to_from.
    + repeat constructor; cbn [fst snd]; unfold L, chunk, size_of, b in *; lia.
    + exists (8, L - chunk). split; [reflexivity|]. rewrite Y3. cbn [fst snd].
      unfold L in *. lia.
    + intros i Hi Hout. apply outside_cons in Hout as [O1 Hout].
      apply outside_cons in Hout as [O2 _]. cbn [fst snd] in O1, O2.
      rewrite write_at_lookup_ge by (rewrite ?uint32_encode_length; lia).
      rewrite write_at_lookup_out by (unfold L, size_of, b in *; lia).
      apply write_at_lookup_out; unfold size_of, b in *; lia.
Qed.

(** X11: a write that hands back a descriptor changes, in the data area,
    only bytes inside the pairs of that descriptor; the pairs hold the
    payload, and the region keeps its length and its [data_start]. *)
Theorem mmap_write_frame (bo : byteorder) (N : Z) (data : list byte)
    (s s' : proc) (d : descr) (f : Z) (i : nat) :
  size_of s = N -> N <= 2 ^ 32 ->
  mmap_write bo N data s = (Ret (Some d, f), s') ->
  length (bytes_of s') = length (bytes_of s) /\
  data_start bo (bytes_of s') = data_start bo (bytes_of s) /\
  stored (bytes_of s') d = data /\
  ((8 <= i)%nat -> outside d i -> bytes_of s' !! i = bytes_of s !! i).
Proof.
  intros HN H32 H.
  destruct (mmap_write_effect bo N data s s' d f HN H32 H) as (E1 & E2 & E3 & _ & _ & E6).
  repeat split; try assumption. apply E6.
Qed.

(** X12: the free size a successful write reports is the space the next
    write will find (with [data_start] unchanged), except when the payload
    was restarted at offset 8: then the tail from the old [data_end] to the
    end of the region is given up and counts as used. *)
Theorem mmap_write_free_is_next_available (bo : byteorder) (N : Z) (data : list byte)
    (s s' : proc) (d : descr) (f : Z) :
  N <= 2 ^ 32 ->
  mmap_write bo N data s = (Ret (Some d, f), s') ->
  available_in bo N (bytes_of s') =
  if bool_decide (d = [(8, Z.of_nat (length data))] /\ clamped_end bo (bytes_of s) <> 8)
  then f - (N - clamped_end bo (bytes_of s))
  else f.
Proof.
  intros H32 H. apply mmap_write_inv in H. cbv zeta in H.
  destruct H as (Hsz & Hl & Hf & -> & _ & H).
  assert (Hlen : (8 <= length (bytes_of s))%nat) by (unfold size_of in *; lia).
  pose proof (data_start_range bo (bytes_of s) Hlen) as Rs.
  pose proof (data_end_range bo (bytes_of s) Hlen) as Re.
  unfold available_in, clamped_start, clamped_end.
  revert Hf H. unfold free_space.
  set (start := Z.max 8 (data_start bo (bytes_of s))).
  set (end_ := Z.max 8 (data_end bo (bytes_of s))).
  set (L := Z.of_nat (length data)).
  intros Hf H.
  assert (Hnew : forall X v,
            length X = length (bytes_of s) ->
            data_start bo X = data_start bo (bytes_of s) ->
            0 <= v < 2 ^ 32 -> 8 <= v ->
            bytes_of s' = write_at X 4 (uint32_encode bo v) ->
            (if Z.max 8 (data_end bo (bytes_of s')) <? Z.max 8 (data_start bo (bytes_of s'))
             then (Z.max 8 (data_start bo (bytes_of s')) - Z.max 8 (data_end bo (bytes_of s')),
                   Z.max 8 (data_start bo (bytes_of s')) - Z.max 8 (data_end bo (bytes_of s')))
             else (N - Z.max 8 (data_end bo (bytes_of s'))
                   + (Z.max 8 (data_start bo (bytes_of s')) - 8),
                   N - Z.max 8 (data_end bo (bytes_of s')))).1
            = if v <? start then start - v else N - v + (start - 8)).
  { intros X v X1 X2 Hv Hv8 Hb.
    destruct (cursors_after_write bo (bytes_of s) X v Hlen X1 X2 Hv) as (Y1 & Y2 & Y3).
    rewrite Hb, Y2, Y3. fold start.
    replace (Z.max 8 v) with v by lia.
    destruct (v <? start); reflexivity. }
  destruct H as [(C & Hw & -> & Hb) | [(C & (A1 & A2 & A3) & Hw & -> & Hb)
                                      | (C & A & Hw1 & Hw2 & -> & Hb)]].
  - destruct (payload_written bo (bytes_of s) (Z.to_nat end_) data) as (X1 & X2);
      [lia | unfold size_of, L in *; lia |].
    assert (Hv : end_ + L < 2 ^ 32).
    { destruct (end_ <? start) eqn:E; cbn [fst snd] in *;
        [apply Z.ltb_lt in E | apply Z.ltb_ge in E]; lia. }
    rewrite (Hnew _ (end_ + L) X1 X2) by (exact Hb || lia).
    case_bool_decide as Hd.
    { destruct Hd as [Hd Hne]. injection Hd as Hd. lia. }
    destruct (end_ <? start) eqn:E; cbn [fst snd] in *;
      [apply Z.ltb_lt in E | apply Z.ltb_ge in E].
    + replace (end_ + L <? start) with true by (symmetry; apply Z.ltb_lt; lia). lia.
    + replace (end_ + L <? start) with false by (symmetry; apply Z.ltb_ge; lia). lia.
  - destruct (payload_written bo (bytes_of s) 8 data) as (X1 & X2);
      [lia | unfold size_of, L in *; lia |].
    rewrite (Hnew _ (8 + L) X1 X2) by (exact Hb || lia).
    replace (8 + L <? start) with true by (symmetry; apply Z.ltb_lt; lia).
    destruct (end_ <? start) eqn:E; cbn [fst snd] in *;
      [apply Z.ltb_lt in E; lia | apply Z.ltb_ge in E].
    rewrite bool_decide_eq_true_2 by (split; [reflexivity | lia]). lia.
  - destruct (end_ <? start) eqn:E; cbn [fst snd] in *;
      [apply Z.ltb_lt in E; lia | apply Z.ltb_ge in E].
    set (chunk := N - end_) in *.
    destruct (payload_written bo (bytes_of s) (Z.to_nat end_) (py_slice_to data chunk))
      as (X1 & X2); [lia | unfold size_of in *; lia |].
    destruct (payload_written bo (write_at (bytes_of s) (Z.to_nat end_) (py_slice_to data chunk))
                8 (py_slice_from data chunk)) as (X3 & X4);
      [lia | unfold size_of in *; lia |].
    rewrite X1 in X3. rewrite X2 in X4.
    rewrite (Hnew _ (8 + (L - chunk)) X3 X4) by (exact Hb || lia).
    replace (8 + (L - chunk) <? start) with true by (symmetry; apply Z.ltb_lt; lia).
    rewrite bool_decide_eq_false_2 by (intros [Hd _]; discriminate Hd). lia.
Qed.

(** ** Payloads arrive in order and intact *)

Lemma mmap_read_contents (bo : byteorder) (c : proc) (d : descr) (p : Z * Z) :
  Forall (in_data_area (size_of c)) d -> last d = Some p ->
  exists r c',
    mmap_read bo d c = (Ret r, c') /\
    bytes_of c' = write_at (bytes_of c) 0 (uint32_encode bo (fst p + snd p)) /\
    contents (bytes_of c') r = stored (bytes_of c) d.
Proof.
  intros Hd Hlast.
  assert (Hin : in_data_area (size_of c) p).
  { apply (proj1 (List.Forall_forall _ _) Hd).
    apply list_elem_of_In, last_Some_elem_of. exact Hlast. }
  destruct Hin as (I1 & I2 & I3).
  assert (Hlen : (8 <= length (bytes_of c))%nat) by (unfold size_of in *; lia).
  destruct (decide (length d = 1%nat)) as [H1|H1].
  - destruct d as [|[o l] [|q d']]; try discriminate. injection Hlast as <-.
    cbn [fst snd] in *.
    eexists _, _. split; [apply mmap_read_one; lia|]. split; [reflexivity|].
    unfold with_bytes, bytes_of, stored. cbn [buf area contents map concat fst snd].
    rewrite app_nil_r.
    apply slice_write_at_after; rewrite ?uint32_encode_length; unfold bytes_of in *; lia.
  - eexists _, _. split.
    + apply mmap_read_many; [exact H1 | lia | apply in_data_area_weaken, Hd].
    + split; [|reflexivity]. unfold bytes_of at 1. cbn [buf area].
      apply store_each_last; [lia | exact Hlast].
Qed.

Lemma no_overlap_app_disjoint (N : Z) (P D : list (Z * Z)) (q r : Z * Z) :
  no_overlap N (P ++ D) -> In q P -> In r D -> disjoint q r.
Proof.
  intros [_ H] Hq Hr.
  apply list_elem_of_In, list_elem_of_lookup in Hq as [i Hi].
  apply list_elem_of_In, list_elem_of_lookup in Hr as [j Hj].
  apply (H i (length P + j)%nat).
  - apply lookup_lt_Some in Hi. lia.
  - apply lookup_app_l_Some. exact Hi.
  - rewrite lookup_app_r by lia. rewrite <- Hj. f_equal. lia.
Qed.

Lemma Forall2_stored_agree (b b' : list byte) (q : list descr) (unread : list (list byte)) :
  Forall (fun d0 => stored b' d0 = stored b d0) q ->
  Forall2 (fun d p => stored b d = p) q unread ->
  Forall2 (fun d p => stored b' d = p) q unread.
Proof.
  intros Ha H. induction H as [|d p q unread Hd H IH]; [constructor|].
  apply Forall_cons_1 in Ha as [Ha1 Ha2].
  constructor; [congruence | apply IH, Ha2].
Qed.

Lemma exchange_write_preserves (bo : byteorder) (N : Z) (payload : list byte) (x : exchange) :
  8 <= N <= 2 ^ 32 -> exchange_inv bo N x ->
  exists x', exchange_step bo N (DoWrite payload) x = Some x' /\ exchange_inv bo N x'.
Proof.
  intros HN (Hring & HJ & unread & Hsent & Hst).
  destruct x as [[b pp cp q] se re]. cbn [chan sent received shared live] in *.
  destruct (step_write_preserves bo N payload _ HN Hring) as (c1 & Hstep & Hring1).
  pose proof (ring_inv_no_overlap bo N _ ltac:(lia) Hring) as Hno.
  pose proof (ring_inv_no_overlap bo N _ ltac:(lia) Hring1) as Hno1.
  pose proof Hring as (Hlen & Hs & He & Hlast & Hlay).
  cbn [shared live] in Hlen, Hs, He.
  unfold step in Hstep. unfold exchange_step. cbn [chan shared producer_pos consumer_pos live] in *.
  set (s := Proc (MMap b pp) []) in *.
  assert (Hsz : size_of s = N) by exact Hlen.
  destruct (Z_lt_le_dec (N - 8) (Z.of_nat (length payload))) as [Hl|Hl].
  { rewrite mmap_write_too_large by lia. eexists. split; [reflexivity|].
    split; [exact Hring|]. split; [exact HJ|]. eauto. }
  set (free := fst (free_space N (Z.max 8 (data_start bo (bytes_of s)))
                       (Z.max 8 (data_end bo (bytes_of s)))) - Z.of_nat (length payload)).
  destruct (Z_le_gt_dec free 0) as [Hf|Hf].
  { rewrite mmap_write_full by (fold free; lia). eexists. split; [reflexivity|].
    split; [exact Hring|]. split; [exact HJ|]. eauto. }
  destruct (mmap_write_succeeds bo N payload s) as (d & s' & H);
    try assumption; try lia.
  rewrite H in Hstep |- *. injection Hstep as <-.
  eexists. split; [reflexivity|].
  destruct (mmap_write_effect bo N payload s s' d _ Hsz ltac:(lia) H)
    as (E1 & E2 & E3 & E4 & (p & Hp & E5) & E6).
  rewrite live_pairs_snoc in Hno1.
  unfold exchange_inv. cbn [chan sent received shared live].
  split; [exact Hring1|]. split.
  - rewrite live_pairs_snoc, last_app, Hp. exact E5.
  - exists (unread ++ [payload]). split; [rewrite Hsent, app_assoc; reflexivity|].
    apply Forall2_app; [|repeat constructor; exact E3].
    apply (Forall2_stored_agree b); [|exact Hst].
    apply List.Forall_forall. intros d0 Hd0. apply stored_agree.
    apply List.Forall_forall. intros t Ht.
    assert (Htq : In t (concat q)) by (apply in_concat; eauto).
    destruct Hno as [Hall _]. unfold live_pairs in Hall. cbn [live] in Hall.
    apply (proj1 (List.Forall_forall _ _) Hall) in Htq as Harea.
    destruct Harea as (T1 & T2 & T3). split; [lia|].
    intros i Hi. apply E6; [lia|].
    apply List.Forall_forall. intros r Hr.
    pose proof (no_overlap_app_disjoint N _ _ t r Hno1 Htq Hr) as [Hd|Hd]; lia.
Qed.

Lemma exchange_read_preserves (bo : byteorder) (N : Z) (x : exchange) :
  8 <= N <= 2 ^ 32 -> exchange_inv bo N x ->
  exists x', exchange_step bo N DoRead x = Some x' /\ exchange_inv bo N x'.
Proof.
  intros HN (Hring & HJ & unread & Hsent & Hst).
  destruct x as [[b pp cp q] se re]. cbn [chan sent received shared live] in *.
  destruct (step_read_preserves bo N _ HN Hring) as (c1 & Hstep & Hring1).
  pose proof (ring_inv_no_overlap bo N _ ltac:(lia) Hring) as [Hall _].
  pose proof Hring as (Hlen & Hs & He & Hlast & Hlay).
  cbn [shared live] in Hlen, Hs, He, Hlast. unfold live_pairs in *. cbn [live] in *.
  unfold step in Hstep. unfold exchange_step. cbn [chan shared producer_pos consumer_pos live] in *.
  destruct q as [|d rest].
  { eexists. split; [reflexivity|]. split; [exact Hring|]. split; [exact HJ|]. eauto. }
  cbn [concat] in *.
  apply Forall_cons_1 in Hlast as [(p & Hp & Hpn) Hlast].
  apply Forall_app in Hall as [Hd Hrest].
  set (s := Proc (MMap b cp) []) in *.
  assert (Hsz : size_of s = N) by exact Hlen.
  destruct (mmap_read_contents bo s d p) as (r & s' & Hr & Hb & Hcont);
    [rewrite Hsz; exact Hd | exact Hp |].
  rewrite Hr in Hstep |- *. injection Hstep as <-.
  eexists. split; [reflexivity|].
  assert (Hpin : in_data_area N p).
  { apply (proj1 (List.Forall_forall _ _) Hd).
    apply list_elem_of_In, last_Some_elem_of. exact Hp. }
  destruct Hpin as (P1 & P2 & P3).
  change (bytes_of s) with b in Hb, Hcont.
  assert (Y2 : data_start bo (bytes_of s') = fst p + snd p)
    by (rewrite Hb, data_start_set by lia; apply Z.mod_small; lia).
  assert (Y3 : data_end bo (bytes_of s') = data_end bo b)
    by (rewrite Hb; apply data_end_set_start; lia).
  apply Forall2_cons_inv_l in Hst as (p0 & unread' & Hp0 & Hst & ->).
  unfold exchange_inv, live_pairs. cbn [chan sent received shared live].
  split; [exact Hring1|]. split.
  - unfold clamped_start, clamped_end in *. rewrite Y2, Y3.
    rewrite last_app in HJ. destruct (last (concat rest)) as [t|].
    + exact HJ.
    + rewrite Hp in HJ. lia.
  - exists unread'. split.
    + rewrite Hsent, Hcont, Hp0, <- app_assoc. reflexivity.
    + apply (Forall2_stored_agree b); [|exact Hst].
      apply List.Forall_forall. intros d0 Hd0. apply stored_agree.
      apply List.Forall_forall. intros t Ht.
      assert (Htq : In t (concat rest)) by (apply in_concat; eauto).
      apply (proj1 (List.Forall_forall _ _) Hrest) in Htq as (T1 & T2 & T3).
      split; [lia|]. intros i Hi. rewrite Hb.
      apply write_at_lookup_ge; rewrite ?uint32_encode_length; lia.
Qed.

Lemma exchange_run_preserves (bo : byteorder) (N : Z) (ops : list op) : forall x : exchange,
  8 <= N <= 2 ^ 32 -> exchange_inv bo N x ->
  exists x', exchange_run bo N ops x = Some x' /\ exchange_inv bo N x'.
Proof.
  induction ops as [|o ops IH]; intros x HN Hinv.
  - exists x. split; [reflexivity | exact Hinv].
  - cbn [exchange_run].
    assert (Hstep : exists x1, exchange_step bo N o x = Some x1 /\ exchange_inv bo N x1).
    { destruct o as [payload|].
      - apply exchange_write_preserves; assumption.
      - apply exchange_read_preserves; assumption. }
    destruct Hstep as (x1 & -> & Hinv1). apply IH; assumption.
Qed.

Lemma exchange_inv_fresh (bo : byteorder) (N : Z) (b : list byte) (pp cp : Z) :
  8 <= N -> Z.of_nat (length b) = N ->
  data_start bo b = 0 -> data_end bo b = 0 ->
  exchange_inv bo N (Exchange (Channel b pp cp []) [] []).
Proof.
  intros HN Hlen Hs He. split; [apply ring_inv_fresh; assumption|]. split.
  - cbn. unfold clamped_start, clamped_end. rewrite Hs, He. reflexivity.
  - exists []. split; [reflexivity | constructor].
Qed.

(** X13: over a region with zeroed cursors, whatever the two sides do (any
    sequence of writes and in-order reads), no call raises, the consumer
    has received exactly the first payloads the producer got accepted, in
    order and byte for byte, and each payload still in flight is what its
    descriptor names in the region. *)
Theorem exchange_delivers_in_order (bo : byteorder) (N : Z) (ops : list op)
    (b : list byte) (pp cp : Z) :
  8 <= N <= 2 ^ 32 -> Z.of_nat (length b) = N ->
  data_start bo b = 0 -> data_end bo b = 0 ->
  exists x unread,
    exchange_run bo N ops (Exchange (Channel b pp cp []) [] []) = Some x /\
    sent x = received x ++ unread /\
    Forall2 (fun d p => stored (shared (chan x)) d = p) (live (chan x)) unread.
Proof.
  intros HN Hlen Hs He.
  destruct (exchange_run_preserves bo N ops (Exchange (Channel b pp cp []) [] []) HN)
    as (x & Hrun & _ & _ & unread & Hsent & Hst).
  - apply exchange_inv_fresh; auto with lia.
  - exists x, unread. auto.
Qed.

(** X14: once every descriptor has been read, everything sent has been
    received and the whole data area is free again: the next write finds
    [N - 8] bytes available wherever the cursors stand, and accepts any
    payload shorter than that. *)
Theorem drained_ring_is_free (bo : byteorder) (N : Z) (ops : list op)
    (b : list byte) (pp cp : Z) (x : exchange) (payload : list byte) :
  8 <= N <= 2 ^ 32 -> Z.of_nat (length b) = N ->
  data_start bo b = 0 -> data_end bo b = 0 ->
  exchange_run bo N ops (Exchange (Channel b pp cp []) [] []) = Some x ->
  live (chan x) = [] ->
  Z.of_nat (length payload) < N - 8 ->
  received x = sent x /\
  available_in bo N (shared (chan x)) = N - 8 /\
  exists d f s',
    mmap_write bo N payload (Proc (MMap (shared (chan x)) (producer_pos (chan x))) [])
    = (Ret (Some d, f), s').
Proof.
  intros HN Hlen Hs He Hrun Hlive Hpay.
  destruct (exchange_run_preserves bo N ops (Exchange (Channel b pp cp []) [] []) HN)
    as (x' & Hrun' & Hring & HJ & unread & Hsent & Hst).
  - apply exchange_inv_fresh; auto with lia.
  - rewrite Hrun in Hrun'. injection Hrun' as <-.
    unfold live_pairs in HJ. rewrite Hlive in *. cbn [concat last] in HJ.
    apply Forall2_nil_inv_l in Hst as ->. rewrite app_nil_r in Hsent.
    assert (Hav : available_in bo N (shared (chan x)) = N - 8).
    { unfold available_in, free_space. rewrite HJ.
      replace (_ <? _) with false by (symmetry; apply Z.ltb_ge; lia).
      cbn [fst]. lia. }
    split; [congruence|]. split; [exact Hav|].
    destruct Hring as (R1 & R2 & R3 & _).
    destruct (mmap_write_succeeds bo N payload
                (Proc (MMap (shared (chan x)) (producer_pos (chan x))) []))
      as (d & s' & H); try assumption; try lia.
    + unfold available_in, clamped_start, clamped_end in Hav.
      change (bytes_of (Proc (MMap (shared (chan x)) (producer_pos (chan x))) []))
        with (shared (chan x)).
      rewrite Hav. lia.
    + eauto.
Qed.

(** ** The server side: opening, verifying, cleaning up *)

(** X15: on a Windows host [init_server_mmap] never hands back a region:
    the file object [f] is only bound on the other platforms, so
    [f.close()] raises inside the [try] and the handler returns
    [(None, 0)], whatever the named mapping was. *)
Theorem init_server_mmap_win32_fails (fs : filesystem)
    (win32_mmap : Z -> string -> option mmap_object)
    (mmap_filename : string) (mmap_size : Z) :
  fst (init_server_mmap true fs win32_mmap mmap_filename mmap_size) = (None, 0).
Proof.
  unfold init_server_mmap, init_server_mmap_try. cbn [negb].
  destruct (win32_mmap mmap_size mmap_filename); reflexivity.
Qed.

Lemma posix_mmap_some (content : list byte) (length_ : Z) (m : mmap_object) :
  posix_mmap content length_ = Some m ->
  pos m = 0 /\ (0 < length (buf m))%nat /\
  buf m = take (if length_ =? 0 then length content else Z.to_nat length_) content /\
  (length (buf m) <= length content)%nat.
Proof.
  unfold posix_mmap.
  destruct (length_ <? 0) eqn:E1; [discriminate|]. apply Z.ltb_ge in E1.
  destruct (length_ =? 0) eqn:E2.
  - destruct (Z.of_nat (length content) =? 0) eqn:E3; [discriminate|].
    apply Z.eqb_neq in E3. intros [= <-]. cbn [buf pos].
    rewrite firstn_all. repeat split; lia.
  - apply Z.eqb_neq in E2.
    destruct (Z.of_nat (length content) <? length_) eqn:E3; [discriminate|].
    apply Z.ltb_ge in E3. intros [= <-]. cbn [buf pos].
    rewrite length_take. repeat split; lia.
Qed.

(** X16: what [init_server_mmap] returns is consistent on every host: no
    region together with size 0, or a region that is a non-empty prefix of
    the client's file, mapped from position 0, together with the size of
    the file, which is at least the length of the region. *)
Theorem init_server_mmap_result (WIN32 : bool) (fs : filesystem)
    (win32_mmap : Z -> string -> option mmap_object)
    (mmap_filename : string) (mmap_size : Z)
    (a : option mmap_object) (n : Z) (ev : list server_event) :
  init_server_mmap WIN32 fs win32_mmap mmap_filename mmap_size = ((a, n), ev) ->
  (a = None /\ n = 0) \/
  (exists m content,
     a = Some m /\ fs mmap_filename = Some (File content) /\
     n = Z.of_nat (length content) /\ pos m = 0 /\
     buf m = take (length (buf m)) content /\
     0 < Z.of_nat (length (buf m)) <= n).
Proof.
  destruct WIN32.
  - unfold init_server_mmap, init_server_mmap_try. cbn [negb].
    destruct (win32_mmap mmap_size mmap_filename); intros [= <- <- <-]; left; auto.
  - unfold init_server_mmap, init_server_mmap_try. cbn [negb].
    destruct (fs mmap_filename) as [[|content]|] eqn:Hfs;
      try (intros [= <- <- <-]; left; auto).
    destruct (posix_mmap content mmap_size) as [m|] eqn:Hm.
    + intros [= <- <- <-]. right. exists m, content.
      apply posix_mmap_some in Hm as (M1 & M2 & M3 & M4).
      repeat split; try lia; try assumption.
      rewrite M3, length_take.
      set (k := if mmap_size =? 0 then length content else Z.to_nat mmap_size).
      destruct (Nat.min_spec k (length content)) as [[_ ->]|[Hge ->]]; [reflexivity|].
      rewrite !take_ge by lia. reflexivity.
    + intros [= <- <- <-]. left. auto.
Qed.

Lemma init_server_mmap_consistent (WIN32 : bool) (fs : filesystem)
    (win32_mmap : Z -> string -> option mmap_object)
    (mmap_filename : string) (mmap_size : Z)
    (a : option mmap_object) (n : Z) (ev : list server_event) :
  init_server_mmap WIN32 fs win32_mmap mmap_filename mmap_size = ((a, n), ev) ->
  match a with None => n = 0 | Some _ => 0 < n end.
Proof.
  destruct WIN32.
  - unfold init_server_mmap, init_server_mmap_try. cbn [negb].
    destruct (win32_mmap mmap_size mmap_filename); intros [= <- <- <-]; reflexivity.
  - unfold init_server_mmap, init_server_mmap_try. cbn [negb].
    destruct (fs mmap_filename) as [[|content]|] eqn:Hfs;
      try (intros [= <- <- <-]; reflexivity).
    destruct (posix_mmap content mmap_size) as [m|] eqn:Hm.
    + intros [= <- <- <-].
      apply posix_mmap_some in Hm as (M1 & M2 & M3 & M4). lia.
    + intros [= <- <- <-]. reflexivity.
Qed.

(** X17: [parse_client_caps] keeps the server state consistent, however it
    ends: afterwards [self.mmap] is set exactly when [self.mmap_size] is
    positive, so a sender that tests the size never meets a missing
    mapping. *)
Theorem parse_client_caps_consistent (WIN32 : bool) (fs : filesystem)
    (win32_mmap : Z -> string -> option mmap_object)
    (path_join : string -> string -> string) (basename : string -> string)
    (get_int_uuid : Z) (randint : Z -> Z -> Z)
    (self self' : MMAP_Connection.source) (c : typedict)
    (o : outcome unit) (ev : list server_event) :
  mmap_consistent self ->
  MMAP_Connection.parse_client_caps WIN32 fs win32_mmap path_join basename
    get_int_uuid randint self c = (o, self', ev) ->
  mmap_consistent self'.
Proof.
  intros HP. unfold MMAP_Connection.parse_client_caps. cbv zeta.
  destruct (negb (MMAP_Connection.truthy_str _)); [intros [= <- <- <-]; exact HP|].
  destruct (negb (MMAP_Connection.supports_mmap _)); [intros [= <- <- <-]; exact HP|].
  destruct (WIN32 && _); [intros [= <- <- <-]; exact HP|].
  destruct (negb (path_exists fs _)); [intros [= <- <- <-]; exact HP|].
  destruct (init_server_mmap _ _ _ _ _) as [[mapped size] ev0] eqn:Hinit.
  apply init_server_mmap_consistent in Hinit.
  destruct (0 <? size) eqn:Hsize.
  2:{ intros [= <- <- <-]. exact Hinit. }
  apply Z.ltb_lt in Hsize.
  destruct mapped as [a|]; [|intros [= <- <- <-]; exact Hinit].
  destruct (read_mmap_token _ _ _) as [[v|e] s1]; [|intros [= <- <- <-]; exact Hinit].
  destruct (negb (bool_decide _)); [intros [= <- <- <-]; reflexivity|].
  destruct (size <? _); [intros [= <- <- <-]; reflexivity|].
  destruct (write_mmap_token _ _ _ _) as [[u|e] s2]; intros [= <- <- <-]; exact Hsize.
Qed.

Lemma token_written_readable (a : mmap_object) (v index count : Z) :
  0 < count -> 0 <= v < 256 ^ count ->
  0 <= index -> index + count <= Z.of_nat (length (buf a)) ->
  exists b',
    write_mmap_token v index count (Proc a []) = (Ret tt, Proc (MMap b' (pos a)) []) /\
    length b' = length (buf a) /\
    read_mmap_token index count (Proc (MMap b' (pos a)) [])
    = (Ret v, Proc (MMap b' (pos a)) []).
Proof.
  intros Hc Hv Hi Hs.
  pose proof (token_bytes_length v (Z.to_nat count)) as Hl.
  exists (write_at (buf a) (Z.to_nat index) (token_bytes v (Z.to_nat count))).
  assert (Hlen : length (write_at (buf a) (Z.to_nat index) (token_bytes v (Z.to_nat count)))
                 = length (buf a)) by (apply write_at_length; lia).
  split; [|split; [exact Hlen|]].
  - rewrite write_mmap_token_stores
      by (unfold size_of, bytes_of; cbn [buf area]; lia).
    replace (v ≫ (8 * count) =? 0) with true
      by (symmetry; apply Z.eqb_eq, shiftr_zero_iff; lia).
    reflexivity.
  - rewrite read_mmap_token_value by (unfold size_of, bytes_of; cbn [buf area]; lia).
    f_equal. f_equal. unfold bytes_of. cbn [buf area].
    pose proof (slice_write_at_same (buf a) (Z.to_nat index)
                  (token_bytes v (Z.to_nat count))) as Hsl.
    rewrite Hl in Hsl. rewrite Hsl by lia.
    rewrite le_value_token_bytes, Z2Nat.id by lia. apply Z.mod_small. lia.
Qed.

(** The way of [parse_client_caps] up to the comparison of the token. *)
Ltac to_token_check self file Hfile Hne Hsup Hwin Hex Hinit Hsize :=
  unfold MMAP_Connection.parse_client_caps; cbv zeta;
  rewrite Hfile; change (default EmptyString (Some file)) with file;
  cbn [MMAP_Connection.truthy_str];
  replace (String.eqb file EmptyString) with false
    by (symmetry; apply String.eqb_neq; exact Hne);
  cbn [negb MMAP_Connection.supports_mmap]; rewrite Hsup; cbn [negb];
  repeat match goal with
  | |- context [MMAP_Connection.server_path ?f ?j ?b ?s file] =>
      lazymatch s with
      | self => fail
      | _ => change (MMAP_Connection.server_path f j b s file)
               with (MMAP_Connection.server_path f j b self file)
      end
  end;
  rewrite Hwin, Hex; cbn [negb]; rewrite Hinit;
  replace (0 <? _) with true by (symmetry; apply Z.ltb_lt; exact Hsize).

(** X18: when the client's token is found in the region and the region is
    large enough, [parse_client_caps] writes the server's own token (128
    bytes, at the index it drew) into the region and records token, index
    and width; a read at the recorded place returns the recorded token, and
    mmap is reported as enabled.  The drawn index has to leave room for 128
    bytes in the mapping. *)
Theorem parse_client_caps_handshake (WIN32 : bool) (fs : filesystem)
    (win32_mmap : Z -> string -> option mmap_object)
    (path_join : string -> string -> string) (basename : string -> string)
    (get_int_uuid : Z) (randint : Z -> Z -> Z)
    (self : MMAP_Connection.source) (c : typedict)
    (file : string) (a : mmap_object) (size : Z) (ev : list server_event) (v : Z) :
  let ns := boolget c "mmap.namespace" false in
  let attr := MMAP_Connection.mmapattr ns in
  let filename := MMAP_Connection.server_path fs path_join basename self file in
  let index := randint 0 (size - DEFAULT_TOKEN_BYTES) in
  strget c (attr "file") = Some file -> file <> EmptyString ->
  MMAP_Connection.supports_mmap self = true ->
  WIN32 && String.prefix "/" filename = false ->
  path_exists fs filename = true ->
  init_server_mmap WIN32 fs win32_mmap filename (intget c (attr "size") 0)
    = ((Some a, size), ev) ->
  0 < size ->
  fst (read_mmap_token (intget c (attr "token_index") 0)
         (intget c (attr "token_bytes") DEFAULT_TOKEN_BYTES) (Proc a [])) = Ret v ->
  intget_opt c (attr "token") = Some v ->
  MMAP_Connection.min_mmap_size self <= size ->
  0 <= get_int_uuid < 256 ^ DEFAULT_TOKEN_BYTES ->
  0 <= index -> index + DEFAULT_TOKEN_BYTES <= Z.of_nat (length (buf a)) ->
  exists a',
    MMAP_Connection.parse_client_caps WIN32 fs win32_mmap path_join basename
      get_int_uuid randint self c
    = (Ret tt,
       MMAP_Connection.Source true (MMAP_Connection.mmap_filename self)
         (MMAP_Connection.min_mmap_size self) (Some a') size (Some get_int_uuid)
         index DEFAULT_TOKEN_BYTES ns,
       ev ++ [InfoEnabled]) /\
    length (buf a') = length (buf a) /\
    fst (read_mmap_token index DEFAULT_TOKEN_BYTES (Proc a' [])) = Ret get_int_uuid.
Proof.
  cbv zeta. intros Hfile Hne Hsup Hwin Hex Hinit Hsize Hread Htok Hmin Hu Hi1 Hi2.
  destruct (token_written_readable a get_int_uuid
              (randint 0 (size - DEFAULT_TOKEN_BYTES)) DEFAULT_TOKEN_BYTES)
    as (b' & Hw & Hlen & Hr); try assumption; [unfold DEFAULT_TOKEN_BYTES; lia|].
  exists (MMap b' (pos a)).
  split; [|split; [exact Hlen | rewrite Hr; reflexivity]].
  to_token_check self file Hfile Hne Hsup Hwin Hex Hinit Hsize.
  destruct (read_mmap_token _ _ (Proc a [])) as [[v'|e] s'] eqn:E;
    cbn [fst] in Hread; [|discriminate].
  injection Hread as ->.
  rewrite bool_decide_eq_true_2 by exact Htok. cbn [negb].
  cbn [MMAP_Connection.min_mmap_size].
  replace (size <? _) with false by (symmetry; apply Z.ltb_ge; lia).
  rewrite Hw. unfold MMAP_Connection.report. cbn [area MMAP_Connection.mmap_size
    MMAP_Connection.supports_mmap MMAP_Connection.mmap_filename
    MMAP_Connection.min_mmap_size MMAP_Connection.mmap_client_namespace].
  replace (0 <? size) with true by (symmetry; apply Z.ltb_lt; lia).
  reflexivity.
Qed.

(** X19: a region whose token is right but which is smaller than the
    server's minimum is closed as well: [self.mmap] becomes [None] and
    [self.mmap_size] 0, and no token of the server is written. *)
Theorem parse_client_caps_too_small (WIN32 : bool) (fs : filesystem)
    (win32_mmap : Z -> string -> option mmap_object)
    (path_join : string -> string -> string) (basename : string -> string)
    (get_int_uuid : Z) (randint : Z -> Z -> Z)
    (self : MMAP_Connection.source) (c : typedict)
    (file : string) (a : mmap_object) (size : Z) (ev : list server_event) (v : Z) :
  let ns := boolget c "mmap.namespace" false in
  let attr := MMAP_Connection.mmapattr ns in
  let filename := MMAP_Connection.server_path fs path_join basename self file in
  strget c (attr "file") = Some file -> file <> EmptyString ->
  MMAP_Connection.supports_mmap self = true ->
  WIN32 && String.prefix "/" filename = false ->
  path_exists fs filename = true ->
  init_server_mmap WIN32 fs win32_mmap filename (intget c (attr "size") 0)
    = ((Some a, size), ev) ->
  0 < size ->
  fst (read_mmap_token (intget c (attr "token_index") 0)
         (intget c (attr "token_bytes") DEFAULT_TOKEN_BYTES) (Proc a [])) = Ret v ->
  intget_opt c (attr "token") = Some v ->
  size < MMAP_Connection.min_mmap_size self ->
  MMAP_Connection.parse_client_caps WIN32 fs win32_mmap path_join basename
    get_int_uuid randint self c
  = (Ret tt,
     MMAP_Connection.Source true (MMAP_Connection.mmap_filename self)
       (MMAP_Connection.min_mmap_size self) None 0
       (MMAP_Connection.mmap_client_token self)
       (MMAP_Connection.mmap_client_token_index self)
       (MMAP_Connection.mmap_client_token_bytes self) ns,
     ev ++ [WarnTooSmall; Closed a]).
Proof.
  cbv zeta. intros Hfile Hne Hsup Hwin Hex Hinit Hsize Hread Htok Hmin.
  to_token_check self file Hfile Hne Hsup Hwin Hex Hinit Hsize.
  destruct (read_mmap_token _ _ (Proc a [])) as [[v'|e] s'] eqn:E;
    cbn [fst] in Hread; [|discriminate].
  injection Hread as ->.
  rewrite bool_decide_eq_true_2 by exact Htok. cbn [negb].
  cbn [MMAP_Connection.min_mmap_size].
  replace (size <? _) with true by (symmetry; apply Z.ltb_lt; lia).
  reflexivity.
Qed.

(** X20: when the client names no file, or the server does not support
    mmap, [parse_client_caps] opens nothing: it returns normally, only the
    namespace flag of the state is updated, and no mapping is opened or
    closed. *)
Theorem parse_client_caps_not_used (WIN32 : bool) (fs : filesystem)
    (win32_mmap : Z -> string -> option mmap_object)
    (path_join : string -> string -> string) (basename : string -> string)
    (get_int_uuid : Z) (randint : Z -> Z -> Z)
    (self : MMAP_Connection.source) (c : typedict) :
  let ns := boolget c "mmap.namespace" false in
  MMAP_Connection.truthy_str (strget c (MMAP_Connection.mmapattr ns "file")) = false \/
  MMAP_Connection.supports_mmap self = false ->
  exists ev,
    MMAP_Connection.parse_client_caps WIN32 fs win32_mmap path_join basename
      get_int_uuid randint self c
    = (Ret tt,
       MMAP_Connection.Source (MMAP_Connection.supports_mmap self)
         (MMAP_Connection.mmap_filename self) (MMAP_Connection.min_mmap_size self)
         (MMAP_Connection.mmap self) (MMAP_Connection.mmap_size self)
         (MMAP_Connection.mmap_client_token self)
         (MMAP_Connection.mmap_client_token_index self)
         (MMAP_Connection.mmap_client_token_bytes self) ns,
       ev) /\
    Forall (fun e => e = InfoEnabled) ev.
Proof.
  cbv zeta. intros H.
  unfold MMAP_Connection.parse_client_caps. cbv zeta.
  destruct (MMAP_Connection.truthy_str (strget c _)) eqn:Ht; cbn [negb].
  - destruct H as [H|H]; [discriminate|].
    cbn [MMAP_Connection.supports_mmap]. rewrite H. cbn [negb].
    eexists. split; [reflexivity|].
    unfold MMAP_Connection.report. destruct (0 <? _); repeat constructor.
  - eexists. split; [reflexivity | constructor].
Qed.

Lemma mmapattr_distinct (ns : bool) :
  MMAP_Connection.mmapattr ns "token" <> "mmap_enabled"%string /\
  MMAP_Connection.mmapattr ns "token_index" <> "mmap_enabled"%string /\
  MMAP_Connection.mmapattr ns "token_bytes" <> "mmap_enabled"%string /\
  MMAP_Connection.mmapattr ns "token" <> MMAP_Connection.mmapattr ns "token_index" /\
  MMAP_Connection.mmapattr ns "token" <> MMAP_Connection.mmapattr ns "token_bytes" /\
  MMAP_Connection.mmapattr ns "token_index" <> MMAP_Connection.mmapattr ns "token_bytes".
Proof.
  destruct ns; vm_compute; repeat split; intro H; discriminate H.
Qed.

(** X21: [get_caps] always reports [mmap_enabled] as the test
    [mmap_size > 0]; it advertises the server's token, its index and its
    width, under the separator the client uses, when a non-zero token is
    recorded, and nothing besides [mmap_enabled] otherwise (a token equal
    to 0 counts as none). *)
Theorem get_caps_advertises (self : MMAP_Connection.source) :
  let caps := MMAP_Connection_state.get_caps self in
  let attr := MMAP_Connection.mmapattr (MMAP_Connection.mmap_client_namespace self) in
  caps !! "mmap_enabled"%string = Some (CBool (0 <? MMAP_Connection.mmap_size self)) /\
  (forall t, MMAP_Connection.mmap_client_token self = Some t -> t <> 0 ->
     caps !! attr "token"%string = Some (CInt t) /\
     caps !! attr "token_index"%string
       = Some (CInt (MMAP_Connection.mmap_client_token_index self)) /\
     caps !! attr "token_bytes"%string
       = Some (CInt (MMAP_Connection.mmap_client_token_bytes self))) /\
  (MMAP_Connection.mmap_client_token self = None \/
   MMAP_Connection.mmap_client_token self = Some 0 ->
   caps = {["mmap_enabled"%string := CBool (0 <? MMAP_Connection.mmap_size self)]}).
Proof.
  cbv zeta. unfold MMAP_Connection_state.get_caps.
  destruct (mmapattr_distinct (MMAP_Connection.mmap_client_namespace self))
    as (N1 & N2 & N3 & N4 & N5 & N6).
  split; [|split].
  - destruct (MMAP_Connection_state.truthy_int _).
    + rewrite !lookup_insert_ne by assumption. apply lookup_singleton_eq.
    + apply lookup_singleton_eq.
  - intros t Ht Hne. rewrite Ht. cbn [MMAP_Connection_state.truthy_int default].
    replace (t =? 0) with false by (symmetry; apply Z.eqb_neq; exact Hne).
    cbn [negb]. repeat split.
    + rewrite !lookup_insert_ne by (apply not_eq_sym; assumption).
      apply lookup_insert_eq.
    + rewrite lookup_insert_ne by (apply not_eq_sym; assumption).
      apply lookup_insert_eq.
    + apply lookup_insert_eq.
  - intros [-> | ->]; reflexivity.
Qed.

(** X22: [cleanup] closes a mapping at most once: on a state with a
    mapping it clears [self.mmap] and [self.mmap_size] and closes that
    mapping; a second [cleanup] changes nothing and closes nothing; the
    recorded token is kept, so [get_caps] then reports [mmap_enabled] as
    false next to the same token entries as before. *)
Theorem cleanup_closes_once (self : MMAP_Connection.source) (a : mmap_object) :
  MMAP_Connection.mmap self = Some a -> buf a <> [] ->
  let self' := fst (MMAP_Connection_state.cleanup self) in
  snd (MMAP_Connection_state.cleanup self) = [Closed a] /\
  MMAP_Connection.mmap self' = None /\
  MMAP_Connection.mmap_size self' = 0 /\
  MMAP_Connection_state.cleanup self' = (self', []) /\
  MMAP_Connection_state.get_caps self' !! "mmap_enabled"%string = Some (CBool false) /\
  (forall k, k <> "mmap_enabled"%string ->
     MMAP_Connection_state.get_caps self' !! k = MMAP_Connection_state.get_caps self !! k).
Proof.
  intros Hm Hb. cbv zeta. unfold MMAP_Connection_state.cleanup.
  rewrite Hm. unfold mmap_truthy.
  replace (length (buf a) =? 0)%nat with false.
  2:{ symmetry. apply Nat.eqb_neq. destruct (buf a); [congruence | discriminate]. }
  cbn [negb fst snd MMAP_Connection.mmap MMAP_Connection.mmap_size mmap_truthy].
  repeat split.
  - unfold MMAP_Connection_state.get_caps.
    cbn [MMAP_Connection.mmap_size MMAP_Connection.mmap_client_token
         MMAP_Connection.mmap_client_namespace].
    destruct (mmapattr_distinct (MMAP_Connection.mmap_client_namespace self))
      as (N1 & N2 & N3 & _).
    destruct (MMAP_Connection_state.truthy_int _).
    + rewrite !lookup_insert_ne by assumption. apply lookup_singleton_eq.
    + apply lookup_singleton_eq.
  - intros k Hk. unfold MMAP_Connection_state.get_caps.
    cbn [MMAP_Connection.mmap_size MMAP_Connection.mmap_client_token
         MMAP_Connection.mmap_client_namespace MMAP_Connection.mmap_client_token_index
         MMAP_Connection.mmap_client_token_bytes].
    destruct (MMAP_Connection_state.truthy_int _).
    + rewrite !lookup_insert. repeat case_decide; try reflexivity.
      rewrite !lookup_singleton_ne by (apply not_eq_sym; exact Hk). reflexivity.
    + rewrite !lookup_singleton_ne by (apply not_eq_sym; exact Hk). reflexivity.
Qed.


(** ** More on bounds and shapes *)

(** X23: on a region too short for the two cursor words [mmap_write]
    raises [ValueError] before it looks at the payload, and so does
    [mmap_read] when the region is shorter than the first word; nothing is
    changed. *)
Theorem region_without_header (bo : byteorder) (N : Z) (data : list byte)
    (ds : descr) (s : proc) :
  size_of s < 8 ->
  mmap_write bo N data s = (Raise ValueError, s) /\
  (size_of s < 4 -> mmap_read bo ds s = (Raise ValueError, s)).
Proof.
  intros Hs. split.
  - unfold mmap_write, int_from_buffer. unfold bind at 1.
    destruct (Z_lt_le_dec (size_of s) 4) as [H4|H4].
    + rewrite from_buffer_bad by lia. reflexivity.
    + rewrite from_buffer_ok by lia. unfold bind at 1.
      rewrite from_buffer_bad by lia. reflexivity.
  - intros H4. unfold mmap_read, int_from_buffer. unfold bind at 1.
    rewrite from_buffer_bad by lia. reflexivity.
Qed.

(** X24: the descriptor of a successful write has one or two pairs, all
    inside the data area, whose lengths add up to the length of the
    payload; when there are two, the first ends at the end of the region
    and the second starts at offset 8. *)
Theorem mmap_write_descriptor_shape (bo : byteorder) (N : Z) (data : list byte)
    (s s' : proc) (d : descr) (f : Z) :
  size_of s = N ->
  mmap_write bo N data s = (Ret (Some d, f), s') ->
  Forall (in_data_area N) d /\
  ((exists o, d = [(o, Z.of_nat (length data))]) \/
   (exists o l1 l2,
      d = [(o, l1); (8, l2)] /\ o + l1 = N /\ l1 + l2 = Z.of_nat (length data))).
Proof.
  intros HN H. apply mmap_write_inv in H. cbv zeta in H.
  destruct H as (Hsz & Hl & Hf & _ & _ & H).
  revert Hf H. unfold free_space.
  set (start := Z.max 8 (data_start bo (bytes_of s))).
  set (end_ := Z.max 8 (data_end bo (bytes_of s))).
  intros Hf H.
  destruct H as [(C & Hw & -> & Hb) | [(C & _ & Hw & -> & Hb) | (C & _ & Hw1 & Hw2 & -> & Hb)]].
  - split; [|left; eauto].
    repeat constructor; cbn [fst snd]; lia.
  - split; [|left; eauto].
    repeat constructor; cbn [fst snd]; lia.
  - destruct (end_ <? start) eqn:Ewrap; cbn [fst snd] in *;
      [apply Z.ltb_lt in Ewrap; lia | apply Z.ltb_ge in Ewrap].
    assert (Hchunk : 0 <= N - end_).
    { pose proof (Nat2Z.is_nonneg (length (py_slice_to data (N - end_)))). lia. }
    split.
    + repeat constructor; cbn [fst snd]; lia.
    + right. exists end_, (N - end_), (Z.of_nat (length data) - (N - end_)).
      repeat split; lia.
Qed.

(** X25: a token written at one place does not disturb a token stored at
    another: after a successful [write_mmap_token] on one range,
    [read_mmap_token] on a disjoint range returns what it returned
    before. *)
Theorem tokens_do_not_interfere (s s' : proc) (v i1 c1 i2 c2 : Z) :
  0 < c1 -> 0 <= i1 -> i1 + c1 <= size_of s ->
  0 < c2 -> 0 <= i2 -> i2 + c2 <= size_of s ->
  i1 + c1 <= i2 \/ i2 + c2 <= i1 ->
  write_mmap_token v i1 c1 s = (Ret tt, s') ->
  fst (read_mmap_token i2 c2 s') = fst (read_mmap_token i2 c2 s).
Proof.
  intros H1 H2 H3 H4 H5 H6 Hdis Hw.
  rewrite write_mmap_token_stores in Hw by lia.
  unfold py_assert in Hw. destruct (_ =? 0); [|discriminate].
  injection Hw as <-.
  pose proof (token_bytes_length v (Z.to_nat c1)) as Hl.
  set (b' := write_at (bytes_of s) (Z.to_nat i1) (token_bytes v (Z.to_nat c1))).
  assert (Hlen : length b' = length (bytes_of s))
    by (apply write_at_length; unfold size_of in *; lia).
  rewrite !read_mmap_token_value;
    try lia; try (unfold size_of, with_bytes, bytes_of in *; cbn [buf area] in *;
                  fold (bytes_of s) in *; fold b'; lia).
  cbn [fst]. f_equal. f_equal.
  change (bytes_of (with_bytes s b')) with b'.
  apply slice_agree. intros i Hi. unfold b'.
  apply write_at_lookup_out; unfold size_of in *; lia.
Qed.

Lemma get_caps_enabled_lookup (self : MMAP_Connection.source) :
  MMAP_Connection_state.get_caps self !! "mmap_enabled"%string
    = Some (CBool (0 <? MMAP_Connection.mmap_size self)).
Proof.
  unfold MMAP_Connection_state.get_caps.
  destruct (mmapattr_distinct (MMAP_Connection.mmap_client_namespace self))
    as (N1 & N2 & N3 & _).
  destruct (MMAP_Connection_state.truthy_int _).
  - rewrite !lookup_insert_ne by assumption. apply lookup_singleton_eq.
  - apply lookup_singleton_eq.
Qed.

(** X26: on a consistent state the two reports agree: the [enabled] flag
    of [get_info] (a mapping is set) equals the [mmap_enabled] flag of
    [get_caps] (the size is positive). *)
Theorem get_info_agrees_with_get_caps (self : MMAP_Connection.source) :
  mmap_consistent self ->
  exists info,
    MMAP_Connection_state.get_info self !! "mmap"%string = Some info /\
    info !! "enabled"%string
      = MMAP_Connection_state.get_caps self !! "mmap_enabled"%string /\
    info !! "size"%string = Some (CInt (MMAP_Connection.mmap_size self)).
Proof.
  intros HP. unfold MMAP_Connection_state.get_info.
  eexists. split; [apply lookup_singleton_eq|].
  rewrite get_caps_enabled_lookup.
  split.
  - rewrite lookup_insert_ne by discriminate. rewrite lookup_insert_eq.
    f_equal. f_equal. unfold mmap_consistent in HP.
    destruct (MMAP_Connection.mmap self); symmetry;
      [apply Z.ltb_lt | apply Z.ltb_ge]; lia.
  - rewrite !lookup_insert_ne by discriminate. apply lookup_insert_eq.
Qed.

(** ** The further properties on concrete regions *)

Ltac zle := vm_compute; intro; discriminate.
Ltac zlt := vm_compute; reflexivity.

Lemma read_mmap_token_read_only_witness :
  (0 < 4 /\ 0 <= 0 /\ 0 + 4 <= size_of late_region) /\
  exists v, read_mmap_token 0 4 late_region = (Ret v, late_region) /\ 0 <= v < 256 ^ 4.
Proof.
  assert (H1 : 0 < 4) by lia.
  assert (H2 : 0 <= 0) by lia.
  assert (H3 : 0 + 4 <= size_of late_region) by zle.
  split; [auto|].
  exact (read_mmap_token_read_only late_region 0 4 H1 H2 H3).
Defined.

Lemma write_back_read_token_witness :
  read_mmap_token 0 4 late_region = (Ret 14, late_region) /\
  write_mmap_token 14 0 4 late_region = (Ret tt, late_region).
Proof.
  assert (H1 : 0 < 4) by lia.
  assert (H2 : 0 <= 0) by lia.
  assert (H3 : 0 + 4 <= size_of late_region) by zle.
  assert (H4 : read_mmap_token 0 4 late_region = (Ret 14, late_region)) by zlt.
  split; [exact H4|].
  exact (write_back_read_token late_region late_region 14 0 4 H1 H2 H3 H4).
Defined.

Lemma write_mmap_token_frame_witness :
  write_mmap_token 513 3 2 (fresh_region 8)
    = (Ret tt, snd (write_mmap_token 513 3 2 (fresh_region 8))) /\
  length (bytes_of (snd (write_mmap_token 513 3 2 (fresh_region 8))))
    = length (bytes_of (fresh_region 8)).
Proof.
  assert (H1 : 0 < 2) by lia.
  assert (H2 : 0 <= 3) by lia.
  assert (H3 : 3 + 2 <= size_of (fresh_region 8)) by zle.
  assert (H4 : write_mmap_token 513 3 2 (fresh_region 8)
               = (Ret tt, snd (write_mmap_token 513 3 2 (fresh_region 8)))) by zlt.
  split; [exact H4|].
  exact (proj1 (write_mmap_token_frame (fresh_region 8) _ 513 3 2 1 H1 H2 H3 H4)).
Defined.

Lemma write_mmap_token_too_big_witness :
  ~ (0 <= 70000 < 256 ^ 2) /\
  exists s',
    write_mmap_token 70000 3 2 (fresh_region 8) = (Raise AssertionError, s') /\
    read_mmap_token 3 2 s' = (Ret (70000 mod 256 ^ 2), s').
Proof.
  assert (H1 : 0 < 2) by lia.
  assert (H2 : 0 <= 3) by lia.
  assert (H3 : 3 + 2 <= size_of (fresh_region 8)) by zle.
  assert (H4 : ~ (0 <= 70000 < 256 ^ 2)) by lia.
  split; [exact H4|].
  exact (write_mmap_token_too_big (fresh_region 8) 70000 3 2 H1 H2 H3 H4).
Defined.

Lemma read_mmap_token_out_of_range_witness :
  (0 < 2 /\ size_of (fresh_region 8) < 7 + 2) /\
  read_mmap_token 7 2 (fresh_region 8) = (Raise ValueError, fresh_region 8).
Proof.
  assert (H1 : 0 < 2) by lia.
  assert (H2 : size_of (fresh_region 8) < 7 + 2) by zlt.
  split; [auto|].
  exact (read_mmap_token_out_of_range (fresh_region 8) 7 2 H1 (or_intror H2)).
Defined.

Lemma write_mmap_token_overrun_witness :
  (0 <= 7 <= size_of (fresh_region 8) /\ size_of (fresh_region 8) < 7 + 2) /\
  fst (write_mmap_token 513 7 2 (fresh_region 8)) = Raise ValueError /\
  bytes_of (snd (write_mmap_token 513 7 2 (fresh_region 8))) = zeros 7 ++ [x01].
Proof.
  assert (H1 : 0 <= 7 <= size_of (fresh_region 8)) by (split; zle).
  assert (H2 : size_of (fresh_region 8) < 7 + 2) by zlt.
  split; [auto|].
  rewrite (write_mmap_token_overrun (fresh_region 8) 513 7 2 H1 H2).
  split; reflexivity.
Defined.

Lemma mmap_read_one_out_of_range_witness :
  (4 <= size_of (fresh_region 16) /\ 0 <= 8 /\ size_of (fresh_region 16) < 12 + 8) /\
  fst (mmap_read LittleEndian [(12, 8)] (fresh_region 16)) = Raise ValueError /\
  data_start LittleEndian (bytes_of (snd (mmap_read LittleEndian [(12, 8)] (fresh_region 16))))
    = 20.
Proof.
  assert (H1 : 4 <= size_of (fresh_region 16)) by zle.
  assert (H2 : 0 <= 8) by lia.
  assert (H3 : size_of (fresh_region 16) < 12 + 8) by zlt.
  split; [auto|].
  rewrite (proj2 (mmap_read_one_out_of_range LittleEndian (fresh_region 16) 12 8 H1)
             H2 (or_intror H3)).
  split; reflexivity.
Defined.

Lemma mmap_read_lengths_unchecked_witness :
  (length [(8, 100); (12, -1)] <> 1%nat /\ 4 <= size_of late_region /\
   Forall (fun p => 4 <= fst p <= size_of late_region) [(8, 100); (12, -1)]) /\
  exists c',
    mmap_read LittleEndian [(8, 100); (12, -1)] late_region
    = (Ret (Copy (zeros 8 ++ zeros 4)), c').
Proof.
  assert (H1 : length [(8, 100); (12, -1)] <> 1%nat) by (intro; discriminate).
  assert (H2 : 4 <= size_of late_region) by zle.
  assert (H3 : Forall (fun p => 4 <= fst p <= size_of late_region) [(8, 100); (12, -1)])
    by (repeat constructor; zle).
  split; [auto|].
  destruct (mmap_read_lengths_unchecked LittleEndian _ late_region H1 H2 H3)
    as (c' & Hr & _).
  exists c'. exact Hr.
Defined.

Lemma mmap_read_touches_only_data_start_witness :
  agree_from 4 (bytes_of (fresh_region 16))
    (bytes_of (snd (mmap_read BigEndian [(8, 2)] (fresh_region 16)))).
Proof.
  exact (proj1 (mmap_read_touches_only_data_start BigEndian [(8, 2)] (fresh_region 16) _ _
                  (surjective_pairing _))).
Defined.

Lemma mmap_write_keeps_data_start_witness :
  data_start BigEndian (bytes_of (snd (mmap_write BigEndian 16 (sample 5) (fresh_region 16))))
  = data_start BigEndian (bytes_of (fresh_region 16)).
Proof.
  exact (proj2 (mmap_write_keeps_data_start BigEndian 16 (sample 5) (fresh_region 16) _ _
                  (surjective_pairing _))).
Defined.

Lemma mmap_write_frame_witness :
  (size_of late_region = 16 /\ 16 <= 2 ^ 32 /\
   mmap_write LittleEndian 16 (sample 5) late_region
   = (Ret (Some [(14, 2); (8, 3)], 3),
      snd (mmap_write LittleEndian 16 (sample 5) late_region))) /\
  stored (bytes_of (snd (mmap_write LittleEndian 16 (sample 5) late_region)))
         [(14, 2); (8, 3)] = sample 5.
Proof.
  assert (H1 : size_of late_region = 16) by reflexivity.
  assert (H2 : 16 <= 2 ^ 32) by lia.
  assert (H3 : mmap_write LittleEndian 16 (sample 5) late_region
               = (Ret (Some [(14, 2); (8, 3)], 3),
                  snd (mmap_write LittleEndian 16 (sample 5) late_region))) by zlt.
  split; [auto|].
  exact (proj1 (proj2 (proj2
           (mmap_write_frame LittleEndian 16 (sample 5) late_region _ _ _ 12 H1 H2 H3)))).
Defined.

Lemma mmap_write_free_is_next_available_witness :
  (16 <= 2 ^ 32 /\
   mmap_write LittleEndian 16 (sample 5) late_region
   = (Ret (Some [(14, 2); (8, 3)], 3),
      snd (mmap_write LittleEndian 16 (sample 5) late_region))) /\
  available_in LittleEndian 16
    (bytes_of (snd (mmap_write LittleEndian 16 (sample 5) late_region))) = 3.
Proof.
  assert (H2 : 16 <= 2 ^ 32) by lia.
  assert (H3 : mmap_write LittleEndian 16 (sample 5) late_region
               = (Ret (Some [(14, 2); (8, 3)], 3),
                  snd (mmap_write LittleEndian 16 (sample 5) late_region))) by zlt.
  split; [auto|].
  rewrite (mmap_write_free_is_next_available LittleEndian 16 (sample 5) late_region
             _ _ _ H2 H3).
  reflexivity.
Defined.

Lemma exchange_delivers_in_order_witness :
  (8 <= 16 <= 2 ^ 32 /\ Z.of_nat (length (zeros 16)) = 16 /\
   data_start BigEndian (zeros 16) = 0 /\ data_end BigEndian (zeros 16) = 0) /\
  exists x unread,
    exchange_run BigEndian 16
      [DoWrite (sample 5); DoWrite (sample 2); DoRead; DoWrite (sample 6); DoRead]
      (Exchange (Channel (zeros 16) 0 0 []) [] []) = Some x /\
    sent x = received x ++ unread.
Proof.
  assert (H1 : 8 <= 16 <= 2 ^ 32) by lia.
  assert (H2 : Z.of_nat (length (zeros 16)) = 16) by reflexivity.
  assert (H3 : data_start BigEndian (zeros 16) = 0) by reflexivity.
  assert (H4 : data_end BigEndian (zeros 16) = 0) by reflexivity.
  split; [auto|].
  destruct (exchange_delivers_in_order BigEndian 16
              [DoWrite (sample 5); DoWrite (sample 2); DoRead; DoWrite (sample 6); DoRead]
              (zeros 16) 0 0 H1 H2 H3 H4) as (x & unread & Hrun & Hsent & _).
  exists x, unread. auto.
Defined.

Lemma drained_ring_is_free_witness :
  exists x,
    drained_exchange = Some x /\ live (chan x) = [] /\
    received x = sent x /\ available_in LittleEndian 16 (shared (chan x)) = 16 - 8.
Proof.
  assert (H1 : 8 <= 16 <= 2 ^ 32) by lia.
  assert (H2 : Z.of_nat (length (zeros 16)) = 16) by reflexivity.
  assert (H3 : data_start LittleEndian (zeros 16) = 0) by reflexivity.
  assert (H4 : data_end LittleEndian (zeros 16) = 0) by reflexivity.
  assert (H7 : Z.of_nat (length (sample 3)) < 16 - 8) by zlt.
  destruct drained_exchange as [x|] eqn:E; [|vm_compute in E; discriminate E].
  assert (H6 : live (chan x) = []).
  { vm_compute in E. injection E as <-. reflexivity. }
  exists x. split; [reflexivity|]. split; [exact H6|].
  destruct (drained_ring_is_free LittleEndian 16 [DoWrite (sample 5); DoRead]
              (zeros 16) 0 0 x (sample 3) H1 H2 H3 H4 E H6 H7) as (R1 & R2 & _).
  auto.
Defined.

Lemma init_server_mmap_result_witness :
  init_server_mmap false one_file no_win32_mmap "m" 0
    = ((Some (MMap (x07 :: zeros 15) 0), 16), []) /\
  exists m content,
    one_file "m" = Some (File content) /\ buf m = take (length (buf m)) content.
Proof.
  assert (H : init_server_mmap false one_file no_win32_mmap "m" 0
              = ((Some (MMap (x07 :: zeros 15) 0), 16), [])) by reflexivity.
  split; [exact H|].
  destruct (init_server_mmap_result false one_file no_win32_mmap "m" 0 _ _ _ H)
    as [[Hn _] | (m & content & _ & Hfs & _ & _ & Hb & _)]; [discriminate Hn|].
  exists m, content. auto.
Defined.

Lemma parse_client_caps_consistent_witness :
  mmap_consistent sample_source /\
  mmap_consistent
    (snd (fst (MMAP_Connection.parse_client_caps false one_file no_win32_mmap
                 String.append (fun p => p) 99 (fun a _ => a) sample_source good_caps))).
Proof.
  assert (H : mmap_consistent sample_source) by reflexivity.
  split; [exact H|].
  refine (parse_client_caps_consistent false one_file no_win32_mmap
            String.append (fun p => p) 99 (fun a _ => a) sample_source _ good_caps
            (fst (fst (MMAP_Connection.parse_client_caps false one_file no_win32_mmap
                         String.append (fun p => p) 99 (fun a _ => a)
                         sample_source good_caps)))
            (snd (MMAP_Connection.parse_client_caps false one_file no_win32_mmap
                    String.append (fun p => p) 99 (fun a _ => a)
                    sample_source good_caps)) H _).
  destruct (MMAP_Connection.parse_client_caps _ _ _ _ _ _ _ _ _) as [[o s1] e].
  reflexivity.
Defined.

Lemma parse_client_caps_handshake_witness :
  exists a',
    MMAP_Connection.mmap
      (snd (fst (MMAP_Connection.parse_client_caps false big_file no_win32_mmap
                   String.append (fun p => p) 99 (fun a _ => a + 3) sample_source big_caps)))
    = Some a' /\
    fst (read_mmap_token 3 DEFAULT_TOKEN_BYTES (Proc a' [])) = Ret 99.
Proof.
  destruct (parse_client_caps_handshake false big_file no_win32_mmap
              String.append (fun p => p) 99 (fun a _ => a + 3) sample_source big_caps
              "big" (MMap (x07 :: zeros 199) 0) 200 [] 7)
    as (a' & Hp & _ & Hr).
  - zlt.
  - intro H; discriminate H.
  - reflexivity.
  - reflexivity.
  - reflexivity.
  - zlt.
  - lia.
  - zlt.
  - zlt.
  - zle.
  - split; [zle | zlt].
  - zle.
  - zle.
  - exists a'. rewrite Hp. split; [reflexivity | exact Hr].
Defined.

Lemma parse_client_caps_too_small_witness :
  MMAP_Connection.parse_client_caps false one_file no_win32_mmap
    String.append (fun p => p) 99 (fun a _ => a) demanding_source good_caps
  = (Ret tt,
     MMAP_Connection.Source true None 100 None 0 None 512 0 false,
     [WarnTooSmall; Closed (MMap (x07 :: zeros 15) 0)]).
Proof.
  apply (parse_client_caps_too_small false one_file no_win32_mmap
           String.append (fun p => p) 99 (fun a _ => a) demanding_source good_caps
           "m" (MMap (x07 :: zeros 15) 0) 16 [] 7).
  - zlt.
  - intro H; discriminate H.
  - reflexivity.
  - reflexivity.
  - reflexivity.
  - zlt.
  - lia.
  - zlt.
  - zlt.
  - zlt.
Defined.

Lemma parse_client_caps_not_used_witness :
  MMAP_Connection.truthy_str
    (strget ∅ (MMAP_Connection.mmapattr (boolget ∅ "mmap.namespace" false) "file")) = false /\
  exists ev,
    fst (MMAP_Connection.parse_client_caps false one_file no_win32_mmap
           String.append (fun p => p) 99 (fun a _ => a) mapped_source ∅)
    = (Ret tt, mapped_source) /\ ev = @nil server_event.
Proof.
  assert (H : MMAP_Connection.truthy_str
                (strget ∅ (MMAP_Connection.mmapattr (boolget ∅ "mmap.namespace" false) "file"))
              = false) by reflexivity.
  split; [exact H|].
  destruct (parse_client_caps_not_used false one_file no_win32_mmap
              String.append (fun p => p) 99 (fun a _ => a) mapped_source ∅ (or_introl H))
    as (ev & Hp & _).
  exists []. rewrite Hp. split; reflexivity.
Defined.

Lemma get_caps_advertises_witness :
  MMAP_Connection_state.get_caps mapped_source !! "mmap_token"%string = Some (CInt 5) /\
  MMAP_Connection_state.get_caps mapped_source !! "mmap_token_index"%string = Some (CInt 3).
Proof.
  destruct (get_caps_advertises mapped_source) as (_ & H & _).
  destruct (H 5 eq_refl ltac:(lia)) as (H1 & H2 & _).
  split; [exact H1 | exact H2].
Defined.

Lemma cleanup_closes_once_witness :
  (MMAP_Connection.mmap mapped_source = Some (MMap (zeros 8) 0) /\
   buf (MMap (zeros 8) 0) <> []) /\
  snd (MMAP_Connection_state.cleanup mapped_source) = [Closed (MMap (zeros 8) 0)] /\
  MMAP_Connection_state.cleanup (fst (MMAP_Connection_state.cleanup mapped_source))
  = (fst (MMAP_Connection_state.cleanup mapped_source), []).
Proof.
  assert (H1 : MMAP_Connection.mmap mapped_source = Some (MMap (zeros 8) 0)) by reflexivity.
  assert (H2 : buf (MMap (zeros 8) 0) <> []) by (intro H; discriminate H).
  split; [auto|].
  destruct (cleanup_closes_once mapped_source _ H1 H2) as (C1 & _ & _ & C4 & _).
  split; [exact C1 | exact C4].
Defined.

Lemma region_without_header_witness :
  size_of (fresh_region 6) < 8 /\
  mmap_write LittleEndian 6 (sample 1) (fresh_region 6) = (Raise ValueError, fresh_region 6).
Proof.
  assert (H : size_of (fresh_region 6) < 8) by zlt.
  split; [exact H|].
  exact (proj1 (region_without_header LittleEndian 6 (sample 1) [] (fresh_region 6) H)).
Defined.

Lemma mmap_write_descriptor_shape_witness :
  (size_of late_region = 16 /\
   mmap_write LittleEndian 16 (sample 5) late_region
   = (Ret (Some [(14, 2); (8, 3)], 3),
      snd (mmap_write LittleEndian 16 (sample 5) late_region))) /\
  Forall (in_data_area 16) [(14, 2); (8, 3)].
Proof.
  assert (H1 : size_of late_region = 16) by reflexivity.
  assert (H3 : mmap_write LittleEndian 16 (sample 5) late_region
               = (Ret (Some [(14, 2); (8, 3)], 3),
                  snd (mmap_write LittleEndian 16 (sample 5) late_region))) by zlt.
  split; [auto|].
  exact (proj1 (mmap_write_descriptor_shape LittleEndian 16 (sample 5) late_region
                  _ _ _ H1 H3)).
Defined.

Lemma tokens_do_not_interfere_witness :
  write_mmap_token 513 2 2 late_region
    = (Ret tt, snd (write_mmap_token 513 2 2 late_region)) /\
  fst (read_mmap_token 4 4 (snd (write_mmap_token 513 2 2 late_region)))
  = fst (read_mmap_token 4 4 late_region).
Proof.
  assert (Hw : write_mmap_token 513 2 2 late_region
               = (Ret tt, snd (write_mmap_token 513 2 2 late_region))) by zlt.
  split; [exact Hw|].
  apply (tokens_do_not_interfere late_region _ 513 2 2 4 4); try lia; try zle.
  exact Hw.
Defined.

Lemma get_info_agrees_with_get_caps_witness :
  mmap_consistent mapped_source /\
  exists info,
    MMAP_Connection_state.get_info mapped_source !! "mmap"%string = Some info /\
    info !! "enabled"%string = Some (CBool true).
Proof.
  assert (H : mmap_consistent mapped_source) by zlt.
  split; [exact H|].
  destruct (get_info_agrees_with_get_caps mapped_source H) as (info & H1 & H2 & _).
  exists info. split; [exact H1|]. rewrite H2. reflexivity.
Defined.
